(** * Incident simulation, recovery and snapshotting of the MLOps harness

    A shallow embedding of
      - [src/incident/incident_generator.py]  (IncidentGenerator),
      - [src/incident/recovery_manager.py]    (RecoveryManager),
      - [src/versioning/version_controller.py] (VersionController),
      - [src/versioning/dvc_manager.py]       (DVCManager),
      - [src/utils/config.py]                 (ConfigManager.get),
      - [scripts/train_pipeline.py]           (main),
    as state-passing functions over an explicit world (file system, clock,
    trace of the effects performed), with Python exceptions as a sum type. *)

From stdpp Require Import gmap strings list fin_maps pretty.
From Stdlib Require Import ZArith Ascii String.

Open Scope string_scope.

(** ** Python values *)

(** The values stored in the dictionaries of the program
    ([Dict[str, Any]]): [None], [str], [int], a DataFrame shape (a pair of
    ints), a list of strings, and a nested dictionary (the ['incident']
    entry of a recovery result). *)
#[warnings="-register-all"]
Inductive pyval : Type :=
  | VNone
  | VStr (s : string)
  | VInt (z : Z)
  | VShape (rows cols : nat)
  | VList (l : list string)
  | VDict (d : gmap string pyval).

(** ** Exceptions *)

Inductive exn : Type :=
  | KeyError (key : string)
  | TypeError (msg : string)
  | ValueError (msg : string)
  | FileNotFoundError (path : string)
  | FileNotFoundMessage (msg : string)  (* FileNotFoundError(msg), raised by the program *)
  | IsADirectoryError (path : string)
  | SameFileError (src dst : string)
  | FileExistsError (path : string)
  | OSError (msg : string)
  | CalledProcessError (cmd : list string) (returncode : Z)
  | JSONDecodeError (msg : string)
  | ParserError (msg : string).

(** [isinstance(e, subprocess.CalledProcessError)] *)
Definition is_CalledProcessError (e : exn) : bool :=
  match e with CalledProcessError _ _ => true | _ => false end.

(** ** The world *)

Inductive node : Type :=
  | File (content : string)
  | Dir.

(** Outcome of spawning a child process. *)
Inductive proc_outcome : Type :=
  | Exited (returncode : Z) (stdout : string)
  | SpawnFailed (msg : string).  (* OSError: the program could not be started *)

(** Effects the program performs on its environment, in program order. A
    child process is recorded with how it ended. *)
Inductive event : Type :=
  | EvRun (cmd : list string) (o : proc_outcome)  (* subprocess.run(cmd, ...) *)
  | EvCopy2 (src dst : string)                (* shutil.copy2(src, dst) *)
  | EvWrite (path : string)                   (* open(path, 'w') / to_csv *)
  | EvUnlink (path : string)                  (* Path.unlink() *)
  | EvMkdir (path : string)                   (* Path.mkdir(...) *)
  | EvRestoreSnapshot (tag : string) (restore_data restore_models restore_code : bool).
                                              (* entry of restore_snapshot *)

Record World : Type := mkWorld {
  fs : gmap string node;    (* path -> regular file or directory *)
  clock : nat;              (* ticks of datetime.now() *)
  trace : list event        (* effects so far, oldest first *)
}.

(** ** State and exception monad *)

Inductive res (A : Type) : Type :=
  | Ok (a : A)
  | Raise (e : exn).
Arguments Ok {A} a.
Arguments Raise {A} e.

Definition M (S A : Type) : Type := S -> res A * S.

Definition ret {S A} (a : A) : M S A := fun s => (Ok a, s).
Definition raise {S A} (e : exn) : M S A := fun s => (Raise e, s).
Definition bind {S A B} (m : M S A) (k : A -> M S B) : M S B :=
  fun s => match m s with
           | (Ok a, s') => k a s'
           | (Raise e, s') => (Raise e, s')
           end.
(** [try: m  except Exception as e: h e] *)
Definition try_except {S A} (m : M S A) (h : exn -> M S A) : M S A :=
  fun s => match m s with
           | (Ok a, s') => (Ok a, s')
           | (Raise e, s') => h e s'
           end.
Definition get {S} : M S S := fun s => (Ok s, s).
Definition modify {S} (f : S -> S) : M S unit := fun s => (Ok tt, f s).

Declare Scope py_scope.
Delimit Scope py_scope with py.
Notation "x <- m ;; k" := (bind m (fun x => k))
  (at level 100, m at next level, right associativity) : py_scope.
Notation "m ;;; k" := (bind m (fun _ => k))
  (at level 100, right associativity) : py_scope.
Open Scope py_scope.

(** A function body with a local mutable object ([incident],
    [recovery_result], [snapshot_info], the list [snapshots]): the object
    survives an exception raised in the middle of the body, as the Python
    object does. *)
Record Frame (L : Type) : Type := mkFrame {
  fr_world : World;
  fr_local : L
}.
Arguments mkFrame {L} _ _.
Arguments fr_world {L} _.
Arguments fr_local {L} _.

Definition liftW {L A} (m : M World A) : M (Frame L) A :=
  fun f => let '(r, w) := m (fr_world f) in (r, mkFrame w (fr_local f)).

(** Runs a body on a fresh local object, returning the object with the
    body's outcome. *)
Definition with_local {L A} (l : L) (m : M (Frame L) A) : World -> res A * L * World :=
  fun w => let '(r, f) := m (mkFrame w l) in (r, fr_local f, fr_world f).

Definition get_local {L} : M (Frame L) L := fun f => (Ok (fr_local f), f).

Definition set_local {L} (l : L) : M (Frame L) unit :=
  fun f => (Ok tt, mkFrame (fr_world f) l).

(** [d[k] = v] on the local dictionary *)
Definition set_item (k : string) (v : pyval) : M (Frame (gmap string pyval)) unit :=
  fun f => (Ok tt, mkFrame (fr_world f) (<[k := v]> (fr_local f))).

(** [d[k].append(x)] on the local dictionary *)
Definition append_item (k : string) (x : string) : M (Frame (gmap string pyval)) unit :=
  fun f => match fr_local f !! k with
           | Some (VList l) =>
               (Ok tt, mkFrame (fr_world f) (<[k := VList (l ++ [x])]> (fr_local f)))
           | Some _ => (Raise (TypeError "object has no attribute 'append'"), f)
           | None => (Raise (KeyError k), f)
           end.

(** ** str(e) *)

Definition errno_msg (n what path : string) : string :=
  "[Errno " ++ n ++ "] " ++ what ++ ": '" ++ path ++ "'".

Definition str_exn (e : exn) : string :=
  match e with
  | KeyError k => "'" ++ k ++ "'"
  | TypeError m => m
  | ValueError m => m
  | FileNotFoundError p => errno_msg "2" "No such file or directory" p
  | FileNotFoundMessage m => m
  | IsADirectoryError p => errno_msg "21" "Is a directory" p
  | SameFileError s d => "'" ++ s ++ "' and '" ++ d ++ "' are the same file"
  | FileExistsError p => errno_msg "17" "File exists" p
  | OSError m => m
  | CalledProcessError c rc => "Command returned non-zero exit status"
  | JSONDecodeError m => m
  | ParserError m => m
  end.

(** ** Strings and paths *)

Definition is_space (c : ascii) : bool :=
  match c with
  | " "%char | "009"%char | "010"%char | "011"%char | "012"%char | "013"%char
  | "028"%char | "029"%char | "030"%char | "031"%char
  | "133"%char | "160"%char => true
  | _ => false
  end.

Fixpoint lstrip (s : string) : string :=
  match s with
  | String c s' => if is_space c then lstrip s' else s
  | EmptyString => EmptyString
  end.

Fixpoint rev_string (acc s : string) : string :=
  match s with
  | String c s' => rev_string (String c acc) s'
  | EmptyString => acc
  end.

Definition rstrip (s : string) : string :=
  rev_string "" (lstrip (rev_string "" s)).

(** [s.strip()] *)
Definition strip (s : string) : string := rstrip (lstrip s).

(** [s.split(sep)] for a one-character separator; [cur] is the field being
    read, reversed. *)
Fixpoint split_aux (sep : ascii) (cur : string) (s : string) : list string :=
  match s with
  | EmptyString => [rev_string "" cur]
  | String c s' =>
      if Ascii.eqb c sep then rev_string "" cur :: split_aux sep "" s'
      else split_aux sep (String c cur) s'
  end.

Definition split (sep : ascii) (s : string) : list string := split_aux sep "" s.

(** The character occurs in the string. *)
Fixpoint has_char (c : ascii) (s : string) : bool :=
  match s with
  | EmptyString => false
  | String c' s' => Ascii.eqb c' c || has_char c s'
  end.

(** [Path(s)]: pathlib turns the empty string into the current directory.
    Path strings are taken in pathlib's normal form throughout (no empty or
    ['.'] component, no trailing ['/']), so that a file has one name and a
    path other than [''] is its own normal form. *)
Definition Path (s : string) : string := if String.eqb s "" then "." else s.

(** Drops the last component of a reversed path: the characters up to and
    including the first ['/']. *)
Fixpoint drop_component (r : string) : option string :=
  match r with
  | EmptyString => None
  | String c r' => if Ascii.eqb c "/" then Some r' else drop_component r'
  end.

(** [p.parent] *)
Definition path_parent (p : string) : string :=
  match drop_component (rev_string "" p) with
  | None => "."
  | Some EmptyString => "/"
  | Some r => rev_string "" r
  end.

Fixpoint take_component (r : string) : string :=
  match r with
  | EmptyString => EmptyString
  | String c r' => if Ascii.eqb c "/" then EmptyString else String c (take_component r')
  end.

(** [p.name] *)
Definition path_name (p : string) : string :=
  if String.eqb p "." then "" else rev_string "" (take_component (rev_string "" p)).

(** [d / name]: an absolute [name] replaces [d]. *)
Definition path_join (d name : string) : string :=
  if String.prefix "/" name then name
  else if String.eqb d "." then name
  else if String.eqb d "/" then "/" ++ name
  else d ++ "/" ++ name.

(** [p.with_suffix(p.suffix + '.backup')]: the name of [p] followed by
    ['.backup']; pathlib raises [ValueError] on a path with an empty name. *)
Definition with_backup_suffix (p : string) : res string :=
  if String.eqb (path_name p) "" then Raise (ValueError (p ++ " has an empty name"))
  else Ok (p ++ ".backup").

(** ** The environment

    What the program delegates to external tools and libraries: child
    processes (git, dvc), the JSON codec, directory listings, pandas and
    the random number generators. Each is a function of the current world,
    so that an outcome may depend on everything done before. *)
Record Env : Type := mkEnv {
  (** outcome of a spawned command, and the file system it leaves *)
  exec : list string -> World -> proc_outcome * gmap string node;
  (** [datetime.isoformat()] of a clock tick *)
  isoformat : nat -> string;
  json_load : string -> res (gmap string pyval);
  json_dump : gmap string pyval -> string;
  (** [Path(dir).glob(pattern)] *)
  glob : World -> string -> string -> list string;
  DataFrame : Type;
  read_csv : string -> res DataFrame;
  to_csv : DataFrame -> string;
  shape : DataFrame -> nat * nat;
  (** the three corruptions of [simulate_data_corruption]; numpy's random
      state is part of the world *)
  corrupt_random : World -> DataFrame -> DataFrame;
  corrupt_missing : World -> DataFrame -> DataFrame;
  corrupt_duplicate : World -> DataFrame -> DataFrame;
  (** [random.choice] over a list of [n] elements: the index chosen *)
  random_index : World -> nat -> nat
}.

(** [PathConfig] of [utils/config.py] (the fields used here) *)
Record PathConfig : Type := mkPathConfig {
  raw_data : string;
  processed_data : string;
  trained_models : string
}.

(** [DVCConfig] of [utils/config.py] (the field read by [DVCManager.add]) *)
Record DVCConfig : Type := mkDVCConfig {
  autostage : bool
}.

Section Program.

Variable E : Env.
Variable paths : PathConfig.
Variable dvc_config : DVCConfig.

(** ** Operations on the world *)

Definition emit (ev : event) : M World unit :=
  modify (fun w => mkWorld (fs w) (clock w) (trace w ++ [ev])).

Definition set_fs (f : gmap string node) : M World unit :=
  modify (fun w => mkWorld f (clock w) (trace w)).

(** [datetime.now().isoformat()] *)
Definition now_isoformat : M World string :=
  fun w => (Ok (isoformat E (clock w)), mkWorld (fs w) (S (clock w)) (trace w)).

Definition lookup_node (p : string) (w : World) : option node :=
  if String.eqb p "." then Some Dir else fs w !! p.

(** [Path(p).exists()] *)
Definition path_exists (p : string) (w : World) : bool :=
  match lookup_node p w with Some _ => true | None => false end.

(** [Path(p).is_dir()] *)
Definition path_is_dir (p : string) (w : World) : bool :=
  match lookup_node p w with Some Dir => true | _ => false end.

(** [open(p, 'r').read()] *)
Definition read_file (p : string) : M World string :=
  fun w => match lookup_node p w with
           | Some (File c) => (Ok c, w)
           | Some Dir => (Raise (IsADirectoryError p), w)
           | None => (Raise (FileNotFoundError p), w)
           end.

(** [open(p, 'w').write(c)]. The file system is a flat map from paths to
    nodes: the directory that is to hold [p] is taken to exist, and an
    [open] that fails for the lack of it is outside this model. *)
Definition write_file (p c : string) : M World unit :=
  emit (EvWrite p) ;;;
  w <- get ;;
  match lookup_node p w with
  | Some Dir => raise (IsADirectoryError p)
  | _ => set_fs (<[p := File c]> (fs w))
  end.

(** [shutil.copy2(src, dst)]: a destination that is a directory receives the
    file under the source's base name, [os.path.basename(src)]; the base name
    of ['.'] is ['.'], and [dst/.] is the directory [dst] itself. Source and
    target are the same file when their normal forms agree. The directory
    that is to hold the target is taken to exist, as for [write_file]. *)
Definition copy2 (src dst : string) : M World unit :=
  emit (EvCopy2 src dst) ;;;
  w <- get ;;
  let target := if path_is_dir dst w
                then (if String.eqb src "." then dst else path_join dst (path_name src))
                else dst in
  if String.eqb src target && path_exists src w then raise (SameFileError src target)
  else
    c <- read_file src ;;
    match lookup_node target w with
    | Some Dir => raise (IsADirectoryError target)
    | _ => set_fs (<[target := File c]> (fs w))
    end.

(** [Path(p).unlink()] *)
Definition unlink (p : string) : M World unit :=
  emit (EvUnlink p) ;;;
  w <- get ;;
  match lookup_node p w with
  | Some (File _) => set_fs (delete p (fs w))
  | Some Dir => raise (IsADirectoryError p)
  | None => raise (FileNotFoundError p)
  end.

(** [Path(p).mkdir(exist_ok=True)], also with [parents=True]; without it,
    the parent directory is taken to exist, as for [write_file]. *)
Definition mkdir_exist_ok (p : string) : M World unit :=
  emit (EvMkdir p) ;;;
  w <- get ;;
  match lookup_node p w with
  | Some Dir => ret tt
  | Some (File _) => raise (FileExistsError p)
  | None => set_fs (<[p := Dir]> (fs w))
  end.

(** [subprocess.run(cmd, check=check, ...)]: the return code and the
    captured standard output. *)
Definition subprocess_run (cmd : list string) (check : bool) : M World (Z * string) :=
  w <- get ;;
  let '(o, f) := exec E cmd w in
  emit (EvRun cmd o) ;;;
  match o with
  | SpawnFailed msg => raise (OSError msg)
  | Exited rc out =>
      set_fs f ;;;
      if check && negb (rc =? 0)%Z then raise (CalledProcessError cmd rc)
      else ret (rc, out)
  end.

(** [type(v).__name__] *)
Definition type_name (v : pyval) : string :=
  match v with
  | VNone => "NoneType"
  | VStr _ => "str"
  | VInt _ => "int"
  | VShape _ _ => "tuple"
  | VList _ => "list"
  | VDict _ => "dict"
  end.

(** [Path(v)] for a dictionary value *)
Definition Path_of {S} (v : pyval) : M S string :=
  match v with
  | VStr s => ret (Path s)
  | _ => raise (TypeError ("expected str, bytes or os.PathLike object, not "
                           ++ type_name v))
  end.

(** [d[k]] *)
Definition getitem {S} (d : gmap string pyval) (k : string) : M S pyval :=
  match d !! k with
  | Some v => ret v
  | None => raise (KeyError k)
  end.

(** [d.get(k, default)] *)
Definition get_default (d : gmap string pyval) (k : string) (default : pyval) : pyval :=
  match d !! k with
  | Some v => v
  | None => default
  end.

(** ** DVCManager ([versioning/dvc_manager.py]) *)

(** [except subprocess.CalledProcessError: return False]: any other
    exception propagates. *)
Definition on_called_process_error {S A} (m : M S A) (a : A) : M S A :=
  try_except m (fun e => if is_CalledProcessError e then ret a else raise e).

Definition dvc_add (path : string) : M World bool :=
  on_called_process_error
    (subprocess_run ["dvc"; "add"; path] true ;;;
     (if autostage dvc_config then
        let dvc_file := Path (path ++ ".dvc") in
        w <- get ;;
        if path_exists dvc_file w then
          subprocess_run ["git"; "add"; dvc_file] false ;;; ret tt
        else ret tt
      else ret tt) ;;;
     ret true)
    false.

Definition dvc_push : M World bool :=
  on_called_process_error (subprocess_run ["dvc"; "push"] true ;;; ret true) false.

Definition dvc_pull : M World bool :=
  on_called_process_error (subprocess_run ["dvc"; "pull"] true ;;; ret true) false.

Definition dvc_checkout (target : string) : M World bool :=
  on_called_process_error
    (subprocess_run ["dvc"; "checkout"; target] true ;;; ret true) false.

(** ** VersionController ([versioning/version_controller.py]) *)

(** [bool(d)] of a dictionary *)
Definition dict_truthy (d : gmap string pyval) : bool :=
  negb (bool_decide (d = ∅)).

(** [str(v)] inside an f-string, for the values this program formats:
    strings, [None], ints and shapes. The text of a list or of a dictionary
    (the [repr] of its items, in insertion order) is not modelled; no
    property below is about one. *)
Definition py_str (v : pyval) : string :=
  match v with
  | VStr s => s
  | VNone => "None"
  | VInt z => pretty z
  | VShape rows cols => "(" ++ pretty rows ++ ", " ++ pretty cols ++ ")"
  | VList _ => "<list>"
  | VDict _ => "<dict>"
  end.

Definition _git_commit (tag message : string) : M World unit :=
  on_called_process_error
    (subprocess_run ["git"; "add"; "*.dvc"; ".dvc/"] false ;;;
     subprocess_run ["git"; "add"; ".gitignore"] false ;;;
     subprocess_run ["git"; "commit"; "-m"; tag ++ ": " ++ message] false ;;;
     ret tt)
    tt.

Definition _git_tag (tag message : string) : M World unit :=
  on_called_process_error
    (subprocess_run ["git"; "tag"; "-a"; tag; "-m"; message] true ;;; ret tt)
    tt.

Definition _git_checkout (tag : string) : M World unit :=
  subprocess_run ["git"; "checkout"; tag] true ;;; ret tt.

Definition metadata_file (version_tag : string) : string :=
  path_join ".snapshots" (version_tag ++ ".json").

Definition _save_snapshot_metadata (snapshot_info : gmap string pyval) : M World unit :=
  mkdir_exist_ok ".snapshots" ;;;
  version <- getitem snapshot_info "version" ;;
  write_file (metadata_file (py_str version)) (json_dump E snapshot_info).

Definition _load_snapshot_metadata (version_tag : string)
  : M World (option (gmap string pyval)) :=
  w <- get ;;
  if negb (path_exists (metadata_file version_tag) w) then ret None
  else
    c <- read_file (metadata_file version_tag) ;;
    match json_load E c with
    | Ok d => ret (Some d)
    | Raise e => raise e
    end.

(** [for f in files: if self.dvc.add(f): snapshot_info['dvc_files'].append(str(f))] *)
Fixpoint add_files (files : list string) : M (Frame (gmap string pyval)) unit :=
  match files with
  | [] => ret tt
  | f :: rest =>
      ok <- liftW (dvc_add f) ;;
      (if ok : bool then append_item "dvc_files" f else ret tt) ;;;
      add_files rest
  end.

(** [for d in dirs: if d.is_dir(): for f in d.glob(pattern): ...] *)
Fixpoint add_files_in_dirs (dirs : list string) (pattern : string)
  : M (Frame (gmap string pyval)) unit :=
  match dirs with
  | [] => ret tt
  | d :: rest =>
      w <- liftW get ;;
      (if path_is_dir d w then add_files (glob E w d pattern) else ret tt) ;;;
      add_files_in_dirs rest pattern
  end.

Definition create_snapshot_body (version_tag description : string)
    (include_data include_models : bool) : M (Frame (gmap string pyval)) unit :=
  (if include_data then
     w <- liftW get ;;
     add_files (glob E w (raw_data paths) "*.csv") ;;;
     w <- liftW get ;;
     add_files_in_dirs (glob E w (processed_data paths) "*") "*.csv"
   else ret tt) ;;;
  (if include_models then
     w <- liftW get ;;
     add_files_in_dirs (glob E w (trained_models paths) "*") "*.joblib"
   else ret tt) ;;;
  liftW (_git_commit version_tag description) ;;;
  result <- liftW (subprocess_run ["git"; "rev-parse"; "HEAD"] true) ;;
  set_item "git_commit" (VStr (strip (snd result))) ;;;
  liftW (_git_tag version_tag description) ;;;
  liftW dvc_push ;;;
  snapshot_info <- get_local ;;
  liftW (_save_snapshot_metadata snapshot_info).

(** [create_snapshot]: the [except] clause logs and re-raises. *)
Definition create_snapshot (version_tag description : string)
    (include_data include_models : bool) : M World (gmap string pyval) :=
  ts <- now_isoformat ;;
  let snapshot_info : gmap string pyval :=
    <["mlflow_run_id" := VNone]> (<["dvc_files" := VList []]> (<["git_commit" := VNone]>
    (<["description" := VStr description]> (<["timestamp" := VStr ts]>
    (<["version" := VStr version_tag]> ∅))))) in
  fun w =>
    match with_local snapshot_info
            (create_snapshot_body version_tag description include_data include_models) w with
    | (Ok _, info, w') => (Ok info, w')
    | (Raise e, _, w') => (Raise e, w')
    end.

Definition restore_snapshot (version_tag : string)
    (restore_data restore_models restore_code : bool) : M World bool :=
  emit (EvRestoreSnapshot version_tag restore_data restore_models restore_code) ;;;
  try_except
    (snapshot_info <- _load_snapshot_metadata version_tag ;;
     match snapshot_info with
     | Some d =>
         if dict_truthy d then
           getitem d "timestamp" ;;;
           getitem d "description" ;;;
           (if restore_code then _git_checkout version_tag else ret tt) ;;;
           (if restore_data || restore_models then
              dvc_pull ;;; dvc_checkout "." ;;; ret tt
            else ret tt) ;;;
           ret true
         else raise (ValueError ("Snapshot not found: " ++ version_tag))
     | None => raise (ValueError ("Snapshot not found: " ++ version_tag))
     end)
    (fun _ => ret false).

(** The loop of [list_snapshots] over the tags, appending to [snapshots]. *)
Fixpoint load_tags (tags : list string) : M (Frame (list (gmap string pyval))) unit :=
  match tags with
  | [] => ret tt
  | tag :: rest =>
      (if negb (String.eqb tag "") then
         snapshot_info <- liftW (_load_snapshot_metadata tag) ;;
         match snapshot_info with
         | Some d =>
             if dict_truthy d then
               l <- get_local ;; set_local (l ++ [d])%list
             else ret tt
         | None => ret tt
         end
       else ret tt) ;;;
      load_tags rest
  end.

Definition list_snapshots : M World (list (gmap string pyval)) :=
  fun w =>
    match with_local []
            (on_called_process_error
               (result <- liftW (subprocess_run ["git"; "tag"; "-l"] true) ;;
                load_tags (split "010"%char (strip (snd result))))
               tt) w with
    | (Ok _, snapshots, w') => (Ok snapshots, w')
    | (Raise e, _, w') => (Raise e, w')
    end.

(** ** RecoveryManager ([incident/recovery_manager.py]) *)

(** [v == s] for a string literal [s] *)
Definition py_eq_str (v : pyval) (s : string) : bool :=
  match v with
  | VStr s' => String.eqb s' s
  | _ => false
  end.

Definition _recover_data_corruption (incident : gmap string pyval)
  : M (Frame (gmap string pyval)) unit :=
  af <- getitem incident "affected_file" ;;
  affected_file <- Path_of af ;;
  backup_path <- Path_of (get_default incident "backup_path" (VStr "")) ;;
  w <- liftW get ;;
  (* Strategy 1: restore from backup *)
  if path_exists backup_path w then
    liftW (copy2 backup_path affected_file) ;;;
    append_item "actions_taken" "restored_from_backup" ;;;
    set_item "status" (VStr "success")
  else
    (* Strategy 2: restore from DVC *)
    ok <- liftW (dvc_checkout (affected_file ++ ".dvc")) ;;
    if ok : bool then
      append_item "actions_taken" "restored_from_dvc" ;;;
      set_item "status" (VStr "success")
    else
      (* Strategy 3: full system restore *)
      snapshots <- liftW list_snapshots ;;
      let all_failed :=
        set_item "status" (VStr "failed") ;;;
        set_item "error" (VStr "All recovery strategies failed") in
      match last snapshots with
      | Some latest_snapshot =>
          version <- getitem latest_snapshot "version" ;;
          restored <- liftW (restore_snapshot (py_str version) true false false) ;;
          if restored : bool then
            append_item "actions_taken" "full_data_restore" ;;;
            set_item "restored_version" version ;;;
            set_item "status" (VStr "success")
          else all_failed
      | None => all_failed
      end.

Definition _recover_model_degradation (incident : gmap string pyval)
  : M (Frame (gmap string pyval)) unit :=
  af <- getitem incident "affected_file" ;;
  affected_file <- Path_of af ;;
  backup_path <- Path_of (get_default incident "backup_path" (VStr "")) ;;
  w <- liftW get ;;
  (* Strategy 1: restore from backup *)
  if path_exists backup_path w then
    liftW (mkdir_exist_ok (path_parent affected_file)) ;;;
    liftW (copy2 backup_path affected_file) ;;;
    append_item "actions_taken" "restored_from_backup" ;;;
    set_item "status" (VStr "success")
  else
    (* Strategy 2: restore from DVC *)
    let dvc_file := affected_file ++ ".dvc" in
    ok <- (if path_exists (Path dvc_file) w then liftW (dvc_checkout dvc_file)
           else ret false) ;;
    if ok : bool then
      append_item "actions_taken" "restored_from_dvc" ;;;
      set_item "status" (VStr "success")
    else
      (* Strategy 3 (MLflow model registry) is a comment in the source *)
      set_item "status" (VStr "failed") ;;;
      set_item "error" (VStr "All recovery strategies failed").

Definition _recover_pipeline_failure (incident : gmap string pyval)
  : M (Frame (gmap string pyval)) unit :=
  marker_file <- Path_of (get_default incident "marker_file" (VStr "")) ;;
  w <- liftW get ;;
  (if path_exists marker_file w then liftW (unlink marker_file) else ret tt) ;;;
  append_item "actions_taken" "cleared_failure_markers" ;;;
  set_item "status" (VStr "success") ;;;
  set_item "note" (VStr "Pipeline can be restarted").

(** The [if]/[elif] chain on the incident's type. *)
Definition recover_dispatch (incident : gmap string pyval)
  : M (Frame (gmap string pyval)) unit :=
  let incident_type := get_default incident "type" VNone in
  if py_eq_str incident_type "data_corruption" then
    _recover_data_corruption incident
  else if py_eq_str incident_type "model_degradation" then
    _recover_model_degradation incident
  else if py_eq_str incident_type "pipeline_failure" then
    _recover_pipeline_failure incident
  else set_item "status" (VStr "unknown_incident_type").

(** The [try] block of [recover_from_incident]. *)
Definition recover_body (incident : gmap string pyval)
  : M (Frame (gmap string pyval)) unit :=
  recover_dispatch incident ;;;
  ts <- liftW now_isoformat ;;
  set_item "end_time" (VStr ts) ;;;
  recovery_result <- get_local ;;
  getitem recovery_result "status" ;;;
  ret tt.

Definition recover_handler (e : exn) : M (Frame (gmap string pyval)) unit :=
  set_item "status" (VStr "failed") ;;;
  set_item "error" (VStr (str_exn e)) ;;;
  ts <- liftW now_isoformat ;;
  set_item "end_time" (VStr ts).

Definition recover_from_incident (incident : gmap string pyval)
    (target_version : option string) : M World (gmap string pyval) :=
  ts <- now_isoformat ;;
  let recovery_result : gmap string pyval :=
    <["actions_taken" := VList []]> (<["status" := VStr "in_progress"]>
    (<["start_time" := VStr ts]> (<["incident" := VDict incident]> ∅))) in
  fun w =>
    match with_local recovery_result
            (try_except (recover_body incident) recover_handler) w with
    | (Ok _, result, w') => (Ok result, w')
    | (Raise e, _, w') => (Raise e, w')
    end.

(** ** IncidentGenerator ([incident/incident_generator.py]) *)

(** The object's one mutable field. Methods run on a frame whose local
    object is [self]. *)
Record IncidentGenerator : Type := mkIncidentGenerator {
  incident_log : list (gmap string pyval)
}.

(** [IncidentGenerator()] *)
Definition new_generator : IncidentGenerator := mkIncidentGenerator [].

(** [self.incident_log.append(incident)] *)
Definition log_append (g : IncidentGenerator) (incident : gmap string pyval)
  : IncidentGenerator :=
  mkIncidentGenerator (incident_log g ++ [incident])%list.

Definition lift_res {S A} (r : res A) : M S A :=
  match r with
  | Ok a => ret a
  | Raise e => raise e
  end.

Definition shape_val (sh : nat * nat) : pyval := VShape (fst sh) (snd sh).

(** The [try] block of [simulate_data_corruption] up to the append. *)
Definition data_corruption_body (file_path corruption_type : string)
  : M (Frame (gmap string pyval)) unit :=
  backup_path <- lift_res (with_backup_suffix file_path) ;;
  liftW (copy2 file_path backup_path) ;;;
  set_item "backup_path" (VStr backup_path) ;;;
  c <- liftW (read_file file_path) ;;
  df <- lift_res (read_csv E c) ;;
  let original_shape := shape E df in
  w <- liftW get ;;
  let df' :=
    if String.eqb corruption_type "random" then corrupt_random E w df
    else if String.eqb corruption_type "missing" then corrupt_missing E w df
    else if String.eqb corruption_type "duplicate" then corrupt_duplicate E w df
    else df in
  liftW (write_file file_path (to_csv E df')) ;;;
  set_item "corrupted_shape" (shape_val (shape E df')) ;;;
  set_item "original_shape" (shape_val original_shape) ;;;
  set_item "status" (VStr "active").

(** Runs the [try] block of a simulation on its [incident]: on success the
    incident is appended to the log (the last statement of the block) and
    returned; on an exception it is marked failed and returned. *)
Definition simulate_with (incident : gmap string pyval)
    (body : M (Frame (gmap string pyval)) unit)
  : M (Frame IncidentGenerator) (gmap string pyval) :=
  fun g =>
    match with_local incident body (fr_world g) with
    | (Ok _, incident', w') =>
        (Ok incident', mkFrame w' (log_append (fr_local g) incident'))
    | (Raise e, incident', w') =>
        (Ok (<["error" := VStr (str_exn e)]> (<["status" := VStr "failed"]> incident')),
         mkFrame w' (fr_local g))
    end.

Definition simulate_data_corruption (file_path corruption_type : string)
  : M (Frame IncidentGenerator) (gmap string pyval) :=
  ts <- liftW now_isoformat ;;
  let incident : gmap string pyval :=
    <["status" := VStr "created"]> (<["affected_file" := VStr file_path]>
    (<["timestamp" := VStr ts]> (<["subtype" := VStr corruption_type]>
    (<["type" := VStr "data_corruption"]> ∅)))) in
  simulate_with incident (data_corruption_body file_path corruption_type).

(** [b'CORRUPTED_DATA' * n] *)
Fixpoint repeat_string (s : string) (n : nat) : string :=
  match n with
  | O => ""
  | S n' => s ++ repeat_string s n'
  end.

Definition model_degradation_body (model_path degradation_type : string)
  : M (Frame (gmap string pyval)) unit :=
  w <- liftW get ;;
  (if negb (path_exists model_path w)
   then raise (FileNotFoundMessage ("Model not found: " ++ model_path))
   else ret tt) ;;;
  backup_path <- lift_res (with_backup_suffix model_path) ;;
  liftW (copy2 model_path backup_path) ;;;
  set_item "backup_path" (VStr backup_path) ;;;
  (if String.eqb degradation_type "delete" then liftW (unlink model_path)
   else if String.eqb degradation_type "corrupt" then
     liftW (write_file model_path (repeat_string "CORRUPTED_DATA" 1000))
   else ret tt) ;;;
  set_item "status" (VStr "active").

Definition simulate_model_degradation (model_path degradation_type : string)
  : M (Frame IncidentGenerator) (gmap string pyval) :=
  ts <- liftW now_isoformat ;;
  let incident : gmap string pyval :=
    <["status" := VStr "created"]> (<["affected_file" := VStr model_path]>
    (<["timestamp" := VStr ts]> (<["subtype" := VStr degradation_type]>
    (<["type" := VStr "model_degradation"]> ∅)))) in
  simulate_with incident (model_degradation_body model_path degradation_type).

(** No [try] here: an exception of the marker file's creation propagates. *)
Definition simulate_pipeline_failure (failure_point : string)
  : M (Frame IncidentGenerator) (gmap string pyval) :=
  ts <- liftW now_isoformat ;;
  let incident : gmap string pyval :=
    <["status" := VStr "active"]> (<["timestamp" := VStr ts]>
    (<["subtype" := VStr failure_point]> (<["type" := VStr "pipeline_failure"]> ∅))) in
  let marker_file :=
    path_join ".incident_markers" ("pipeline_failure_" ++ failure_point ++ ".marker") in
  liftW (mkdir_exist_ok (path_parent marker_file)) ;;;
  liftW (write_file marker_file
           ("Pipeline failure at: " ++ failure_point ++ String "010" ""
            ++ "Timestamp: " ++ ts ++ String "010" "")) ;;;
  let incident := <["marker_file" := VStr marker_file]> incident in
  g <- get_local ;;
  set_local (log_append g incident) ;;;
  ret incident.







End Program.

(** ** The training pipeline ([scripts/train_pipeline.py])

    [main] is a straight line of calls into the loader, the model, the
    trainer, the evaluator, the tracker and DVC. The data passed between
    them is opaque here; what is modelled is which call is made when, and
    that each of them may raise. *)
Module Pipeline.

Inductive call : Type :=
  | Setup                         (* config.get_paths(), DataLoader(), MLflowTracker(), DVCManager() *)
  | StartRun                      (* mlflow_tracker.start_run(...) *)
  | LoadCsv (file : string)       (* loader.load_csv(processed_dir / file, validate=False) *)
  | LogParams (what : string)     (* mlflow_tracker.log_params(...) *)
  | InitModel                     (* RandomForestModel with model_params *)
  | Train                         (* trainer.train(X_train, y_train) *)
  | CrossValidate                 (* trainer.cross_validate(..., cv=5) *)
  | LogMetrics (what : string)    (* mlflow_tracker.log_metrics(...) *)
  | Evaluate                      (* evaluator.evaluate(X_test, y_test) *)
  | ClassificationReport          (* evaluator.get_classification_report(...) *)
  | BusinessMetrics               (* evaluator.calculate_business_metrics(...) *)
  | ComparePredictions            (* evaluator.compare_predictions(...) *)
  | SaveModel                     (* trainer.save_model(version=...) *)
  | LogModel                      (* mlflow_tracker.log_model(...) *)
  | DvcAdd                        (* dvc.add(model_path) *)
  | GetRunInfo                    (* mlflow_tracker.get_run_info() *)
  | Summary                       (* the closing log lines, which index run_info and the metrics *)
  | EndRun (status : string).     (* mlflow_tracker.end_run(status=...) *)

(** Whether a call raises, given the calls made before it. *)
Definition oracle : Type := list call -> call -> option exn.

Section Main.

Variable raises : oracle.






End Main.







Definition never_fails : oracle := fun _ _ => None.

End Pipeline.

(** ** Concrete environments

    A small environment to run the program in: child processes answer from
    a table (exit status 0 and empty output by default) and leave the file
    system alone, directory listings come from a table, a CSV file parses to
    its own text, and a metadata file holding a version and a timestamp
    decodes to the snapshot record of that version. *)
Module Demo.

Definition table_exec (tbl : list (list string * proc_outcome))
    (cmd : list string) (w : World) : proc_outcome * gmap string node :=
  (match list_find (fun e => bool_decide (fst e = cmd)) tbl with
   | Some (_, (_, o)) => o
   | None => Exited 0 ""
   end, fs w).

Definition table_glob (tbl : list (string * string * list string))
    (w : World) (dir pattern : string) : list string :=
  match list_find (fun e => bool_decide (fst e = (dir, pattern))) tbl with
  | Some (_, (_, l)) => l
  | None => []
  end.

Fixpoint stamp (n : nat) : string :=
  match n with
  | O => "T"
  | S n' => stamp n' ++ "'"
  end.

(** A metadata file reads [<version> <timestamp>]. *)
Definition decode (c : string) : res (gmap string pyval) :=
  match split " "%char c with
  | [version; timestamp] =>
      if String.eqb version "" then Raise (JSONDecodeError "Expecting value")
      else Ok (<["version" := VStr version]> (<["timestamp" := VStr timestamp]>
              (<["description" := VStr "demo"]> ∅)))
  | _ => Raise (JSONDecodeError "Expecting value")
  end.

Definition env (procs : list (list string * proc_outcome))
    (globs : list (string * string * list string)) : Env :=
  {| exec := table_exec procs;
     isoformat := stamp;
     json_load := decode;
     json_dump := fun d => py_str (default VNone (d !! "version")) ++ " "
                           ++ py_str (default VNone (d !! "timestamp"));
     glob := table_glob globs;
     DataFrame := string;
     read_csv := fun c => Ok c;
     to_csv := fun df => df;
     shape := fun df => (String.length df, 1%nat);
     corrupt_random := fun _ df => "noise," ++ df;
     corrupt_missing := fun _ df => "nan," ++ df;
     corrupt_duplicate := fun _ df => df ++ df;
     random_index := fun _ _ => 0%nat |}.

Definition quiet : Env := env [] [].

Definition paths : PathConfig :=
  mkPathConfig "data/raw" "data/processed" "models/trained".


(** A project with one raw data file. *)
Definition world0 : World :=
  mkWorld (<["data.csv" := File "id,churn"]> ∅) 0 [].

(** The same project with one snapshot, [v2], on record. *)
Definition world_snap : World :=
  mkWorld (<[".snapshots/v2.json" := File "v2 2026-01-02"]>
           (<["data.csv" := File "id,churn"]> ∅)) 0 [].

(** [dvc checkout] of the data file fails; git lists the tags v1 and v2. *)
Definition env_no_dvc : Env :=
  env [(["dvc"; "checkout"; "data.csv.dvc"], Exited 1 "");
       (["git"; "tag"; "-l"], Exited 0 ("v1" ++ String "010" "v2" ++ String "010" ""))]
      [].

(** A project whose marker directory exists. *)
Definition world_markers : World :=
  mkWorld (<[".incident_markers" := Dir]> ∅) 0 [].

(** The data file, with a directory where its backup would go. *)
Definition world_backup_dir : World :=
  mkWorld (<["data.csv.backup" := Dir]> (<["data.csv" := File "id,churn"]> ∅)) 0 [].

(** The DVC remote is down: pull and checkout exit with status 1. *)
Definition env_dvc_down : Env :=
  env [(["dvc"; "pull"], Exited 1 ""); (["dvc"; "checkout"; "."], Exited 1 "")] [].

(** Two snapshots: [v9] was taken first, [v10] a month later. *)
Definition world_two_snaps : World :=
  mkWorld (<[".snapshots/v10.json" := File "v10 2026-02-01"]>
           (<[".snapshots/v9.json" := File "v9 2026-01-01"]>
           (<["data.csv" := File "id,churn"]> ∅))) 0 [].

(** [dvc checkout] of the data file fails; [git tag -l] prints the tags in
    its default, lexicographic order. *)
Definition env_two_snaps : Env :=
  env [(["dvc"; "checkout"; "data.csv.dvc"], Exited 1 "");
       (["git"; "tag"; "-l"], Exited 0 ("v10" ++ String "010" "v9" ++ String "010" ""))]
      [].

(** An incident whose backup file is gone. *)
Definition incident_no_backup (type : string) : gmap string pyval :=
  <["type" := VStr type]> (<["affected_file" := VStr "data.csv"]>
  (<["backup_path" := VStr "data.csv.backup"]>
  (<["status" := VStr "active"]> ∅))).

End Demo.

(** * More of the version-control layer *)

(** ** DVCManager.status and DVCManager.get_tracked_files
    ([versioning/dvc_manager.py]) *)

(** [status]: the decoded output of [dvc status --json], [{}] when the
    output is empty or the command exits with a non-zero status. *)
Definition dvc_status (E : Env) : M World (gmap string pyval) :=
  on_called_process_error
    (result <- subprocess_run E ["dvc"; "status"; "--json"] true ;;
     if String.eqb (snd result) "" then ret ∅
     else lift_res (json_load E (snd result)))
    ∅.

(** [get_tracked_files]: the command runs unchecked. *)
Definition get_tracked_files (E : Env) : M World (list string) :=
  on_called_process_error
    (result <- subprocess_run E ["dvc"; "list"; "."; "--dvc-only"] false ;;
     let files := if String.eqb (snd result) "" then []
                  else split "010"%char (strip (snd result)) in
     ret (List.filter (fun f => negb (String.eqb f "")) files))
    [].

(** ** VersionController.get_current_version
    ([versioning/version_controller.py]) *)

Definition get_current_version_body (E : Env) : M (Frame (gmap string pyval)) unit :=
  result <- liftW (subprocess_run E ["git"; "rev-parse"; "HEAD"] true) ;;
  set_item "git_commit" (VStr (strip (snd result))) ;;;
  result <- liftW (subprocess_run E ["git"; "rev-parse"; "--abbrev-ref"; "HEAD"] true) ;;
  set_item "git_branch" (VStr (strip (snd result))) ;;;
  result <- liftW (subprocess_run E ["git"; "describe"; "--tags"; "--abbrev=0"] false) ;;
  set_item "latest_tag"
    (VStr (if (fst result =? 0)%Z then strip (snd result) else "N/A")) ;;;
  status <- liftW (dvc_status E) ;;
  set_item "dvc_status" (VStr (if negb (dict_truthy status) then "clean" else "modified")).

(** [get_current_version]: the [except Exception] clause logs, and what has
    been collected so far is returned. *)
Definition get_current_version (E : Env) : M World (gmap string pyval) :=
  fun w =>
    match with_local ∅ (try_except (get_current_version_body E) (fun _ => ret tt)) w with
    | (Ok _, version_info, w') => (Ok version_info, w')
    | (Raise e, _, w') => (Raise e, w')
    end.

(** * Configuration ([utils/config.py]) *)

(** The loop of [ConfigManager.get] over the parts of the key: a part that
    is missing, holds [None], or is looked up in something that is not a
    dictionary, gives the default. *)
Fixpoint get_loop (keys : list string) (value default : pyval) : pyval :=
  match keys with
  | [] => value
  | k :: rest =>
      match value with
      | VDict d =>
          match d !! k with
          | None | Some VNone => default
          | Some v => get_loop rest v default
          end
      | _ => default
      end
  end.

(** [ConfigManager.get(key, default)] on the loaded configuration *)
Definition config_get (config : pyval) (key : string) (default : pyval) : pyval :=
  get_loop (split "."%char key) config default.

(** * Properties *)

(** ** Reasoning about the monad *)

Lemma bind_ok {S A B} (m : M S A) (k : A -> M S B) s a s' :
  m s = (Ok a, s') -> bind m k s = k a s'.
Proof. intros H. unfold bind. now rewrite H. Qed.

Lemma bind_raise {S A B} (m : M S A) (k : A -> M S B) s e s' :
  m s = (Raise e, s') -> bind m k s = (Raise e, s').
Proof. intros H. unfold bind. now rewrite H. Qed.

Lemma bind_inv_ok {S A B} (m : M S A) (k : A -> M S B) s b s2 :
  bind m k s = (Ok b, s2) -> exists a s1, m s = (Ok a, s1) /\ k a s1 = (Ok b, s2).
Proof.
  unfold bind. destruct (m s) as [[a|e] s1]; intros H.
  - eauto.
  - discriminate.
Qed.

Lemma bind_inv_raise {S A B} (m : M S A) (k : A -> M S B) s e s2 :
  bind m k s = (Raise e, s2) ->
  m s = (Raise e, s2) \/ exists a s1, m s = (Ok a, s1) /\ k a s1 = (Raise e, s2).
Proof.
  unfold bind. destruct (m s) as [[a|e'] s1]; intros H.
  - right. eauto.
  - left. inversion H. reflexivity.
Qed.

(** Lookups in a dictionary built by insertions. *)
Ltac map_lookups :=
  repeat split;
  repeat first [ rewrite lookup_insert_eq
               | rewrite lookup_insert_ne by (discriminate || congruence) ];
  eauto.

(** A property of the local object that a body maintains, whether it
    returns or raises. *)
Definition keeps {L A} (P : L -> Prop) (m : M (Frame L) A) : Prop :=
  forall f r f', m f = (r, f') -> P (fr_local f) -> P (fr_local f').

Lemma keeps_ret {L A} (P : L -> Prop) (a : A) : keeps P (ret a).
Proof. intros f r f' H. inversion H. auto. Qed.

Lemma keeps_raise {L A} (P : L -> Prop) e : keeps P (@raise _ A e).
Proof. intros f r f' H. inversion H. auto. Qed.

Lemma keeps_bind {L A B} (P : L -> Prop) (m : M (Frame L) A) (k : A -> M (Frame L) B) :
  keeps P m -> (forall a, keeps P (k a)) -> keeps P (bind m k).
Proof.
  intros Hm Hk f r f' H HP. unfold bind in H.
  destruct (m f) as [[a|e] f1] eqn:Em.
  - eapply Hk; eauto.
  - inversion H; subst. eapply Hm; eauto.
Qed.

Lemma keeps_liftW {L A} (P : L -> Prop) (m : M World A) : keeps P (liftW m).
Proof.
  intros f r f' H HP. unfold liftW in H.
  destruct (m (fr_world f)) as [r0 w0]. inversion H; subst. exact HP.
Qed.

Lemma keeps_get_local {L} (P : L -> Prop) : keeps P get_local.
Proof. intros f r f' H. inversion H. auto. Qed.

Lemma keeps_getitem {L} (P : L -> Prop) d k : keeps P (@getitem (Frame L) d k).
Proof.
  unfold getitem. destruct (d !! k); [apply keeps_ret | apply keeps_raise].
Qed.

Lemma keeps_Path_of {L} (P : L -> Prop) v : keeps P (@Path_of (Frame L) v).
Proof. destruct v; simpl; first [apply keeps_ret | apply keeps_raise]. Qed.

Lemma keeps_try_except {L A} (P : L -> Prop) (m : M (Frame L) A) h :
  keeps P m -> (forall e, keeps P (h e)) -> keeps P (try_except m h).
Proof.
  intros Hm Hh f r f' H HP. unfold try_except in H.
  destruct (m f) as [[a|e] f1] eqn:Em.
  - inversion H; subst. eapply Hm; eauto.
  - eapply Hh; eauto.
Qed.

(** ** RecoveryManager.recover_from_incident *)

Section Recovery.

Variable E : Env.

(** The world after one reading of the clock. *)
Definition tick (w : World) : World := mkWorld (fs w) (S (clock w)) (trace w).

(** The recovery result as [recover_from_incident] first builds it. *)
Definition initial_result (incident : gmap string pyval) (w : World) : gmap string pyval :=
  <["actions_taken" := VList []]> (<["status" := VStr "in_progress"]>
  (<["start_time" := VStr (isoformat E (clock w))]> (<["incident" := VDict incident]> ∅))).

(** What every stage of a recovery leaves in the result. *)
Definition result_wf (incident : gmap string pyval) (start : string)
    (d : gmap string pyval) : Prop :=
  d !! "incident" = Some (VDict incident) /\
  d !! "start_time" = Some (VStr start) /\
  (exists s, d !! "status" = Some (VStr s)) /\
  (exists l, d !! "actions_taken" = Some (VList l)).

Lemma initial_result_wf incident w :
  result_wf incident (isoformat E (clock w)) (initial_result incident w).
Proof.
  unfold result_wf, initial_result. repeat split; eauto.
Qed.

Lemma keeps_set_status incident start s :
  keeps (result_wf incident start) (set_item "status" (VStr s)).
Proof.
  intros f r f' H (Hi & Hs & Hst & Ha). inversion H; subst; simpl.
  unfold result_wf. map_lookups.
Qed.

Lemma keeps_set_other incident start k v :
  k ≠ "incident" -> k ≠ "start_time" -> k ≠ "status" -> k ≠ "actions_taken" ->
  keeps (result_wf incident start) (set_item k v).
Proof.
  intros N1 N2 N3 N4 f r f' H (Hi & Hs & Hst & Ha). inversion H; subst; simpl.
  unfold result_wf. map_lookups.
Qed.

Lemma keeps_append_action incident start x :
  keeps (result_wf incident start) (append_item "actions_taken" x).
Proof.
  intros f r f' H (Hi & Hs & Hst & Ha). unfold append_item in H.
  destruct Ha as [l Ha]. rewrite Ha in H. inversion H; subst; simpl.
  unfold result_wf. map_lookups.
Qed.

Ltac keeps_step :=
  lazymatch goal with
  | |- keeps _ (bind _ _) => apply keeps_bind; [| intros ?]
  | |- keeps _ (liftW _) => apply keeps_liftW
  | |- keeps _ (ret _) => apply keeps_ret
  | |- keeps _ (raise _) => apply keeps_raise
  | |- keeps _ get_local => apply keeps_get_local
  | |- keeps _ (getitem _ _) => apply keeps_getitem
  | |- keeps _ (Path_of _) => apply keeps_Path_of
  | |- keeps _ (set_item "status" (VStr _)) => apply keeps_set_status
  | |- keeps _ (set_item _ _) => apply keeps_set_other; discriminate
  | |- keeps _ (append_item "actions_taken" _) => apply keeps_append_action
  | |- keeps _ (if ?b then _ else _) => destruct b
  | |- keeps _ (match ?x with _ => _ end) => destruct x
  end.

Lemma keeps_recover_data_corruption incident start :
  keeps (result_wf incident start) (_recover_data_corruption E incident).
Proof. unfold _recover_data_corruption. repeat keeps_step. Qed.

Lemma keeps_recover_model_degradation incident start :
  keeps (result_wf incident start) (_recover_model_degradation E incident).
Proof. unfold _recover_model_degradation. repeat keeps_step. Qed.

Lemma keeps_recover_pipeline_failure incident start :
  keeps (result_wf incident start) (_recover_pipeline_failure incident).
Proof. unfold _recover_pipeline_failure. repeat keeps_step. Qed.

Lemma keeps_recover_body incident start :
  keeps (result_wf incident start) (recover_body E incident).
Proof.
  unfold recover_body, recover_dispatch.
  apply keeps_bind.
  - destruct (py_eq_str _ "data_corruption");
      [apply keeps_recover_data_corruption|].
    destruct (py_eq_str _ "model_degradation");
      [apply keeps_recover_model_degradation|].
    destruct (py_eq_str _ "pipeline_failure");
      [apply keeps_recover_pipeline_failure|].
    apply keeps_set_status.
  - intros _. repeat keeps_step.
Qed.

Lemma keeps_recover_handler incident start e :
  keeps (result_wf incident start) (recover_handler E e).
Proof. unfold recover_handler. repeat keeps_step. Qed.

(** [recover_from_incident] in terms of the outcome of its [try] block. *)
Lemma recover_from_incident_unfold incident tv w :
  recover_from_incident E incident tv w =
  match recover_body E incident (mkFrame (tick w) (initial_result incident w)) with
  | (Ok _, f) => (Ok (fr_local f), fr_world f)
  | (Raise e, f) =>
      (Ok (<["end_time" := VStr (isoformat E (clock (fr_world f)))]>
           (<["error" := VStr (str_exn e)]> (<["status" := VStr "failed"]> (fr_local f)))),
       tick (fr_world f))
  end.
Proof.
  unfold recover_from_incident, bind, now_isoformat, with_local, try_except.
  fold (tick w). fold (initial_result incident w).
  destruct (recover_body E incident _) as [[u|e] f]; [reflexivity|].
  destruct f as [w' d]. reflexivity.
Qed.


(** A [try] block that returns has set ['end_time']. *)
Lemma recover_body_end_time incident f u f' :
  recover_body E incident f = (Ok u, f') ->
  exists t, fr_local f' !! "end_time" = Some (VStr t).
Proof.
  unfold recover_body. intros H.
  apply bind_inv_ok in H as (u1 & f1 & _ & H).
  apply bind_inv_ok in H as (ts & f2 & _ & H).
  apply bind_inv_ok in H as (u2 & f3 & H3 & H).
  apply bind_inv_ok in H as (rr & f4 & H4 & H).
  apply bind_inv_ok in H as (st & f5 & H5 & H).
  inversion H; subst. inversion H4; subst.
  unfold getitem in H5. destruct (_ !! "status"); inversion H5; subst.
  inversion H3; subst; simpl. rewrite lookup_insert_eq. eauto.
Qed.

End Recovery.

(** Whether [recover_from_incident] has a branch for the incident's type. *)
Definition handled_type (incident : gmap string pyval) : bool :=
  let incident_type := get_default incident "type" VNone in
  py_eq_str incident_type "data_corruption"
  || py_eq_str incident_type "model_degradation"
  || py_eq_str incident_type "pipeline_failure".


Lemma recover_body_unknown (E : Env) incident w d :
  handled_type incident = false ->
  recover_body E incident (mkFrame w d) =
  (Ok tt, mkFrame (tick w)
            (<["end_time" := VStr (isoformat E (clock w))]>
             (<["status" := VStr "unknown_incident_type"]> d))).
Proof.
  unfold handled_type, recover_body, recover_dispatch. intros Hu.
  apply orb_false_iff in Hu as [Hu H3]. apply orb_false_iff in Hu as [H1 H2].
  rewrite H1, H2, H3.
  unfold bind, set_item, liftW, now_isoformat, get_local, getitem, ret; simpl.
  rewrite lookup_insert_ne by discriminate. rewrite lookup_insert_eq.
  reflexivity.
Qed.

(** C4. For every incident dictionary, whatever its ['type'],
    [recover_from_incident] returns a recovery result and propagates no
    exception. The result records the incident, a start time, an end time,
    a status and the list [actions_taken]. When the [try] block raises, the
    status is ['failed'] and the message of the exception is under
    ['error']. When the type is none of the three handled kinds, the status
    is ['unknown_incident_type'] and [actions_taken] is empty. *)
Theorem recover_from_incident_total (E : Env) (incident : gmap string pyval)
    (target_version : option string) (w : World) :
  exists result w',
    recover_from_incident E incident target_version w = (Ok result, w') /\
    result !! "incident" = Some (VDict incident) /\
    result !! "start_time" = Some (VStr (isoformat E (clock w))) /\
    (exists t, result !! "end_time" = Some (VStr t)) /\
    (exists s, result !! "status" = Some (VStr s)) /\
    (exists l, result !! "actions_taken" = Some (VList l)) /\
    (forall e f,
        recover_body E incident (mkFrame (tick w) (initial_result E incident w))
          = (Raise e, f) ->
        result !! "status" = Some (VStr "failed") /\
        result !! "error" = Some (VStr (str_exn e))) /\
    (handled_type incident = false ->
        result !! "status" = Some (VStr "unknown_incident_type") /\
        result !! "actions_taken" = Some (VList [])).
Proof.
  rewrite recover_from_incident_unfold.
  pose proof (keeps_recover_body E incident (isoformat E (clock w))) as Hk.
  pose proof (initial_result_wf E incident w) as Hwf.
  destruct (recover_body E incident _) as [[u|e] f] eqn:Hb.
  - specialize (Hk _ _ _ Hb Hwf) as (Hi & Hs & Hst & Ha).
    destruct (recover_body_end_time E _ _ _ _ Hb) as [t Ht].
    eexists _, _. split; [reflexivity|].
    repeat (split; [solve [eauto]|]).
    split; [intros e f' He; discriminate|].
    intros Hu. rewrite (recover_body_unknown E _ _ _ Hu) in Hb.
    inversion Hb; subst; simpl. unfold initial_result. map_lookups.
  - specialize (Hk _ _ _ Hb Hwf) as (Hi & Hs & Hst & Ha).
    eexists _, _. split; [reflexivity|].
    assert (handled_type incident = true) as Hh.
    { destruct (handled_type incident) eqn:Hu; [reflexivity|].
      rewrite (recover_body_unknown E _ _ _ Hu) in Hb. discriminate. }
    rewrite Hh.
    do 5 (split; [solve [map_lookups]|]).
    split; [|discriminate].
    intros e' f' He. inversion He; subst. map_lookups.
Qed.

(** ** Reasoning about the trace *)

(** States that carry the world's trace. *)
Class Traced (S : Type) : Type := trace_of : S -> list event.
#[export] Instance traced_world : Traced World := trace.
#[export] Instance traced_frame {L} : Traced (Frame L) := fun f => trace (fr_world f).

(** [emits P m]: whatever [m] does and however it ends, it only appends to
    the trace, and every event it appends satisfies [P]. *)
Definition emits {S A} `{Traced S} (P : event -> Prop) (m : M S A) : Prop :=
  forall s r s', m s = (r, s') ->
    exists evs, trace_of s' = (trace_of s ++ evs)%list /\ Forall P evs.

Section Emits.

Context {S : Type} `{Traced S}.
Variable P : event -> Prop.

Lemma emits_ret {A} (a : A) : emits P (ret a : M S A).
Proof. intros s r s' Hm. inversion Hm; subst. exists []. now rewrite app_nil_r. Qed.

Lemma emits_raise {A} e : emits P (raise e : M S A).
Proof. intros s r s' Hm. inversion Hm; subst. exists []. now rewrite app_nil_r. Qed.

Lemma emits_get : emits P (get : M S S).
Proof. intros s r s' Hm. inversion Hm; subst. exists []. now rewrite app_nil_r. Qed.

Lemma emits_bind {A B} (m : M S A) (k : A -> M S B) :
  emits P m -> (forall a, emits P (k a)) -> emits P (bind m k).
Proof.
  intros Hm Hk s r s' Hb. unfold bind in Hb.
  destruct (m s) as [[a|e] s1] eqn:Em.
  - destruct (Hm _ _ _ Em) as (e1 & T1 & F1).
    destruct (Hk a _ _ _ Hb) as (e2 & T2 & F2).
    exists (e1 ++ e2)%list. rewrite T2, T1, app_assoc. split; [reflexivity|].
    apply Forall_app; auto.
  - inversion Hb; subst. eapply Hm; eauto.
Qed.

Lemma emits_try_except {A} (m : M S A) h :
  emits P m -> (forall e, emits P (h e)) -> emits P (try_except m h).
Proof.
  intros Hm Hh s r s' Hb. unfold try_except in Hb.
  destruct (m s) as [[a|e] s1] eqn:Em.
  - inversion Hb; subst. eapply Hm; eauto.
  - destruct (Hm _ _ _ Em) as (e1 & T1 & F1).
    destruct (Hh e _ _ _ Hb) as (e2 & T2 & F2).
    exists (e1 ++ e2)%list. rewrite T2, T1, app_assoc. split; [reflexivity|].
    apply Forall_app; auto.
Qed.

Lemma emits_getitem d k : emits P (getitem d k : M S pyval).
Proof. unfold getitem. destruct (d !! k); [apply emits_ret | apply emits_raise]. Qed.



End Emits.

Section EmitsWorld.

Variable E : Env.
Variable P : event -> Prop.

Lemma emits_liftW {L A} (m : M World A) : emits P m -> emits P (liftW m : M (Frame L) A).
Proof.
  intros Hm f r f' Hl. unfold liftW in Hl.
  destruct (m (fr_world f)) as [r0 w0] eqn:Em. inversion Hl; subst.
  exact (Hm _ _ _ Em).
Qed.

Lemma emits_local {L} : emits P (get_local : M (Frame L) L).
Proof. intros s r s' Hm. inversion Hm; subst. exists []. now rewrite app_nil_r. Qed.

Lemma emits_set_local {L} (l : L) : emits P (set_local l).
Proof. intros s r s' Hm. inversion Hm; subst. exists []. now rewrite app_nil_r. Qed.



Lemma emits_emit ev : P ev -> emits P (emit ev).
Proof. intros Hp w r w' Hm. inversion Hm; subst. exists [ev]. split; [reflexivity|]. auto. Qed.

Lemma emits_set_fs f : emits P (set_fs f).
Proof. intros w r w' Hm. inversion Hm; subst. exists []. now rewrite app_nil_r. Qed.


Lemma emits_read_file p : emits P (read_file p).
Proof.
  intros w r w' Hm. unfold read_file in Hm.
  destruct (lookup_node p w) as [[]|]; inversion Hm; subst;
    exists []; now rewrite app_nil_r.
Qed.

Ltac emits_prim :=
  repeat first
    [ apply emits_bind; [| intros ?]
    | apply emits_emit; assumption
    | apply emits_get | apply emits_set_fs | apply emits_ret | apply emits_raise
    | apply emits_read_file
    | match goal with
      | |- emits _ (match ?x with _ => _ end) => destruct x
      | |- emits _ (if ?b then _ else _) => destruct b
      | |- emits _ (let '(_, _) := ?x in _) => destruct x
      end ].





Lemma emits_subprocess_run cmd check :
  (forall o, P (EvRun cmd o)) -> emits P (subprocess_run E cmd check).
Proof.
  intros Hp. unfold subprocess_run.
  apply emits_bind; [apply emits_get | intros w].
  destruct (exec E cmd w) as [o f].
  apply emits_bind; [apply emits_emit, Hp | intros _].
  emits_prim.
Qed.

Lemma emits_on_cpe {A} (m : M World A) a :
  emits P m -> emits P (on_called_process_error m a).
Proof.
  intros Hm. unfold on_called_process_error. apply emits_try_except; [exact Hm|].
  intros e. destruct (is_CalledProcessError e); [apply emits_ret | apply emits_raise].
Qed.

End EmitsWorld.

(** ** The trace of the version-control operations *)

Section EmitsVersioning.

Variable E : Env.
Variable P : event -> Prop.

Lemma emits_dvc_checkout target :
  (forall o, P (EvRun ["dvc"; "checkout"; target] o)) -> emits P (dvc_checkout E target).
Proof.
  intros Hp. unfold dvc_checkout. apply emits_on_cpe.
  apply emits_bind; [now apply emits_subprocess_run | intros; apply emits_ret].
Qed.

Lemma emits_dvc_pull :
  (forall o, P (EvRun ["dvc"; "pull"] o)) -> emits P (dvc_pull E).
Proof.
  intros Hp. unfold dvc_pull. apply emits_on_cpe.
  apply emits_bind; [now apply emits_subprocess_run | intros; apply emits_ret].
Qed.

Lemma emits_load_snapshot_metadata tag : emits P (_load_snapshot_metadata E tag).
Proof.
  unfold _load_snapshot_metadata.
  apply emits_bind; [apply emits_get | intros w].
  destruct (negb _); [apply emits_ret|].
  apply emits_bind; [apply emits_read_file | intros c].
  destruct (json_load E c); [apply emits_ret | apply emits_raise].
Qed.

Lemma emits_load_tags tags : emits P (load_tags E tags).
Proof.
  induction tags as [|tag rest IH]; simpl; [apply emits_ret|].
  apply emits_bind; [| intros; exact IH].
  destruct (negb _); [| apply emits_ret].
  apply emits_bind; [apply emits_liftW, emits_load_snapshot_metadata | intros [d|]].
  - destruct (dict_truthy d); [| apply emits_ret].
    apply emits_bind; [apply emits_local | intros; apply emits_set_local].
  - apply emits_ret.
Qed.

Lemma emits_list_snapshots :
  (forall o, P (EvRun ["git"; "tag"; "-l"] o)) -> emits P (list_snapshots E).
Proof.
  intros Hp w r w' Hl. unfold list_snapshots, with_local in Hl.
  match type of Hl with
  | context [on_called_process_error ?m ?a ?f] =>
      destruct (on_called_process_error m a f) as [r0 f0] eqn:Eb;
      assert (emits P (on_called_process_error m a)) as Hm
  end.
  { unfold on_called_process_error. apply emits_try_except.
    - apply emits_bind; [apply emits_liftW; now apply emits_subprocess_run|].
      intros; apply emits_load_tags.
    - intros e. destruct (is_CalledProcessError e); [apply emits_ret | apply emits_raise]. }
  destruct (Hm _ _ _ Eb) as (evs & T & F). simpl in T.
  exists evs. split; [| exact F].
  destruct r0; inversion Hl; subst; exact T.
Qed.

End EmitsVersioning.

(** The commands a snapshot restore may run once it is entered. *)
Definition restore_step (tag : string) (restore_code : bool) (ev : event) : Prop :=
  (restore_code = true /\ exists o, ev = EvRun ["git"; "checkout"; tag] o)
  \/ (exists o, ev = EvRun ["dvc"; "pull"] o)
  \/ (exists o, ev = EvRun ["dvc"; "checkout"; "."] o).

Lemma restore_snapshot_trace (E : Env) tag rd rm rc w r w' :
  restore_snapshot E tag rd rm rc w = (r, w') ->
  (exists b, r = Ok b) /\
  exists evs, trace w' = (trace w ++ EvRestoreSnapshot tag rd rm rc :: evs)%list
              /\ Forall (restore_step tag rc) evs.
Proof.
  unfold restore_snapshot. intros Hr.
  unfold bind at 1 in Hr. simpl in Hr.
  match type of Hr with
  | try_except ?m ?h ?s = _ =>
      assert (emits (restore_step tag rc) (try_except m h)) as Hm;
      [| assert (exists b s1, try_except m h s = (Ok b, s1)) as Hok ]
  end.
  { apply emits_try_except; [| intros; apply emits_ret].
    apply emits_bind; [apply emits_load_snapshot_metadata | intros [d|]];
      [| apply emits_raise].
    destruct (dict_truthy d); [| apply emits_raise].
    apply emits_bind; [apply emits_getitem | intros _].
    apply emits_bind; [apply emits_getitem | intros _].
    apply emits_bind.
    { destruct rc; [| apply emits_ret]. unfold _git_checkout.
      apply emits_bind; [| intros; apply emits_ret].
      apply emits_subprocess_run. intros o. left. eauto. }
    intros _. apply emits_bind; [| intros; apply emits_ret].
    destruct (rd || rm); [| apply emits_ret].
    apply emits_bind; [apply emits_dvc_pull; intros o; right; left; eauto|].
    intros _. apply emits_bind; [| intros; apply emits_ret].
    apply emits_dvc_checkout. intros o. right. right. eauto. }
  { unfold try_except.
    match goal with |- context [match ?x with _ => _ end] => destruct x as [[b|e] s1] end;
      eauto. }
  destruct Hok as (b & s1 & Hok). rewrite Hok in Hr. inversion Hr; subst.
  split; [eauto|].
  destruct (Hm _ _ _ Hok) as (evs & T & F). simpl in T.
  exists evs. split; [| exact F].
  unfold trace_of, traced_world in T. rewrite T. simpl.
  now rewrite <- app_assoc.
Qed.

(** ** The fallback chain of a data-corruption recovery *)

Inductive strategy : Type := TryBackup | TryDvc | TrySnapshot.

(** Which recovery strategy of the file [affected_file] an event belongs to:
    the copy onto the file, the DVC checkout of its [.dvc] file, the entry
    of a snapshot restore. *)
Definition strategy_of_event (affected_file : string) (ev : event) : option strategy :=
  match ev with
  | EvCopy2 _ dst => if String.eqb dst affected_file then Some TryBackup else None
  | EvRun ["dvc"; "checkout"; target] _ =>
      if String.eqb target (affected_file ++ ".dvc") then Some TryDvc else None
  | EvRestoreSnapshot _ _ _ _ => Some TrySnapshot
  | _ => None
  end.

(** The events added between two worlds. *)
Definition new_events (w w' : World) : list event :=
  drop (List.length (trace w)) (trace w').

Definition attempts (affected_file : string) (w w' : World) : list strategy :=
  omap (strategy_of_event affected_file) (new_events w w').

(** A recovery that succeeded by the strategy named [action] alone. *)
Definition succeeded_by (action : string) (result : gmap string pyval) : Prop :=
  result !! "status" = Some (VStr "success") /\
  result !! "actions_taken" = Some (VList [action]).

(** A recovery that gave up. *)
Definition all_failed (result : gmap string pyval) : Prop :=
  result !! "status" = Some (VStr "failed") /\
  result !! "error" = Some (VStr "All recovery strategies failed") /\
  result !! "actions_taken" = Some (VList []).

Lemma new_events_app w w' evs :
  trace w' = (trace w ++ evs)%list -> new_events w w' = evs.
Proof. intros T. unfold new_events. rewrite T. apply drop_app_length. Qed.

Lemma recover_body_finish (E : Env) incident f f1 s :
  recover_dispatch E incident f = (Ok tt, f1) ->
  fr_local f1 !! "status" = Some s ->
  recover_body E incident f =
  (Ok tt, mkFrame (tick (fr_world f1))
            (<["end_time" := VStr (isoformat E (clock (fr_world f1)))]> (fr_local f1))).
Proof.
  intros Hd Hs. unfold recover_body. rewrite (bind_ok _ _ _ _ _ Hd).
  unfold bind, set_item, liftW, now_isoformat, get_local, getitem, ret; simpl.
  rewrite lookup_insert_ne by discriminate. rewrite Hs. reflexivity.
Qed.

Lemma recover_body_raise (E : Env) incident f e f1 :
  recover_dispatch E incident f = (Raise e, f1) ->
  recover_body E incident f = (Raise e, f1).
Proof. intros Hd. unfold recover_body. now rewrite (bind_raise _ _ _ _ _ Hd). Qed.

Lemma suffix_dvc_neq_dot p : String.eqb "." (p ++ ".dvc") = false.
Proof.
  apply String.eqb_neq. destruct p as [|c p]; [discriminate|].
  simpl. intros H. inversion H as [[Hc Hp]]. destruct p; discriminate.
Qed.

Arguments copy2 : simpl never.
Arguments path_exists : simpl never.
Arguments dvc_checkout : simpl never.
Arguments list_snapshots : simpl never.
Arguments restore_snapshot : simpl never.
Arguments Path : simpl never.

Ltac emits_prim :=
  repeat first
    [ apply emits_bind; [| intros ?]
    | apply emits_emit; assumption
    | apply emits_get | apply emits_set_fs | apply emits_ret | apply emits_raise
    | apply emits_read_file
    | match goal with
      | |- emits _ (match ?x with _ => _ end) => destruct x
      | |- emits _ (if ?b then _ else _) => destruct b
      | |- emits _ (let '(_, _) := ?x in _) => destruct x
      end ].

Lemma emits_nothing {S A} `{Traced S} (m : M S A) s r s' :
  emits (fun _ => False) m -> m s = (r, s') -> trace_of s' = trace_of s.
Proof.
  intros Hm Hr. destruct (Hm _ _ _ Hr) as (evs & T & F).
  destruct F as [|ev evs []]. now rewrite app_nil_r in T.
Qed.

Lemma copy2_trace src dst w r w' :
  copy2 src dst w = (r, w') -> trace w' = (trace w ++ [EvCopy2 src dst])%list.
Proof.
  unfold copy2. unfold bind at 1. simpl. intros H.
  eapply (emits_nothing (S:=World)) in H; [exact H|].
  emits_prim.
Qed.

Lemma subprocess_run_trace (E : Env) cmd check w r w' :
  subprocess_run E cmd check w = (r, w') ->
  exists o, trace w' = (trace w ++ [EvRun cmd o])%list.
Proof.
  unfold subprocess_run, bind, emit, modify, get, set_fs, raise, ret. simpl.
  destruct (exec E cmd w) as [[rc out|e] f]; simpl.
  - destruct (check && negb (rc =? 0)%Z); intros H; inversion H; eauto.
  - intros H; inversion H; eauto.
Qed.

Lemma dvc_checkout_trace (E : Env) target w r w' :
  dvc_checkout E target w = (r, w') ->
  exists o, trace w' = (trace w ++ [EvRun ["dvc"; "checkout"; target] o])%list.
Proof.
  unfold dvc_checkout, on_called_process_error, try_except. intros H.
  match type of H with
  | context [bind ?m ?k w] => destruct (bind m k w) as [r0 w0] eqn:Eb
  end.
  unfold bind in Eb.
  destruct (subprocess_run E _ true w) as [[a|e] w1] eqn:Es;
    apply subprocess_run_trace in Es as [o T]; exists o.
  - inversion Eb; subst. inversion H; subst. exact T.
  - inversion Eb; subst. destruct (is_CalledProcessError e); inversion H; subst; exact T.
Qed.

Lemma omap_cons_some {A B} (f : A -> option B) x y l :
  f x = Some y -> omap f (x :: l) = y :: omap f l.
Proof. intros Hx. simpl. now rewrite Hx. Qed.

Lemma omap_strategy_nil af evs :
  Forall (fun ev => strategy_of_event af ev = None) evs ->
  omap (strategy_of_event af) evs = [].
Proof.
  induction 1 as [|ev evs Hev _ IH]; [reflexivity|].
  simpl. rewrite Hev. exact IH.
Qed.

Section DataCorruption.
Variable E : Env.
Variable incident : gmap string pyval.
Variables af bp : string.
Hypothesis Hty : incident !! "type" = Some (VStr "data_corruption").
Hypothesis Haf : incident !! "affected_file" = Some (VStr af).
Hypothesis Hbp : get_default incident "backup_path" (VStr "") = VStr bp.

Lemma dispatch_dc f : recover_dispatch E incident f = _recover_data_corruption E incident f.
Proof. unfold recover_dispatch, get_default. rewrite Hty. reflexivity. Qed.

Lemma dc_backup w d l r w2 :
  d !! "actions_taken" = Some (VList l) ->
  path_exists (Path bp) w = true ->
  copy2 (Path bp) (Path af) w = (r, w2) ->
  _recover_data_corruption E incident (mkFrame w d) =
  match r with
  | Ok _ => (Ok tt, mkFrame w2 (<["status" := VStr "success"]>
                 (<["actions_taken" := VList (l ++ ["restored_from_backup"])]> d)))
  | Raise e => (Raise e, mkFrame w2 d)
  end.
Proof.
  intros Hl Hex Hc. unfold _recover_data_corruption.
  unfold getitem. rewrite Haf, Hbp.
  unfold bind, ret, Path_of, liftW, get; simpl.
  rewrite Hex. cbn [fr_world fr_local]. rewrite Hc. destruct r as [[]|e]; [|reflexivity].
  unfold append_item; simpl. rewrite Hl. reflexivity.
Qed.

Lemma dc_dvc_ok w d l w2 :
  d !! "actions_taken" = Some (VList l) ->
  path_exists (Path bp) w = false ->
  dvc_checkout E (Path af ++ ".dvc") w = (Ok true, w2) ->
  _recover_data_corruption E incident (mkFrame w d) =
  (Ok tt, mkFrame w2 (<["status" := VStr "success"]>
                 (<["actions_taken" := VList (l ++ ["restored_from_dvc"])]> d))).
Proof.
  intros Hl Hex Hc. unfold _recover_data_corruption.
  unfold getitem. rewrite Haf, Hbp.
  unfold bind, ret, Path_of, liftW, get; simpl.
  rewrite Hex. cbn [fr_world fr_local]. rewrite Hc.
  unfold append_item; simpl. rewrite Hl. reflexivity.
Qed.

Lemma dc_snapshot w d l w2 snaps w3 latest v b w4 :
  d !! "actions_taken" = Some (VList l) ->
  path_exists (Path bp) w = false ->
  dvc_checkout E (Path af ++ ".dvc") w = (Ok false, w2) ->
  list_snapshots E w2 = (Ok snaps, w3) ->
  last snaps = Some latest ->
  latest !! "version" = Some v ->
  restore_snapshot E (py_str v) true false false w3 = (Ok b, w4) ->
  _recover_data_corruption E incident (mkFrame w d) =
  (Ok tt, mkFrame w4
     (if b then <["status" := VStr "success"]> (<["restored_version" := v]>
                 (<["actions_taken" := VList (l ++ ["full_data_restore"])]> d))
      else <["error" := VStr "All recovery strategies failed"]>
             (<["status" := VStr "failed"]> d))).
Proof.
  intros Hl Hex Hc Hls Hlast Hv Hr. unfold _recover_data_corruption.
  unfold getitem. rewrite Haf, Hbp.
  unfold bind, ret, Path_of, liftW, get; simpl.
  rewrite Hex. cbn [fr_world fr_local]. rewrite Hc.
  cbn [fr_world fr_local]. rewrite Hls, Hlast, Hv. cbn [fr_world fr_local].
  rewrite Hr. destruct b.
  - unfold append_item; simpl. rewrite Hl. reflexivity.
  - reflexivity.
Qed.

Lemma dc_no_snapshot w d w2 w3 :
  path_exists (Path bp) w = false ->
  dvc_checkout E (Path af ++ ".dvc") w = (Ok false, w2) ->
  list_snapshots E w2 = (Ok [], w3) ->
  _recover_data_corruption E incident (mkFrame w d) =
  (Ok tt, mkFrame w3 (<["error" := VStr "All recovery strategies failed"]>
             (<["status" := VStr "failed"]> d))).
Proof.
  intros Hex Hc Hls. unfold _recover_data_corruption.
  unfold getitem. rewrite Haf, Hbp.
  unfold bind, ret, Path_of, liftW, get; simpl.
  rewrite Hex. cbn [fr_world fr_local]. rewrite Hc.
  cbn [fr_world fr_local]. rewrite Hls. reflexivity.
Qed.

Lemma initial_actions w : initial_result E incident w !! "actions_taken" = Some (VList []).
Proof. reflexivity. Qed.

Lemma strategy_copy src : strategy_of_event (Path af) (EvCopy2 src (Path af)) = Some TryBackup.
Proof. simpl. now rewrite String.eqb_refl. Qed.

Lemma strategy_checkout o :
  strategy_of_event (Path af) (EvRun ["dvc"; "checkout"; Path af ++ ".dvc"] o) = Some TryDvc.
Proof. simpl. now rewrite String.eqb_refl. Qed.

Lemma recover_by_backup tv w r w2 :
  path_exists (Path bp) (tick w) = true ->
  copy2 (Path bp) (Path af) (tick w) = (r, w2) ->
  exists result,
    recover_from_incident E incident tv w = (Ok result, tick w2) /\
    attempts (Path af) w (tick w2) = [TryBackup] /\
    (r = Ok tt -> succeeded_by "restored_from_backup" result).
Proof.
  intros Hex Hc. rewrite recover_from_incident_unfold.
  pose proof (dc_backup _ _ _ _ _ (initial_actions w) Hex Hc) as Hd.
  rewrite <- dispatch_dc in Hd.
  assert (attempts (Path af) w (tick w2) = [TryBackup]) as Ha.
  { unfold attempts. erewrite new_events_app by (apply copy2_trace in Hc; exact Hc).
    simpl omap. now rewrite String.eqb_refl. }
  destruct r as [[]|e].
  - erewrite recover_body_finish by (first [exact Hd | simpl; map_lookups]).
    eexists. split; [reflexivity|]. split; [exact Ha|].
    intros _. unfold succeeded_by. simpl. map_lookups.
  - rewrite (recover_body_raise _ _ _ _ _ Hd).
    eexists. split; [reflexivity|]. split; [exact Ha|]. discriminate.
Qed.

Lemma recover_by_dvc tv w w2 :
  path_exists (Path bp) (tick w) = false ->
  dvc_checkout E (Path af ++ ".dvc") (tick w) = (Ok true, w2) ->
  exists result,
    recover_from_incident E incident tv w = (Ok result, tick w2) /\
    attempts (Path af) w (tick w2) = [TryDvc] /\
    succeeded_by "restored_from_dvc" result.
Proof.
  intros Hex Hc. rewrite recover_from_incident_unfold.
  pose proof (dc_dvc_ok _ _ _ _ (initial_actions w) Hex Hc) as Hd.
  rewrite <- dispatch_dc in Hd.
  erewrite recover_body_finish by (first [exact Hd | simpl; map_lookups]).
  eexists. split; [reflexivity|]. split.
  - apply dvc_checkout_trace in Hc as [o T]. unfold attempts.
    erewrite new_events_app by exact T. simpl omap. now rewrite String.eqb_refl.
  - unfold succeeded_by. simpl. map_lookups.
Qed.

Lemma list_snapshots_no_strategy w snaps w' :
  list_snapshots E w = (snaps, w') ->
  exists evs, trace w' = (trace w ++ evs)%list /\
              omap (strategy_of_event (Path af)) evs = [].
Proof.
  intros Hl.
  destruct (emits_list_snapshots E (fun ev => strategy_of_event (Path af) ev = None)
              (fun o => eq_refl) _ _ _ Hl) as (evs & T & F).
  exists evs. split; [exact T|]. now apply omap_strategy_nil.
Qed.

Lemma restore_no_strategy tag w r w' :
  restore_snapshot E tag true false false w = (r, w') ->
  exists evs, trace w' = (trace w ++ EvRestoreSnapshot tag true false false :: evs)%list /\
              omap (strategy_of_event (Path af)) evs = [].
Proof.
  intros Hr. apply restore_snapshot_trace in Hr as (_ & evs & T & F).
  exists evs. split; [exact T|]. apply omap_strategy_nil.
  eapply Forall_impl; [exact F|]. intros ev [[Hc _]|[[o ->]|[o ->]]].
  - discriminate.
  - reflexivity.
  - unfold strategy_of_event. now rewrite suffix_dvc_neq_dot.
Qed.

Lemma recover_by_snapshot tv w w2 snaps w3 latest v b w4 :
  path_exists (Path bp) (tick w) = false ->
  dvc_checkout E (Path af ++ ".dvc") (tick w) = (Ok false, w2) ->
  list_snapshots E w2 = (Ok snaps, w3) ->
  last snaps = Some latest ->
  latest !! "version" = Some v ->
  restore_snapshot E (py_str v) true false false w3 = (Ok b, w4) ->
  exists result,
    recover_from_incident E incident tv w = (Ok result, tick w4) /\
    attempts (Path af) w (tick w4) = [TryDvc; TrySnapshot] /\
    if b then succeeded_by "full_data_restore" result /\
              result !! "restored_version" = Some v
    else all_failed result.
Proof.
  intros Hex Hc Hls Hlast Hv Hr. rewrite recover_from_incident_unfold.
  pose proof (dc_snapshot _ _ _ _ _ _ _ _ _ _ (initial_actions w) Hex Hc Hls Hlast Hv Hr) as Hd.
  rewrite <- dispatch_dc in Hd.
  assert (attempts (Path af) w (tick w4) = [TryDvc; TrySnapshot]) as Ha.
  { apply dvc_checkout_trace in Hc as [o T2].
    apply list_snapshots_no_strategy in Hls as (e3 & T3 & N3).
    apply restore_no_strategy in Hr as (e4 & T4 & N4).
    unfold attempts. erewrite new_events_app.
    2:{ simpl. rewrite T4, T3, T2. simpl. rewrite <- !app_assoc. reflexivity. }
    rewrite !omap_app. rewrite N3. simpl omap at 1.
    rewrite String.eqb_refl.
    rewrite (omap_cons_some _ _ TrySnapshot) by reflexivity. now rewrite N4. }
  destruct b.
  - erewrite recover_body_finish by (first [exact Hd | simpl; map_lookups]).
    eexists. split; [reflexivity|]. split; [exact Ha|].
    unfold succeeded_by. simpl. map_lookups.
  - erewrite recover_body_finish by (first [exact Hd | simpl; map_lookups]).
    eexists. split; [reflexivity|]. split; [exact Ha|].
    unfold all_failed. simpl. map_lookups.
Qed.

Lemma recover_no_snapshot tv w w2 w3 :
  path_exists (Path bp) (tick w) = false ->
  dvc_checkout E (Path af ++ ".dvc") (tick w) = (Ok false, w2) ->
  list_snapshots E w2 = (Ok [], w3) ->
  exists result,
    recover_from_incident E incident tv w = (Ok result, tick w3) /\
    attempts (Path af) w (tick w3) = [TryDvc] /\
    all_failed result.
Proof.
  intros Hex Hc Hls. rewrite recover_from_incident_unfold.
  pose proof (dc_no_snapshot _ (initial_result E incident w) _ _ Hex Hc Hls) as Hd.
  rewrite <- dispatch_dc in Hd.
  erewrite recover_body_finish by (first [exact Hd | simpl; map_lookups]).
  eexists. split; [reflexivity|]. split.
  - apply dvc_checkout_trace in Hc as [o T2].
    apply list_snapshots_no_strategy in Hls as (e3 & T3 & N3).
    unfold attempts. erewrite new_events_app.
    2:{ simpl. rewrite T3, T2. rewrite <- !app_assoc. reflexivity. }
    rewrite !omap_app. rewrite N3. simpl omap.
    now rewrite String.eqb_refl.
  - unfold all_failed. simpl. map_lookups.
Qed.

End DataCorruption.

(** A recovery that failed with the text of an exception as its error. *)
Definition failed_with (msg : string) (result : gmap string pyval) : Prop :=
  result !! "status" = Some (VStr "failed") /\
  result !! "error" = Some (VStr msg) /\
  result !! "actions_taken" = Some (VList []).

(** A value whose text [py_str] gives as Python does. *)
Definition plain (v : pyval) : Prop :=
  match v with
  | VList _ | VDict _ => False
  | _ => True
  end.

(** [restore_snapshot] returns, whatever happens inside. *)
Lemma restore_snapshot_returns (E : Env) tag rd rm rc w :
  exists b w', restore_snapshot E tag rd rm rc w = (Ok b, w').
Proof.
  destruct (restore_snapshot E tag rd rm rc w) as [r w'] eqn:Hr.
  destruct (restore_snapshot_trace E _ _ _ _ _ _ _ Hr) as [[b ->] _]. eauto.
Qed.

Section DataCorruptionFailures.
Variable E : Env.
Variable incident : gmap string pyval.
Variables af bp : string.
Hypothesis Hty : incident !! "type" = Some (VStr "data_corruption").
Hypothesis Haf : incident !! "affected_file" = Some (VStr af).
Hypothesis Hbp : get_default incident "backup_path" (VStr "") = VStr bp.

Lemma dc_dvc_raise w d e w2 :
  path_exists (Path bp) w = false ->
  dvc_checkout E (Path af ++ ".dvc") w = (Raise e, w2) ->
  _recover_data_corruption E incident (mkFrame w d) = (Raise e, mkFrame w2 d).
Proof.
  intros Hex Hc. unfold _recover_data_corruption.
  unfold getitem. rewrite Haf, Hbp.
  unfold bind, ret, Path_of, liftW, get; simpl.
  rewrite Hex. cbn [fr_world fr_local]. rewrite Hc. reflexivity.
Qed.

Lemma dc_list_raise w d w2 e w3 :
  path_exists (Path bp) w = false ->
  dvc_checkout E (Path af ++ ".dvc") w = (Ok false, w2) ->
  list_snapshots E w2 = (Raise e, w3) ->
  _recover_data_corruption E incident (mkFrame w d) = (Raise e, mkFrame w3 d).
Proof.
  intros Hex Hc Hls. unfold _recover_data_corruption.
  unfold getitem. rewrite Haf, Hbp.
  unfold bind, ret, Path_of, liftW, get; simpl.
  rewrite Hex. cbn [fr_world fr_local]. rewrite Hc.
  cbn [fr_world fr_local]. rewrite Hls. reflexivity.
Qed.

Lemma dc_no_version w d w2 snaps w3 latest :
  path_exists (Path bp) w = false ->
  dvc_checkout E (Path af ++ ".dvc") w = (Ok false, w2) ->
  list_snapshots E w2 = (Ok snaps, w3) ->
  last snaps = Some latest ->
  latest !! "version" = None ->
  _recover_data_corruption E incident (mkFrame w d)
  = (Raise (KeyError "version"), mkFrame w3 d).
Proof.
  intros Hex Hc Hls Hlast Hv. unfold _recover_data_corruption.
  unfold getitem. rewrite Haf, Hbp.
  unfold bind, ret, Path_of, liftW, get; simpl.
  rewrite Hex. cbn [fr_world fr_local]. rewrite Hc.
  cbn [fr_world fr_local]. rewrite Hls, Hlast, Hv. reflexivity.
Qed.

(** The result of a recovery whose strategy raised [e], leaving the world
    [w']. *)
Lemma recover_raised tv w e w' :
  _recover_data_corruption E incident (mkFrame (tick w) (initial_result E incident w))
  = (Raise e, mkFrame w' (initial_result E incident w)) ->
  exists result,
    recover_from_incident E incident tv w = (Ok result, tick w') /\
    failed_with (str_exn e) result.
Proof.
  intros Hd. rewrite <- (dispatch_dc E incident Hty) in Hd.
  rewrite recover_from_incident_unfold.
  rewrite (recover_body_raise _ _ _ _ _ Hd).
  eexists. split; [reflexivity|]. unfold failed_with, initial_result.
  cbn [fr_local]. map_lookups.
Qed.

Lemma recover_backup_raise tv w e w2 :
  path_exists (Path bp) (tick w) = true ->
  copy2 (Path bp) (Path af) (tick w) = (Raise e, w2) ->
  exists result,
    recover_from_incident E incident tv w = (Ok result, tick w2) /\
    attempts (Path af) w (tick w2) = [TryBackup] /\
    failed_with (str_exn e) result.
Proof.
  intros Hex Hc.
  pose proof (dc_backup E incident af bp Haf Hbp _ _ _ _ _
                (initial_actions E incident w) Hex Hc) as Hd.
  destruct (recover_raised tv w e w2 Hd) as (result & Hr & Hf).
  exists result. split; [exact Hr|]. split; [|exact Hf].
  unfold attempts. erewrite new_events_app by (apply copy2_trace in Hc; exact Hc).
  simpl omap. now rewrite String.eqb_refl.
Qed.

Lemma recover_dvc_raise tv w e w2 :
  path_exists (Path bp) (tick w) = false ->
  dvc_checkout E (Path af ++ ".dvc") (tick w) = (Raise e, w2) ->
  exists result,
    recover_from_incident E incident tv w = (Ok result, tick w2) /\
    attempts (Path af) w (tick w2) = [TryDvc] /\
    failed_with (str_exn e) result.
Proof.
  intros Hex Hc.
  destruct (recover_raised tv w e w2 (dc_dvc_raise _ _ _ _ Hex Hc))
    as (result & Hr & Hf).
  exists result. split; [exact Hr|]. split; [|exact Hf].
  apply dvc_checkout_trace in Hc as [o T]. unfold attempts.
  erewrite new_events_app by exact T. simpl omap. now rewrite String.eqb_refl.
Qed.

Lemma attempts_dvc_listing w w2 r3 w3 :
  (exists o, trace w2 = (trace w ++ [EvRun ["dvc"; "checkout"; (Path af ++ ".dvc")%string] o])%list) ->
  list_snapshots E w2 = (r3, w3) ->
  attempts (Path af) w (tick w3) = [TryDvc].
Proof.
  intros [o T2] Hls.
  apply (list_snapshots_no_strategy E af) in Hls as (e3 & T3 & N3).
  unfold attempts. erewrite new_events_app.
  2:{ simpl. rewrite T3, T2. rewrite <- !app_assoc. reflexivity. }
  rewrite !omap_app. rewrite N3. simpl omap.
  now rewrite String.eqb_refl.
Qed.

Lemma recover_list_raise tv w w2 e w3 :
  path_exists (Path bp) (tick w) = false ->
  dvc_checkout E (Path af ++ ".dvc") (tick w) = (Ok false, w2) ->
  list_snapshots E w2 = (Raise e, w3) ->
  exists result,
    recover_from_incident E incident tv w = (Ok result, tick w3) /\
    attempts (Path af) w (tick w3) = [TryDvc] /\
    failed_with (str_exn e) result.
Proof.
  intros Hex Hc Hls.
  destruct (recover_raised tv w e w3 (dc_list_raise _ _ _ _ _ Hex Hc Hls))
    as (result & Hr & Hf).
  exists result. split; [exact Hr|]. split; [|exact Hf].
  eapply attempts_dvc_listing; [|exact Hls].
  apply dvc_checkout_trace in Hc. exact Hc.
Qed.

Lemma recover_no_version tv w w2 snaps w3 latest :
  path_exists (Path bp) (tick w) = false ->
  dvc_checkout E (Path af ++ ".dvc") (tick w) = (Ok false, w2) ->
  list_snapshots E w2 = (Ok snaps, w3) ->
  last snaps = Some latest ->
  latest !! "version" = None ->
  exists result,
    recover_from_incident E incident tv w = (Ok result, tick w3) /\
    attempts (Path af) w (tick w3) = [TryDvc] /\
    failed_with "'version'" result.
Proof.
  intros Hex Hc Hls Hlast Hv.
  destruct (recover_raised tv w _ w3 (dc_no_version _ _ _ _ _ _ Hex Hc Hls Hlast Hv))
    as (result & Hr & Hf).
  exists result. split; [exact Hr|]. split; [|exact Hf].
  eapply attempts_dvc_listing; [|exact Hls].
  apply dvc_checkout_trace in Hc. exact Hc.
Qed.

End DataCorruptionFailures.

(** C1. A data-corruption recovery tries its strategies in a fixed order:
    (1) the copy of the incident's backup file onto the affected file;
    (2) only when the backup path does not exist, the DVC checkout of
    [<affected_file>.dvc]; (3) only when that checkout returns [False], the
    restore of the last listed snapshot. The first strategy that succeeds
    ends the chain, is the only name in [actions_taken], and sets the status
    ['success']. A strategy that raises ends the chain as well: the copy, a
    checkout that cannot be started, a listing that meets metadata it cannot
    decode, a last snapshot without ['version']; the status is then
    ['failed'], the error is the text of the exception, and no later strategy
    is tried. The error is ['All recovery strategies failed'] only when the
    checkout returned [False] and either no snapshot is listed or the restore
    returned [False]. *)
Theorem data_corruption_recovery_chain (E : Env) (incident : gmap string pyval)
    (target_version : option string) (af bp : string) (w : World) :
  incident !! "type" = Some (VStr "data_corruption") ->
  incident !! "affected_file" = Some (VStr af) ->
  get_default incident "backup_path" (VStr "") = VStr bp ->
  (path_exists (Path bp) (tick w) = true ->
   forall r w2, copy2 (Path bp) (Path af) (tick w) = (r, w2) ->
     exists result,
       recover_from_incident E incident target_version w = (Ok result, tick w2) /\
       attempts (Path af) w (tick w2) = [TryBackup] /\
       match r with
       | Ok _ => succeeded_by "restored_from_backup" result
       | Raise e => failed_with (str_exn e) result
       end)
  /\
  (path_exists (Path bp) (tick w) = false ->
   forall checked w2, dvc_checkout E (Path af ++ ".dvc") (tick w) = (checked, w2) ->
     match checked with
     | Raise e =>
         exists result,
           recover_from_incident E incident target_version w = (Ok result, tick w2) /\
           attempts (Path af) w (tick w2) = [TryDvc] /\
           failed_with (str_exn e) result
     | Ok true =>
         exists result,
           recover_from_incident E incident target_version w = (Ok result, tick w2) /\
           attempts (Path af) w (tick w2) = [TryDvc] /\
           succeeded_by "restored_from_dvc" result
     | Ok false =>
         forall listed w3, list_snapshots E w2 = (listed, w3) ->
           match listed with
           | Raise e =>
               exists result,
                 recover_from_incident E incident target_version w
                 = (Ok result, tick w3) /\
                 attempts (Path af) w (tick w3) = [TryDvc] /\
                 failed_with (str_exn e) result
           | Ok snapshots =>
               match last snapshots with
               | None =>
                   exists result,
                     recover_from_incident E incident target_version w
                     = (Ok result, tick w3) /\
                     attempts (Path af) w (tick w3) = [TryDvc] /\
                     all_failed result
               | Some latest_snapshot =>
                   match latest_snapshot !! "version" with
                   | None =>
                       exists result,
                         recover_from_incident E incident target_version w
                         = (Ok result, tick w3) /\
                         attempts (Path af) w (tick w3) = [TryDvc] /\
                         failed_with "'version'" result
                   | Some version =>
                       plain version ->
                       exists restored w4 result,
                         restore_snapshot E (py_str version) true false false w3
                         = (Ok restored, w4) /\
                         recover_from_incident E incident target_version w
                         = (Ok result, tick w4) /\
                         attempts (Path af) w (tick w4) = [TryDvc; TrySnapshot] /\
                         if restored : bool then
                           succeeded_by "full_data_restore" result /\
                           result !! "restored_version" = Some version
                         else all_failed result
                   end
               end
           end
     end).
Proof.
  intros Hty Haf Hbp. split.
  - intros Hex [[]|e] w2 Hc.
    + destruct (recover_by_backup E incident af bp Hty Haf Hbp target_version
                  _ _ _ Hex Hc) as (result & Hr & Ha & Hs).
      exists result. auto.
    + eapply recover_backup_raise; eauto.
  - intros Hex [[|]|e] w2 Hc.
    + eapply recover_by_dvc; eauto.
    + intros [snapshots|e] w3 Hls.
      * destruct (last snapshots) as [latest|] eqn:Hlast.
        -- destruct (latest !! "version") as [version|] eqn:Hv.
           ++ intros _.
              destruct (restore_snapshot_returns E (py_str version) true false false w3)
                as (restored & w4 & Hr).
              exists restored, w4.
              destruct (recover_by_snapshot E incident af bp Hty Haf Hbp target_version
                          _ _ _ _ _ _ _ _ Hex Hc Hls Hlast Hv Hr)
                as (result & Hres & Ha & Hs).
              exists result. auto.
           ++ eapply recover_no_version; eauto.
        -- apply last_None in Hlast. subst snapshots.
           eapply recover_no_snapshot; eauto.
      * eapply recover_list_raise; eauto.
    + eapply recover_dvc_raise; eauto.
Qed.

(** The chain at work: the backup is gone and the DVC checkout brings the
    file back. *)
Lemma data_corruption_recovery_chain_witness :
  exists result w',
    recover_from_incident Demo.quiet (Demo.incident_no_backup "data_corruption")
      None Demo.world0 = (Ok result, w') /\
    attempts "data.csv" Demo.world0 w' = [TryDvc] /\
    succeeded_by "restored_from_dvc" result.
Proof.
  destruct (data_corruption_recovery_chain Demo.quiet
              (Demo.incident_no_backup "data_corruption") None
              "data.csv" "data.csv.backup"
              Demo.world0 eq_refl eq_refl eq_refl) as [_ H].
  specialize (H ltac:(vm_compute; reflexivity)).
  pose (w2 := snd (dvc_checkout Demo.quiet (Path "data.csv" ++ ".dvc")
                     (tick Demo.world0))).
  assert (Hc : dvc_checkout Demo.quiet (Path "data.csv" ++ ".dvc") (tick Demo.world0)
               = (Ok true, w2)) by (vm_compute; reflexivity).
  destruct (H (Ok true) w2 Hc) as (result & Hr & Ha & Hs).
  exists result, (tick w2). split; [exact Hr|]. split; [exact Ha | exact Hs].
Defined.

(** A repository whose only tag, [v1], has metadata without a version. *)
Definition world_unversioned : World :=
  mkWorld (<[".snapshots/v1.json" := File "first snapshot"]> ∅) 0 [].

(** The DVC checkout of the data file fails, git lists [v1], and the codec
    reads a dictionary that holds a description only. *)
Definition env_unversioned : Env :=
  let base := Demo.env [(["dvc"; "checkout"; "data.csv.dvc"], Exited 1 "");
                        (["git"; "tag"; "-l"], Exited 0 ("v1" ++ String "010" ""))] [] in
  {| exec := exec base;
     isoformat := isoformat base;
     json_load := fun c => Ok (<["description" := VStr c]> ∅);
     json_dump := json_dump base;
     glob := glob base;
     DataFrame := DataFrame base;
     read_csv := read_csv base;
     to_csv := to_csv base;
     shape := shape base;
     corrupt_random := corrupt_random base;
     corrupt_missing := corrupt_missing base;
     corrupt_duplicate := corrupt_duplicate base;
     random_index := random_index base |}.

(** A repository with two tags, the metadata of the second one truncated to
    nothing. *)
Definition world_truncated : World :=
  mkWorld (<[".snapshots/v10.json" := File "v10 2026-02-01"]>
           (<[".snapshots/v9.json" := File ""]> ∅)) 0 [].

(** C1, refuted as stated. All three strategies fail, and the error is not
    ['All recovery strategies failed']: the backup is gone and the DVC
    checkout returns [False]; then either the last snapshot has no
    ['version'] and the error is the text of the [KeyError], or a listed
    metadata file does not decode and the error is the decoder's. *)
Lemma third_strategy_fails_with_another_error :
  match recover_from_incident env_unversioned
          (Demo.incident_no_backup "data_corruption") None world_unversioned with
  | (Ok result, w') =>
      attempts "data.csv" world_unversioned w' = [TryDvc] /\
      result !! "status" = Some (VStr "failed") /\
      result !! "error" = Some (VStr "'version'") /\
      result !! "actions_taken" = Some (VList [])
  | (Raise _, _) => False
  end /\
  match recover_from_incident Demo.env_two_snaps
          (Demo.incident_no_backup "data_corruption") None world_truncated with
  | (Ok result, w') =>
      attempts "data.csv" world_truncated w' = [TryDvc] /\
      result !! "status" = Some (VStr "failed") /\
      result !! "error" = Some (VStr "Expecting value") /\
      result !! "actions_taken" = Some (VList [])
  | (Raise _, _) => False
  end.
Proof. vm_compute. repeat split. Qed.

(** ** The other two recoveries *)






Lemma dispatch_model_degradation (E : Env) incident f :
  incident !! "type" = Some (VStr "model_degradation") ->
  recover_dispatch E incident f = _recover_model_degradation E incident f.
Proof. intros Hty. unfold recover_dispatch, get_default. now rewrite Hty. Qed.

Lemma dispatch_pipeline_failure (E : Env) incident f :
  incident !! "type" = Some (VStr "pipeline_failure") ->
  recover_dispatch E incident f = _recover_pipeline_failure incident f.
Proof. intros Hty. unfold recover_dispatch, get_default. now rewrite Hty. Qed.

Arguments unlink : simpl never.
Arguments mkdir_exist_ok : simpl never.

Section ModelDegradation.

Variable E : Env.
Variable incident : gmap string pyval.
Variables af bp : string.
Hypothesis Hty : incident !! "type" = Some (VStr "model_degradation").
Hypothesis Haf : incident !! "affected_file" = Some (VStr af).
Hypothesis Hbp : get_default incident "backup_path" (VStr "") = VStr bp.

Lemma md_backup w d l w1 w2 :
  d !! "actions_taken" = Some (VList l) ->
  path_exists (Path bp) w = true ->
  mkdir_exist_ok (path_parent (Path af)) w = (Ok tt, w1) ->
  copy2 (Path bp) (Path af) w1 = (Ok tt, w2) ->
  _recover_model_degradation E incident (mkFrame w d) =
  (Ok tt, mkFrame w2 (<["status" := VStr "success"]>
            (<["actions_taken" := VList (l ++ ["restored_from_backup"])]> d))).
Proof.
  intros Hl Hex Hm Hc. unfold _recover_model_degradation.
  unfold getitem. rewrite Haf, Hbp.
  unfold bind, ret, Path_of, liftW, get; simpl.
  rewrite Hex. cbn [fr_world fr_local]. rewrite Hm.
  cbn [fr_world fr_local]. rewrite Hc.
  unfold append_item; simpl. rewrite Hl. reflexivity.
Qed.



End ModelDegradation.

Lemma pf_cleared incident mf w d l w2 :
  get_default incident "marker_file" (VStr "") = VStr mf ->
  d !! "actions_taken" = Some (VList l) ->
  (path_exists (Path mf) w = false /\ w2 = w
   \/ path_exists (Path mf) w = true /\ unlink (Path mf) w = (Ok tt, w2)) ->
  _recover_pipeline_failure incident (mkFrame w d) =
  (Ok tt, mkFrame w2 (<["note" := VStr "Pipeline can be restarted"]>
            (<["status" := VStr "success"]>
            (<["actions_taken" := VList (l ++ ["cleared_failure_markers"])]> d)))).
Proof.
  intros Hmf Hl Hu. unfold _recover_pipeline_failure. rewrite Hmf.
  unfold bind, ret, Path_of, liftW, get; simpl.
  destruct Hu as [[Hex ->]|[Hex Hu]]; rewrite Hex; cbn [fr_world fr_local].
  - unfold append_item; simpl. rewrite Hl. reflexivity.
  - rewrite Hu. unfold append_item; simpl. rewrite Hl. reflexivity.
Qed.




(** ** VersionController.restore_snapshot *)

(** The world after a child process that ended as [o] and left the file
    system [f]; a process that could not be spawned leaves the file system
    as it was. *)
Definition after_run (w : World) (cmd : list string) (o : proc_outcome)
    (f : gmap string node) : World :=
  mkWorld (match o with Exited _ _ => f | SpawnFailed _ => fs w end)
          (clock w) (trace w ++ [EvRun cmd o]).

Lemma subprocess_run_eq (E : Env) cmd check w :
  subprocess_run E cmd check w =
  (match fst (exec E cmd w) with
   | SpawnFailed msg => Raise (OSError msg)
   | Exited rc out =>
       if check && negb (rc =? 0)%Z then Raise (CalledProcessError cmd rc)
       else Ok (rc, out)
   end,
   after_run w cmd (fst (exec E cmd w)) (snd (exec E cmd w))).
Proof.
  unfold subprocess_run, after_run, bind, get, emit, modify, set_fs, raise, ret.
  destruct (exec E cmd w) as [[rc out|e] f]; simpl; [|reflexivity].
  destruct (check && negb (rc =? 0)%Z); reflexivity.
Qed.

(** A DVC command wrapped in [try]/[except CalledProcessError]: [True] on
    exit status 0, [False] on any other, an exception when the process
    cannot be spawned. *)
Lemma dvc_command_eq (E : Env) cmd w :
  on_called_process_error (subprocess_run E cmd true ;;; ret true) false w =
  (match fst (exec E cmd w) with
   | SpawnFailed msg => Raise (OSError msg)
   | Exited rc out => Ok (rc =? 0)%Z
   end,
   after_run w cmd (fst (exec E cmd w)) (snd (exec E cmd w))).
Proof.
  unfold on_called_process_error, try_except, bind. rewrite subprocess_run_eq.
  destruct (fst (exec E cmd w)) as [rc out|msg]; simpl.
  - destruct (rc =? 0)%Z; reflexivity.
  - reflexivity.
Qed.

Lemma dvc_pull_eq (E : Env) w :
  dvc_pull E w =
  (match fst (exec E ["dvc"; "pull"] w) with
   | SpawnFailed msg => Raise (OSError msg)
   | Exited rc out => Ok (rc =? 0)%Z
   end,
   after_run w ["dvc"; "pull"] (fst (exec E ["dvc"; "pull"] w))
     (snd (exec E ["dvc"; "pull"] w))).
Proof. apply dvc_command_eq. Qed.

Lemma dvc_checkout_eq (E : Env) target w :
  dvc_checkout E target w =
  (match fst (exec E ["dvc"; "checkout"; target] w) with
   | SpawnFailed msg => Raise (OSError msg)
   | Exited rc out => Ok (rc =? 0)%Z
   end,
   after_run w ["dvc"; "checkout"; target] (fst (exec E ["dvc"; "checkout"; target] w))
     (snd (exec E ["dvc"; "checkout"; target] w))).
Proof. apply dvc_command_eq. Qed.

(** Reading the metadata leaves the world as it is. *)
Lemma load_snapshot_metadata_eq (E : Env) tag w :
  _load_snapshot_metadata E tag w =
  (if negb (path_exists (metadata_file tag) w) then Ok None
   else match lookup_node (metadata_file tag) w with
        | Some (File c) =>
            match json_load E c with
            | Ok d => Ok (Some d)
            | Raise e => Raise e
            end
        | Some Dir => Raise (IsADirectoryError (metadata_file tag))
        | None => Raise (FileNotFoundError (metadata_file tag))
        end, w).
Proof.
  unfold _load_snapshot_metadata, bind, get, read_file, ret, raise.
  destruct (negb (path_exists (metadata_file tag) w)); [reflexivity|].
  destruct (lookup_node (metadata_file tag) w) as [[c|]|]; try reflexivity.
  destruct (json_load E c); reflexivity.
Qed.

(** The world on entry of a restore. *)
Definition entered (w : World) (tag : string) (rd rm rc : bool) : World :=
  mkWorld (fs w) (clock w) (trace w ++ [EvRestoreSnapshot tag rd rm rc]).

(** Without a metadata file the restore fails at once. *)
Lemma restore_snapshot_no_metadata (E : Env) tag rd rm rc w :
  path_exists (metadata_file tag) w = false ->
  restore_snapshot E tag rd rm rc w = (Ok false, entered w tag rd rm rc).
Proof.
  intros Hm. unfold restore_snapshot.
  rewrite (bind_ok _ _ w tt (entered w tag rd rm rc)) by reflexivity.
  unfold try_except, bind at 1. rewrite load_snapshot_metadata_eq.
  change (path_exists (metadata_file tag) (entered w tag rd rm rc))
    with (path_exists (metadata_file tag) w).
  rewrite Hm. reflexivity.
Qed.

(** The commands of a restore that returned [True]: the git checkout, when
    code was asked for, exited with status 0; the DVC pull and checkout,
    when data or models were asked for, were both run to an exit, whatever
    their status. *)
Lemma restore_snapshot_true (E : Env) tag rd rm rc w w' :
  restore_snapshot E tag rd rm rc w = (Ok true, w') ->
  path_exists (metadata_file tag) w = true /\
  exists code_events dvc_events,
    trace w' = (trace w ++ EvRestoreSnapshot tag rd rm rc
                         :: code_events ++ dvc_events)%list /\
    (if rc then exists out,
         code_events = [EvRun ["git"; "checkout"; tag] (Exited 0 out)]
     else code_events = []) /\
    (if rd || rm then exists s1 o1 s2 o2,
         dvc_events = [EvRun ["dvc"; "pull"] (Exited s1 o1);
                       EvRun ["dvc"; "checkout"; "."] (Exited s2 o2)]
     else dvc_events = []).
Proof.
  unfold restore_snapshot.
  rewrite (bind_ok _ _ w tt (entered w tag rd rm rc)) by reflexivity.
  unfold try_except.
  match goal with
  | |- context [bind ?m ?k (entered w tag rd rm rc)] =>
      destruct (bind m k (entered w tag rd rm rc)) as [[b|e] w5] eqn:Hb
  end; [| discriminate].
  intros Hr. inversion Hr; subst b w5. clear Hr.
  apply bind_inv_ok in Hb as (info & w1 & Hload & Hb).
  rewrite load_snapshot_metadata_eq in Hload.
  change (path_exists (metadata_file tag) (entered w tag rd rm rc))
    with (path_exists (metadata_file tag) w) in Hload.
  destruct (path_exists (metadata_file tag) w) eqn:Hm; simpl in Hload;
    [| inversion Hload; subst; discriminate].
  split; [reflexivity|].
  assert (w1 = entered w tag rd rm rc) as -> by (inversion Hload; reflexivity).
  clear Hload.
  destruct info as [d|]; [| discriminate].
  destruct (dict_truthy d); [| discriminate].
  apply bind_inv_ok in Hb as (v1 & w2 & H1 & Hb).
  assert (w2 = entered w tag rd rm rc) as ->
    by (unfold getitem in H1; destruct (d !! "timestamp"); inversion H1; reflexivity).
  apply bind_inv_ok in Hb as (v2 & w3 & H2 & Hb).
  assert (w3 = entered w tag rd rm rc) as ->
    by (unfold getitem in H2; destruct (d !! "description"); inversion H2; reflexivity).
  apply bind_inv_ok in Hb as ([] & w4 & Hcode & Hb).
  apply bind_inv_ok in Hb as ([] & w5 & Hdvc & Hb).
  inversion Hb; subst w5. clear Hb.
  assert (exists code_events,
             trace w4 = (trace (entered w tag rd rm rc) ++ code_events)%list /\
             if rc then exists out,
                 code_events = [EvRun ["git"; "checkout"; tag] (Exited 0 out)]
             else code_events = []) as (ce & Tc & Hce).
  { destruct rc.
    - unfold _git_checkout in Hcode.
      apply bind_inv_ok in Hcode as ([s out] & w6 & Hrun & Hret).
      inversion Hret; subst w6. rewrite subprocess_run_eq in Hrun.
      destruct (fst (exec E _ _)) as [s0 out0|msg] eqn:Ho; [| discriminate].
      simpl in Hrun. destruct (s0 =? 0)%Z eqn:Hz; [| discriminate].
      apply Z.eqb_eq in Hz. subst s0. inversion Hrun; subst.
      eexists. split; [reflexivity|]. eauto.
    - inversion Hcode; subst. exists []. now rewrite app_nil_r. }
  assert (exists dvc_events,
             trace w' = (trace w4 ++ dvc_events)%list /\
             if rd || rm then exists s1 o1 s2 o2,
                 dvc_events = [EvRun ["dvc"; "pull"] (Exited s1 o1);
                               EvRun ["dvc"; "checkout"; "."] (Exited s2 o2)]
             else dvc_events = []) as (de & Td & Hde).
  { destruct (rd || rm).
    - apply bind_inv_ok in Hdvc as (b1 & w6 & Hpull & Hdvc).
      apply bind_inv_ok in Hdvc as (b2 & w7 & Hco & Hret).
      inversion Hret; subst w7. clear Hret.
      rewrite dvc_pull_eq in Hpull. rewrite dvc_checkout_eq in Hco.
      destruct (fst (exec E ["dvc"; "pull"] w4)) as [s1 o1|] eqn:Ho1; [| discriminate].
      inversion Hpull; subst w6. clear Hpull.
      destruct (fst (exec E ["dvc"; "checkout"; "."] _)) as [s2 o2|] eqn:Ho2;
        [| discriminate].
      inversion Hco; subst w'. clear Hco.
      eexists. split.
      + simpl. rewrite <- app_assoc. reflexivity.
      + simpl. eauto 10.
    - inversion Hdvc; subst. exists []. now rewrite app_nil_r. }
  exists ce, de. split; [| split; assumption].
  rewrite Td, Tc. simpl. rewrite <- !app_assoc. reflexivity.
Qed.

(** C9. [restore_snapshot] is meant to return [False] when a DVC step
    fails. It does not: with the metadata of [v2] on record, the git checkout
    succeeding and both [dvc pull] and [dvc checkout .] exiting with status
    1, it returns [True]; the values returned by [dvc.pull()] and
    [dvc.checkout('.')] are dropped. *)
Theorem restore_snapshot_ignores_dvc_failure :
  match restore_snapshot Demo.env_dvc_down "v2" true true true Demo.world_snap with
  | (Ok restored, w') =>
      restored = true /\
      trace w' = [EvRestoreSnapshot "v2" true true true;
                  EvRun ["git"; "checkout"; "v2"] (Exited 0 "");
                  EvRun ["dvc"; "pull"] (Exited 1 "");
                  EvRun ["dvc"; "checkout"; "."] (Exited 1 "")]
  | (Raise _, _) => False
  end.
Proof. vm_compute. split; reflexivity. Qed.

(** The defect in general: a restore whose DVC commands both run to an exit
    returns [True] whatever their exit status. *)
Lemma restore_snapshot_dvc_status_dropped (E : Env) tag rm w d s1 o1 f1 s2 o2 f2 :
  path_exists (metadata_file tag) w = true ->
  lookup_node (metadata_file tag) w = Some (File d) ->
  (exists info, json_load E d = Ok info /\ dict_truthy info = true /\
                is_Some (info !! "timestamp") /\ is_Some (info !! "description")) ->
  exec E ["dvc"; "pull"] (entered w tag true rm false) = (Exited s1 o1, f1) ->
  exec E ["dvc"; "checkout"; "."]
    (after_run (entered w tag true rm false) ["dvc"; "pull"] (Exited s1 o1) f1)
    = (Exited s2 o2, f2) ->
  fst (restore_snapshot E tag true rm false w) = Ok true.
Proof.
  intros Hm Hn (info & Hj & Ht & [ts Hts] & [ds Hds]) Hp Hc.
  unfold restore_snapshot.
  rewrite (bind_ok _ _ w tt (entered w tag true rm false)) by reflexivity.
  unfold try_except, bind at 1. rewrite load_snapshot_metadata_eq.
  change (path_exists (metadata_file tag) (entered w tag true rm false))
    with (path_exists (metadata_file tag) w).
  change (lookup_node (metadata_file tag) (entered w tag true rm false))
    with (lookup_node (metadata_file tag) w).
  rewrite Hm, Hn, Hj. simpl negb. cbv iota. rewrite Ht.
  unfold bind, getitem. rewrite Hts, Hds. simpl.
  rewrite dvc_pull_eq, Hp. simpl.
  rewrite dvc_checkout_eq, Hc. reflexivity.
Qed.

(** ** The third strategy of a data-corruption recovery *)

Definition is_tag_listing (ev : event) : Prop :=
  exists o, ev = EvRun ["git"; "tag"; "-l"] o.

(** X17. What the third strategy runs. When the backup is gone, the DVC
    checkout returns [False] and the restore of the last listed snapshot
    returns [True], the events of the recovery are the failed checkout, the
    listing of the tags, the entry of [restore_snapshot] with
    [restore_data=True, restore_models=False, restore_code=False], and then
    [dvc pull] and [dvc checkout .], whatever their exit status: no git
    checkout is run. The result names the version under
    ['restored_version']. *)
Theorem snapshot_restore_is_data_only (E : Env) (incident : gmap string pyval)
    (target_version : option string) (af bp : string) (w w2 w3 w4 : World)
    (snapshots : list (gmap string pyval)) (latest_snapshot : gmap string pyval)
    (version : pyval) :
  incident !! "type" = Some (VStr "data_corruption") ->
  incident !! "affected_file" = Some (VStr af) ->
  get_default incident "backup_path" (VStr "") = VStr bp ->
  path_exists (Path bp) (tick w) = false ->
  dvc_checkout E (Path af ++ ".dvc") (tick w) = (Ok false, w2) ->
  list_snapshots E w2 = (Ok snapshots, w3) ->
  last snapshots = Some latest_snapshot ->
  latest_snapshot !! "version" = Some version ->
  plain version ->
  restore_snapshot E (py_str version) true false false w3 = (Ok true, w4) ->
  exists result,
    recover_from_incident E incident target_version w = (Ok result, tick w4) /\
    succeeded_by "full_data_restore" result /\
    result !! "restored_version" = Some version /\
    exists o listing s1 o1 s2 o2,
      new_events w (tick w4) =
        (EvRun ["dvc"; "checkout"; (Path af ++ ".dvc")%string] o :: listing ++
         [EvRestoreSnapshot (py_str version) true false false;
          EvRun ["dvc"; "pull"] (Exited s1 o1);
          EvRun ["dvc"; "checkout"; "."] (Exited s2 o2)])%list /\
      Forall is_tag_listing listing.
Proof.
  intros Hty Haf Hbp Hex Hc Hls Hlast Hv _ Hr.
  destruct (recover_by_snapshot E incident af bp Hty Haf Hbp target_version
              _ _ _ _ _ _ _ _ Hex Hc Hls Hlast Hv Hr)
    as (result & Hres & _ & Hs & Hrv).
  exists result. split; [exact Hres|]. split; [exact Hs|]. split; [exact Hrv|].
  apply dvc_checkout_trace in Hc as [o T2].
  destruct (emits_list_snapshots E is_tag_listing (fun o => ex_intro _ o eq_refl)
              _ _ _ Hls) as (listing & T3 & F3).
  apply restore_snapshot_true in Hr as (_ & ce & de & T4 & -> & s1 & o1 & s2 & o2 & ->).
  exists o, listing, s1, o1, s2, o2. split; [| exact F3].
  unfold trace_of, traced_world in T3.
  apply new_events_app. simpl. rewrite T4, T3, T2. simpl.
  rewrite <- !app_assoc. reflexivity.
Qed.

(** The third strategy at work on the snapshot [v2]. *)
Lemma snapshot_restore_is_data_only_witness :
  exists result w',
    recover_from_incident Demo.env_no_dvc (Demo.incident_no_backup "data_corruption")
      None Demo.world_snap = (Ok result, w') /\
    succeeded_by "full_data_restore" result /\
    result !! "restored_version" = Some (VStr "v2").
Proof.
  pose (w2 := snd (dvc_checkout Demo.env_no_dvc (Path "data.csv" ++ ".dvc")
                     (tick Demo.world_snap))).
  pose (listed := list_snapshots Demo.env_no_dvc w2).
  pose (snapshots := match fst listed with Ok l => l | Raise _ => [] end).
  pose (latest := default ∅ (last snapshots)).
  pose (w4 := snd (restore_snapshot Demo.env_no_dvc (py_str (VStr "v2"))
                     true false false (snd listed))).
  assert (Hex : path_exists (Path "data.csv.backup") (tick Demo.world_snap) = false)
    by (vm_compute; reflexivity).
  assert (Hc : dvc_checkout Demo.env_no_dvc (Path "data.csv" ++ ".dvc")
                 (tick Demo.world_snap) = (Ok false, w2))
    by (vm_compute; reflexivity).
  assert (Hl : list_snapshots Demo.env_no_dvc w2 = (Ok snapshots, snd listed))
    by (vm_compute; reflexivity).
  assert (Hlast : last snapshots = Some latest) by (vm_compute; reflexivity).
  assert (Hv : latest !! "version" = Some (VStr "v2")) by (vm_compute; reflexivity).
  assert (Hr : restore_snapshot Demo.env_no_dvc (py_str (VStr "v2"))
                 true false false (snd listed) = (Ok true, w4))
    by (vm_compute; reflexivity).
  destruct (snapshot_restore_is_data_only Demo.env_no_dvc
              (Demo.incident_no_backup "data_corruption") None
              "data.csv" "data.csv.backup" Demo.world_snap w2 (snd listed) w4
              snapshots latest (VStr "v2")
              eq_refl eq_refl eq_refl Hex Hc Hl Hlast Hv I Hr)
    as (result & Hres & Hs & Hrv & _).
  exists result, (tick w4). split; [exact Hres|]. split; [exact Hs | exact Hrv].
Defined.

(** C3. The third strategy is meant to restore the latest snapshot: the
    code takes [snapshots[-1]] and calls it [latest_snapshot]. It does not:
    [list_snapshots] is in the order of [git tag -l], which is by name. Of
    the two snapshots on record [v10] is the more recent, yet the recovery
    restores [v9], the last tag that git lists, and reports success. Nor is
    the restore a full one: it is entered with [restore_models] and
    [restore_code] off, and no git checkout is run. *)
Lemma full_restore_is_neither_latest_nor_full :
  match list_snapshots Demo.env_two_snaps Demo.world_two_snaps with
  | (Ok snapshots, _) =>
      map (fun d => (d !! "version", d !! "timestamp")) snapshots =
      [(Some (VStr "v10"), Some (VStr "2026-02-01"));
       (Some (VStr "v9"), Some (VStr "2026-01-01"))]
  | (Raise _, _) => False
  end /\
  match recover_from_incident Demo.env_two_snaps
          (Demo.incident_no_backup "data_corruption") None Demo.world_two_snaps with
  | (Ok result, w') =>
      succeeded_by "full_data_restore" result /\
      result !! "restored_version" = Some (VStr "v9") /\
      trace w' = [EvRun ["dvc"; "checkout"; "data.csv.dvc"] (Exited 1 "");
                  EvRun ["git"; "tag"; "-l"]
                    (Exited 0 ("v10" ++ String "010" "v9" ++ String "010" ""));
                  EvRestoreSnapshot "v9" true false false;
                  EvRun ["dvc"; "pull"] (Exited 0 "");
                  EvRun ["dvc"; "checkout"; "."] (Exited 0 "")]
  | (Raise _, _) => False
  end.
Proof. vm_compute. repeat split. Qed.

(** ** Corruption and recovery of a data file *)

Arguments lookup_node : simpl never.
Arguments write_file : simpl never.
Arguments read_file : simpl never.

Lemma append_neq_self (s t : string) : t <> "" -> s ++ t <> s.
Proof.
  intros Ht. induction s as [|c s IH]; simpl.
  - exact Ht.
  - intros H. inversion H. auto.
Qed.

Lemma backup_neq_dot (p : string) : p ++ ".backup" <> ".".
Proof.
  destruct p as [|c p]; [discriminate|]. simpl. intros H.
  inversion H as [[Hc Hp]]. destruct p; discriminate.
Qed.

Lemma lookup_node_fs p w w' : fs w' = fs w -> lookup_node p w' = lookup_node p w.
Proof. intros Hf. unfold lookup_node. now rewrite Hf. Qed.

Lemma path_is_dir_node p w :
  path_is_dir p w = match lookup_node p w with Some Dir => true | _ => false end.
Proof. reflexivity. Qed.

Lemma path_exists_node p w :
  path_exists p w = match lookup_node p w with Some _ => true | None => false end.
Proof. reflexivity. Qed.

Lemma lookup_node_insert p n w c t :
  p <> "." -> lookup_node p (mkWorld (<[p := n]> (fs w)) c t) = Some n.
Proof.
  intros Hp. unfold lookup_node. apply String.eqb_neq in Hp. rewrite Hp.
  simpl. apply lookup_insert_eq.
Qed.

Lemma lookup_node_insert_ne p q n w c t :
  p <> q -> lookup_node q (mkWorld (<[p := n]> (fs w)) c t) = lookup_node q w.
Proof.
  intros Hp. unfold lookup_node. destruct (String.eqb q "."); [reflexivity|].
  simpl. now apply lookup_insert_ne.
Qed.

(** [shutil.copy2] onto a path that is not a directory. *)
Lemma copy2_eq src dst w :
  path_is_dir dst w = false ->
  copy2 src dst w =
  let w1 := mkWorld (fs w) (clock w) (trace w ++ [EvCopy2 src dst]) in
  if String.eqb src dst && path_exists src w then (Raise (SameFileError src dst), w1)
  else match lookup_node src w with
       | Some (File c) =>
           (Ok tt, mkWorld (<[dst := File c]> (fs w)) (clock w)
                     (trace w ++ [EvCopy2 src dst]))
       | Some Dir => (Raise (IsADirectoryError src), w1)
       | None => (Raise (FileNotFoundError src), w1)
       end.
Proof.
  intros Hd. unfold copy2.
  rewrite (bind_ok _ _ w tt (mkWorld (fs w) (clock w) (trace w ++ [EvCopy2 src dst])))
    by reflexivity.
  unfold bind at 1, get. 
  set (w1 := mkWorld (fs w) (clock w) (trace w ++ [EvCopy2 src dst])).
  assert (forall p, lookup_node p w1 = lookup_node p w) as Hn
      by (intros p; now apply lookup_node_fs).
  rewrite !path_is_dir_node, !path_exists_node in *. rewrite !Hn.
  destruct (lookup_node dst w) as [[cd|]|] eqn:Hdst; try discriminate; simpl.
  - destruct (String.eqb src dst && _); [reflexivity|].
    unfold bind, read_file. rewrite Hn.
    destruct (lookup_node src w) as [[c|]|]; try reflexivity.
    rewrite Hdst. reflexivity.
  - destruct (String.eqb src dst && _); [reflexivity|].
    unfold bind, read_file. rewrite Hn.
    destruct (lookup_node src w) as [[c|]|]; try reflexivity.
    rewrite Hdst. reflexivity.
Qed.

Lemma write_file_eq p c w :
  write_file p c w =
  match lookup_node p w with
  | Some Dir => (Raise (IsADirectoryError p),
                 mkWorld (fs w) (clock w) (trace w ++ [EvWrite p]))
  | _ => (Ok tt, mkWorld (<[p := File c]> (fs w)) (clock w) (trace w ++ [EvWrite p]))
  end.
Proof.
  unfold write_file.
  rewrite (bind_ok _ _ w tt (mkWorld (fs w) (clock w) (trace w ++ [EvWrite p])))
    by reflexivity.
  unfold bind, get.
  rewrite (lookup_node_fs p w (mkWorld (fs w) (clock w) (trace w ++ [EvWrite p])))
    by reflexivity.
  destruct (lookup_node p w) as [[|]|]; reflexivity.
Qed.

Lemma mkdir_exist_ok_eq p w :
  mkdir_exist_ok p w =
  match lookup_node p w with
  | Some Dir => (Ok tt, mkWorld (fs w) (clock w) (trace w ++ [EvMkdir p]))
  | Some (File _) => (Raise (FileExistsError p),
                      mkWorld (fs w) (clock w) (trace w ++ [EvMkdir p]))
  | None => (Ok tt, mkWorld (<[p := Dir]> (fs w)) (clock w) (trace w ++ [EvMkdir p]))
  end.
Proof.
  unfold mkdir_exist_ok.
  rewrite (bind_ok _ _ w tt (mkWorld (fs w) (clock w) (trace w ++ [EvMkdir p])))
    by reflexivity.
  unfold bind, get.
  rewrite (lookup_node_fs p w (mkWorld (fs w) (clock w) (trace w ++ [EvMkdir p])))
    by reflexivity.
  destruct (lookup_node p w) as [[|]|]; reflexivity.
Qed.

Lemma read_file_eq p w :
  read_file p w =
  (match lookup_node p w with
   | Some (File c) => Ok c
   | Some Dir => Raise (IsADirectoryError p)
   | None => Raise (FileNotFoundError p)
   end, w).
Proof. unfold read_file. destruct (lookup_node p w) as [[|]|]; reflexivity. Qed.

Lemma liftW_inv {L A} (m : M World A) (f : Frame L) r f' :
  liftW m f = (r, f') ->
  exists w', m (fr_world f) = (r, w') /\ f' = mkFrame w' (fr_local f).
Proof.
  unfold liftW. destruct (m (fr_world f)) as [r0 w0]. intros H.
  inversion H; subst. eauto.
Qed.

Lemma with_backup_suffix_ok p bp :
  with_backup_suffix p = Ok bp -> bp = p ++ ".backup" /\ p <> "." /\ p <> "".
Proof.
  unfold with_backup_suffix, path_name.
  destruct (String.eqb p ".") eqn:Hd; [discriminate|].
  apply String.eqb_neq in Hd.
  destruct p as [|c p]; [discriminate|].
  destruct (String.eqb _ ""); [discriminate|].
  intros H. inversion H. repeat split; [exact Hd | discriminate].
Qed.

(** What a successful simulation of data corruption did: the file held
    [original], the backup now holds it, and the file holds something else. *)
Lemma simulate_data_corruption_active (E : Env) fp ctype
    (f : Frame IncidentGenerator) incident f' :
  simulate_data_corruption E fp ctype f = (Ok incident, f') ->
  incident !! "status" = Some (VStr "active") ->
  path_is_dir (fp ++ ".backup") (fr_world f) = false ->
  exists original corrupted,
    lookup_node fp (fr_world f) = Some (File original) /\
    fp <> "." /\ fp <> "" /\
    fs (fr_world f') =
      <[fp := File corrupted]> (<[fp ++ ".backup" := File original]> (fs (fr_world f))) /\
    incident !! "type" = Some (VStr "data_corruption") /\
    incident !! "affected_file" = Some (VStr fp) /\
    incident !! "backup_path" = Some (VStr (fp ++ ".backup")) /\
    fr_local f' = log_append (fr_local f) incident.
Proof.
  unfold simulate_data_corruption. intros Hs Hact Hdir.
  apply bind_inv_ok in Hs as (ts & f1 & Hnow & Hs).
  apply liftW_inv in Hnow as (w1 & Hnow & ->). inversion Hnow; subst; clear Hnow.
  unfold simulate_with, with_local in Hs. cbn [fr_world fr_local] in Hs.
  match type of Hs with
  | context [data_corruption_body E fp ctype ?f0] =>
      destruct (data_corruption_body E fp ctype f0) as [[[]|e] [w2 d2]] eqn:Hb
  end; cbn [fr_world fr_local] in Hs.
  2:{ inversion Hs; subst. rewrite lookup_insert_ne in Hact by discriminate.
      rewrite lookup_insert_eq in Hact. discriminate. }
  inversion Hs; subst; clear Hs. cbn [fr_world fr_local].
  unfold data_corruption_body in Hb.
  apply bind_inv_ok in Hb as (bp & f2 & Hbp & Hb).
  destruct (with_backup_suffix fp) as [bp'|] eqn:Hw; [| discriminate].
  inversion Hbp; subst; clear Hbp.
  apply with_backup_suffix_ok in Hw as (-> & Hdot & Hne).
  apply bind_inv_ok in Hb as ([] & f3 & Hcopy & Hb).
  apply liftW_inv in Hcopy as (w3 & Hcopy & ->). cbn [fr_world fr_local] in *.
  assert (String.eqb fp (fp ++ ".backup") = false) as Hneq.
  { apply String.eqb_neq. intros H. symmetry in H. revert H.
    apply append_neq_self. discriminate. }
  rewrite copy2_eq in Hcopy by exact Hdir. cbn zeta in Hcopy.
  rewrite Hneq in Hcopy. cbn [andb] in Hcopy. cbv iota in Hcopy.
  rewrite (lookup_node_fs fp (fr_world f)) in Hcopy by reflexivity.
  destruct (lookup_node fp (fr_world f)) as [[original|]|] eqn:Hfile;
    [| discriminate Hcopy | discriminate Hcopy].
  injection Hcopy as <-.
  apply bind_inv_ok in Hb as ([] & f4 & Hset & Hb).
  unfold set_item in Hset. injection Hset as <-. cbn [fr_world fr_local] in Hb.
  apply bind_inv_ok in Hb as (c & f5 & Hread & Hb).
  apply liftW_inv in Hread as (w5 & Hread & ->). cbn [fr_world fr_local] in *.
  rewrite read_file_eq in Hread.
  rewrite lookup_node_insert_ne in Hread
    by (apply append_neq_self; discriminate).
  try rewrite (lookup_node_fs fp (fr_world f)) in Hread by reflexivity.
  rewrite Hfile in Hread. injection Hread as <- <-.
  apply bind_inv_ok in Hb as (df & f6 & Hcsv & Hb).
  destruct (read_csv E original) as [df'|]; [| discriminate].
  injection Hcsv as <- <-.
  apply bind_inv_ok in Hb as (w6 & f7 & Hget & Hb).
  apply liftW_inv in Hget as (w7 & Hget & ->). injection Hget as <- <-.
  cbn [fr_world fr_local] in Hb.
  apply bind_inv_ok in Hb as ([] & f8 & Hwrite & Hb).
  apply liftW_inv in Hwrite as (w8 & Hwrite & ->). cbn [fr_world fr_local] in *.
  rewrite write_file_eq in Hwrite.
  rewrite lookup_node_insert_ne in Hwrite
    by (apply append_neq_self; discriminate).
  try rewrite (lookup_node_fs fp (fr_world f)) in Hwrite by reflexivity.
  rewrite Hfile in Hwrite. injection Hwrite as <-.
  apply bind_inv_ok in Hb as ([] & f9 & Hs1 & Hb).
  unfold set_item in Hs1. injection Hs1 as <-.
  apply bind_inv_ok in Hb as ([] & f10 & Hs2 & Hb).
  unfold set_item in Hs2. injection Hs2 as <-.
  unfold set_item in Hb. injection Hb as <- <-. cbn [fr_world fr_local fs].
  eexists original, _. split; [reflexivity|]. split; [exact Hdot|]. split; [exact Hne|].
  split; [reflexivity|]. map_lookups.
Qed.

Lemma Path_nonempty s : s <> "" -> Path s = s.
Proof. intros Hs. unfold Path. apply String.eqb_neq in Hs. now rewrite Hs. Qed.

(** C5 (as the code has it). For every data file on which
    [simulate_data_corruption] returns an incident with status ['active'],
    and whose backup path [<file>.backup] was not a directory beforehand,
    [recover_from_incident] on that incident succeeds by its first strategy
    and leaves the file with exactly the content it had before the
    corruption. *)
Theorem corruption_then_recovery_restores (E : Env) (fp ctype : string)
    (target_version : option string) (f f' : Frame IncidentGenerator)
    (incident : gmap string pyval) :
  simulate_data_corruption E fp ctype f = (Ok incident, f') ->
  incident !! "status" = Some (VStr "active") ->
  path_is_dir (fp ++ ".backup") (fr_world f) = false ->
  exists result w'',
    recover_from_incident E incident target_version (fr_world f') = (Ok result, w'') /\
    succeeded_by "restored_from_backup" result /\
    (exists original, lookup_node fp (fr_world f) = Some (File original)) /\
    lookup_node fp w'' = lookup_node fp (fr_world f).
Proof.
  intros Hs Hact Hdir.
  destruct (simulate_data_corruption_active E _ _ _ _ _ Hs Hact Hdir)
    as (original & corrupted & Hfile & Hdot & Hne & Hfs & Hty & Haf & Hbp & _).
  assert (fp ++ ".backup" <> fp) as Hbf by (apply append_neq_self; discriminate).
  assert (fp ++ ".backup" <> "") as Hbne by (destruct fp; discriminate).
  assert (Hgd : get_default incident "backup_path" (VStr "") = VStr (fp ++ ".backup"))
    by (unfold get_default; now rewrite Hbp).
  assert (Hnb : lookup_node (fp ++ ".backup") (tick (fr_world f')) = Some (File original)).
  { unfold lookup_node. pose proof (backup_neq_dot fp) as Hd.
    apply String.eqb_neq in Hd. rewrite Hd. simpl. rewrite Hfs.
    rewrite lookup_insert_ne by congruence. apply lookup_insert_eq. }
  assert (Hnf : lookup_node fp (tick (fr_world f')) = Some (File corrupted)).
  { unfold lookup_node. apply String.eqb_neq in Hdot. rewrite Hdot. simpl.
    rewrite Hfs. apply lookup_insert_eq. }
  destruct (copy2 (Path (fp ++ ".backup")) (Path fp) (tick (fr_world f')))
    as [r w2] eqn:Hc.
  pose proof Hc as Hc'.
  rewrite !Path_nonempty in Hc' by assumption.
  rewrite copy2_eq in Hc' by (rewrite path_is_dir_node, Hnf; reflexivity).
  cbn zeta in Hc'. rewrite Hnb in Hc'.
  assert (String.eqb (fp ++ ".backup") fp = false) as Hneq by now apply String.eqb_neq.
  rewrite Hneq in Hc'. cbn [andb] in Hc'. cbv iota in Hc'.
  injection Hc' as <- <-.
  destruct (recover_by_backup E incident fp (fp ++ ".backup") Hty Haf Hgd
              target_version (fr_world f') _ _
              ltac:(rewrite Path_nonempty, path_exists_node, Hnb by assumption; reflexivity)
              Hc)
    as (result & Hr & _ & Hok).
  exists result. eexists. split; [exact Hr|]. split; [now apply Hok|].
  split; [eauto|].
  rewrite Hfile. unfold lookup_node. apply String.eqb_neq in Hdot. rewrite Hdot.
  simpl. apply lookup_insert_eq.
Qed.

(** Corruption and recovery of [data.csv]. *)
Lemma corruption_then_recovery_restores_witness :
  exists incident f' result w'',
    simulate_data_corruption Demo.quiet "data.csv" "random"
      (mkFrame Demo.world0 new_generator) = (Ok incident, f') /\
    recover_from_incident Demo.quiet incident None (fr_world f') = (Ok result, w'') /\
    lookup_node "data.csv" w'' = Some (File "id,churn").
Proof.
  pose (run := simulate_data_corruption Demo.quiet "data.csv" "random"
                 (mkFrame Demo.world0 new_generator)).
  pose (incident := match fst run with Ok i => i | Raise _ => ∅ end).
  assert (Hs : simulate_data_corruption Demo.quiet "data.csv" "random"
                 (mkFrame Demo.world0 new_generator) = (Ok incident, snd run))
    by (vm_compute; reflexivity).
  assert (Ha : incident !! "status" = Some (VStr "active"))
    by (vm_compute; reflexivity).
  assert (Hd : path_is_dir ("data.csv" ++ ".backup")
                 (fr_world (mkFrame Demo.world0 new_generator)) = false)
    by (vm_compute; reflexivity).
  destruct (corruption_then_recovery_restores Demo.quiet "data.csv" "random" None
              _ _ _ Hs Ha Hd)
    as (result & w'' & Hr & _ & _ & Hf).
  exists incident, (snd run), result, w''. split; [exact Hs|]. split; [exact Hr|].
  rewrite Hf. vm_compute. reflexivity.
Defined.

(** C5, refuted as stated: with a directory at [data.csv.backup] the
    simulation still returns an active incident, since [shutil.copy2] puts the
    copy inside that directory; the recovery then finds the backup path
    existing, fails to copy a directory, and leaves the file corrupted. *)
Lemma recovery_fails_on_backup_directory :
  match simulate_data_corruption Demo.quiet "data.csv" "random"
          (mkFrame Demo.world_backup_dir new_generator) with
  | (Ok incident, f') =>
      incident !! "status" = Some (VStr "active") /\
      match recover_from_incident Demo.quiet incident None (fr_world f') with
      | (Ok result, w'') =>
          result !! "status" = Some (VStr "failed") /\
          result !! "error" = Some (VStr "[Errno 21] Is a directory: 'data.csv.backup'") /\
          lookup_node "data.csv" Demo.world_backup_dir = Some (File "id,churn") /\
          lookup_node "data.csv" w'' = Some (File "noise,id,churn")
      | (Raise _, _) => False
      end
  | (Raise _, _) => False
  end.
Proof. vm_compute. repeat split. Qed.

(** ** The incident log *)

Definition is_active (incident : gmap string pyval) : Prop :=
  incident !! "status" = Some (VStr "active").












(** [simulate_pipeline_failure] has no failure status: it returns an active
    incident that it has appended, or raises and leaves the log alone. *)
Definition logged_or_raised (f : Frame IncidentGenerator)
    (r : res (gmap string pyval)) (f' : Frame IncidentGenerator) : Prop :=
  match r with
  | Ok incident =>
      is_active incident /\
      incident_log (fr_local f') = (incident_log (fr_local f) ++ [incident])%list
  | Raise _ => incident_log (fr_local f') = incident_log (fr_local f)
  end.

Definition marker_of (failure_point : string) : string :=
  path_join ".incident_markers" ("pipeline_failure_" ++ failure_point ++ ".marker").

Lemma simulate_pipeline_failure_outcome (E : Env) failure_point f r f' :
  simulate_pipeline_failure E failure_point f = (r, f') -> logged_or_raised f r f'.
Proof.
  unfold simulate_pipeline_failure. intros Hs.
  unfold bind at 1, liftW at 1, now_isoformat in Hs. simpl in Hs.
  unfold bind at 1 in Hs.
  match type of Hs with
  | context [liftW ?m ?f0] => destruct (liftW m f0) as [[[]|e] f1] eqn:Hm;
      apply liftW_inv in Hm as (w1 & _ & ->)
  end; [| injection Hs as <- <-; reflexivity].
  unfold bind at 1 in Hs.
  match type of Hs with
  | context [liftW ?m ?f0] => destruct (liftW m f0) as [[[]|e] f2] eqn:Hw;
      apply liftW_inv in Hw as (w2 & _ & ->)
  end; [| injection Hs as <- <-; reflexivity].
  unfold bind, get_local, set_local, ret in Hs. simpl in Hs.
  injection Hs as <- <-. simpl. split; [| reflexivity].
  unfold is_active. rewrite lookup_insert_ne by discriminate. apply lookup_insert_eq.
Qed.









(** C8. [recover_from_incident] never reads [target_version]: for every
    incident and world, any two values of the argument give the same result
    and the same final world, hence the same actions. *)
Theorem recover_ignores_target_version (E : Env) (incident : gmap string pyval)
    (tv1 tv2 : option string) (w : World) :
  recover_from_incident E incident tv1 w = recover_from_incident E incident tv2 w.
Proof. reflexivity. Qed.

(** ** The training pipeline *)

Module PipelineFacts.
Import Pipeline.












End PipelineFacts.

(** * Further properties of the code *)

(** ** Recovery from incomplete incidents *)

(** The recovery result of a [try] block that raised [e] in the world [w']. *)
Definition failed_result (E : Env) (incident : gmap string pyval) (w w' : World)
    (e : exn) : gmap string pyval :=
  <["end_time" := VStr (isoformat E (clock w'))]>
  (<["error" := VStr (str_exn e)]>
  (<["status" := VStr "failed"]> (initial_result E incident w))).

Lemma recover_from_incident_raised (E : Env) incident tv w e w' :
  recover_dispatch E incident (mkFrame (tick w) (initial_result E incident w))
    = (Raise e, mkFrame w' (initial_result E incident w)) ->
  recover_from_incident E incident tv w
    = (Ok (failed_result E incident w w' e), tick w').
Proof.
  intros Hd. rewrite recover_from_incident_unfold.
  now rewrite (recover_body_raise _ _ _ _ _ Hd).
Qed.

(** X1. An incident of type ['data_corruption'] or ['model_degradation']
    that has no ['affected_file'] entry is not recovered: the [KeyError] is
    caught, the result has status ['failed'], the error ['affected_file'] in
    quotes and no action, and nothing is done to the world: no event, no
    change of the file system. *)
Theorem recover_without_affected_file (E : Env) (incident : gmap string pyval)
    (target_version : option string) (w : World) :
  incident !! "type" = Some (VStr "data_corruption")
  \/ incident !! "type" = Some (VStr "model_degradation") ->
  incident !! "affected_file" = None ->
  exists result w',
    recover_from_incident E incident target_version w = (Ok result, w') /\
    result !! "status" = Some (VStr "failed") /\
    result !! "error" = Some (VStr "'affected_file'") /\
    result !! "actions_taken" = Some (VList []) /\
    trace w' = trace w /\ fs w' = fs w.
Proof.
  intros Hty Haf.
  assert (recover_dispatch E incident (mkFrame (tick w) (initial_result E incident w))
          = (Raise (KeyError "affected_file"),
             mkFrame (tick w) (initial_result E incident w))) as Hd.
  { destruct Hty as [Hty|Hty].
    - rewrite dispatch_dc by exact Hty.
      unfold _recover_data_corruption, bind, getitem. now rewrite Haf.
    - rewrite dispatch_model_degradation by exact Hty.
      unfold _recover_model_degradation, bind, getitem. now rewrite Haf. }
  rewrite (recover_from_incident_raised _ _ target_version _ _ _ Hd).
  eexists _, _. split; [reflexivity|]. unfold failed_result, initial_result.
  map_lookups.
Qed.

Lemma recover_without_affected_file_witness :
  exists result w',
    recover_from_incident Demo.quiet (<["type" := VStr "data_corruption"]> ∅)
      None Demo.world0 = (Ok result, w') /\
    result !! "error" = Some (VStr "'affected_file'").
Proof.
  destruct (recover_without_affected_file Demo.quiet
              (<["type" := VStr "data_corruption"]> ∅) None Demo.world0
              ltac:(left; reflexivity) ltac:(reflexivity))
    as (result & w' & Hr & _ & He & _).
  exists result, w'. split; [exact Hr | exact He].
Defined.






(** ** Degradation and recovery of a model file *)

Lemma unlink_eq p w :
  unlink p w =
  match lookup_node p w with
  | Some (File _) => (Ok tt, mkWorld (delete p (fs w)) (clock w) (trace w ++ [EvUnlink p]))
  | Some Dir => (Raise (IsADirectoryError p),
                 mkWorld (fs w) (clock w) (trace w ++ [EvUnlink p]))
  | None => (Raise (FileNotFoundError p),
             mkWorld (fs w) (clock w) (trace w ++ [EvUnlink p]))
  end.
Proof.
  unfold unlink.
  rewrite (bind_ok _ _ w tt (mkWorld (fs w) (clock w) (trace w ++ [EvUnlink p])))
    by reflexivity.
  unfold bind, get.
  rewrite (lookup_node_fs p w (mkWorld (fs w) (clock w) (trace w ++ [EvUnlink p])))
    by reflexivity.
  destruct (lookup_node p w) as [[|]|]; reflexivity.
Qed.

(** The file system after the degradation of [mp], from the one that holds
    the backup. *)
Definition degraded (mp degradation_type : string) (backed_up : gmap string node)
  : gmap string node :=
  if String.eqb degradation_type "delete" then delete mp backed_up
  else if String.eqb degradation_type "corrupt" then
    <[mp := File (repeat_string "CORRUPTED_DATA" 1000)]> backed_up
  else backed_up.

(** What a successful simulation of model degradation did. *)
Lemma simulate_model_degradation_active (E : Env) mp dtype
    (f : Frame IncidentGenerator) incident f' :
  simulate_model_degradation E mp dtype f = (Ok incident, f') ->
  is_active incident ->
  path_is_dir (mp ++ ".backup") (fr_world f) = false ->
  exists original,
    lookup_node mp (fr_world f) = Some (File original) /\
    mp <> "." /\ mp <> "" /\
    fs (fr_world f') =
      degraded mp dtype (<[mp ++ ".backup" := File original]> (fs (fr_world f))) /\
    incident !! "type" = Some (VStr "model_degradation") /\
    incident !! "affected_file" = Some (VStr mp) /\
    incident !! "backup_path" = Some (VStr (mp ++ ".backup")).
Proof.
  unfold simulate_model_degradation, is_active. intros Hs Hact Hdir.
  apply bind_inv_ok in Hs as (ts & f1 & Hnow & Hs).
  apply liftW_inv in Hnow as (w1 & Hnow & ->). inversion Hnow; subst; clear Hnow.
  unfold simulate_with, with_local in Hs. cbn [fr_world fr_local] in Hs.
  match type of Hs with
  | context [model_degradation_body mp dtype ?f0] =>
      destruct (model_degradation_body mp dtype f0) as [[[]|e] [w2 d2]] eqn:Hb
  end; cbn [fr_world fr_local] in Hs.
  2:{ inversion Hs; subst. rewrite lookup_insert_ne in Hact by discriminate.
      rewrite lookup_insert_eq in Hact. discriminate. }
  inversion Hs; subst; clear Hs. cbn [fr_world fr_local].
  unfold model_degradation_body in Hb.
  apply bind_inv_ok in Hb as (w0 & f2 & Hget & Hb).
  apply liftW_inv in Hget as (w3 & Hget & ->). injection Hget as <- <-.
  cbn [fr_world fr_local] in Hb.
  apply bind_inv_ok in Hb as ([] & f3 & Hex & Hb).
  destruct (negb (path_exists mp _)); [discriminate Hex|].
  injection Hex as <-.
  apply bind_inv_ok in Hb as (bp & f4 & Hbp & Hb).
  destruct (with_backup_suffix mp) as [bp'|] eqn:Hw; [| discriminate].
  injection Hbp as <- <-.
  apply with_backup_suffix_ok in Hw as (-> & Hdot & Hne).
  apply bind_inv_ok in Hb as ([] & f5 & Hcopy & Hb).
  apply liftW_inv in Hcopy as (w5 & Hcopy & ->). cbn [fr_world fr_local] in *.
  assert (String.eqb mp (mp ++ ".backup") = false) as Hneq.
  { apply String.eqb_neq. intros H. symmetry in H. revert H.
    apply append_neq_self. discriminate. }
  rewrite copy2_eq in Hcopy by exact Hdir. cbn zeta in Hcopy.
  rewrite Hneq in Hcopy. cbn [andb] in Hcopy. cbv iota in Hcopy.
  rewrite (lookup_node_fs mp (fr_world f)) in Hcopy by reflexivity.
  destruct (lookup_node mp (fr_world f)) as [[original|]|] eqn:Hfile;
    [| discriminate Hcopy | discriminate Hcopy].
  injection Hcopy as <-.
  apply bind_inv_ok in Hb as ([] & f6 & Hset & Hb).
  unfold set_item in Hset. injection Hset as <-. cbn [fr_world fr_local] in Hb.
  apply bind_inv_ok in Hb as ([] & f7 & Hdeg & Hb).
  unfold set_item in Hb. injection Hb as <- <-.
  assert (lookup_node mp
            (mkWorld (<[mp ++ ".backup" := File original]> (fs (fr_world f)))
               (S (clock (fr_world f)))
               (trace (fr_world f) ++ [EvCopy2 mp (mp ++ ".backup")]))
          = Some (File original)) as Hnode.
  { rewrite lookup_node_insert_ne by (apply append_neq_self; discriminate).
    exact Hfile. }
  match type of Hdeg with
  | _ ?f6 = _ =>
      assert (fr_local f7 = fr_local f6 /\
              fs (fr_world f7) =
                degraded mp dtype
                  (<[mp ++ ".backup" := File original]> (fs (fr_world f)))) as [Hl Hfs]
  end.
  { unfold degraded. destruct (String.eqb dtype "delete").
    - apply liftW_inv in Hdeg as (w7 & Hdeg & ->). cbn [fr_world fr_local] in *.
      rewrite unlink_eq, Hnode in Hdeg. injection Hdeg as <-. split; reflexivity.
    - destruct (String.eqb dtype "corrupt").
      + apply liftW_inv in Hdeg as (w7 & Hdeg & ->). cbn [fr_world fr_local] in *.
        rewrite write_file_eq, Hnode in Hdeg. injection Hdeg as <-. split; reflexivity.
      + injection Hdeg as <-. split; reflexivity. }
  exists original. split; [reflexivity|]. split; [exact Hdot|]. split; [exact Hne|].
  split; [exact Hfs|]. rewrite Hl. cbn [fr_local]. map_lookups.
Qed.

Lemma degraded_lookup_ne mp dtype backed_up q :
  mp <> q -> degraded mp dtype backed_up !! q = backed_up !! q.
Proof.
  intros Hq. unfold degraded.
  destruct (String.eqb dtype "delete"); [now apply lookup_delete_ne|].
  destruct (String.eqb dtype "corrupt"); [now apply lookup_insert_ne | reflexivity].
Qed.

Lemma degraded_not_dir mp dtype backed_up original :
  backed_up !! mp = Some (File original) ->
  degraded mp dtype backed_up !! mp <> Some Dir.
Proof.
  intros Hm. unfold degraded.
  destruct (String.eqb dtype "delete"); [rewrite lookup_delete_eq; discriminate|].
  destruct (String.eqb dtype "corrupt");
    [rewrite lookup_insert_eq; discriminate | rewrite Hm; discriminate].
Qed.

Lemma lookup_node_not_dot p w : p <> "." -> lookup_node p w = fs w !! p.
Proof. intros Hp. unfold lookup_node. apply String.eqb_neq in Hp. now rewrite Hp. Qed.

Lemma recover_model_by_backup (E : Env) incident af bp tv w w1 w2 :
  incident !! "type" = Some (VStr "model_degradation") ->
  incident !! "affected_file" = Some (VStr af) ->
  get_default incident "backup_path" (VStr "") = VStr bp ->
  path_exists (Path bp) (tick w) = true ->
  mkdir_exist_ok (path_parent (Path af)) (tick w) = (Ok tt, w1) ->
  copy2 (Path bp) (Path af) w1 = (Ok tt, w2) ->
  exists result,
    recover_from_incident E incident tv w = (Ok result, tick w2) /\
    succeeded_by "restored_from_backup" result.
Proof.
  intros Hty Haf Hbp Hex Hmk Hc. rewrite recover_from_incident_unfold.
  pose proof (md_backup E incident af bp Haf Hbp _ _ _ _ _
                (initial_actions E incident w) Hex Hmk Hc) as Hd.
  rewrite <- (dispatch_model_degradation E incident _ Hty) in Hd.
  erewrite recover_body_finish by (first [exact Hd | simpl; map_lookups]).
  eexists. split; [reflexivity|]. unfold succeeded_by. simpl. map_lookups.
Qed.

Lemma degradation_recovery_core (E : Env) (mp dtype : string)
    (target_version : option string) (f f' : Frame IncidentGenerator)
    (incident : gmap string pyval) :
  simulate_model_degradation E mp dtype f = (Ok incident, f') ->
  is_active incident ->
  path_is_dir (mp ++ ".backup") (fr_world f) = false ->
  path_is_dir (path_parent mp) (fr_world f) = true ->
  exists result w'' original,
    recover_from_incident E incident target_version (fr_world f') = (Ok result, w'') /\
    succeeded_by "restored_from_backup" result /\
    lookup_node mp (fr_world f) = Some (File original) /\
    lookup_node mp w'' = Some (File original).
Proof.
  intros Hs Hact Hdir Hparent.
  destruct (simulate_model_degradation_active E _ _ _ _ _ Hs Hact Hdir)
    as (original & Hfile & Hdot & Hne & Hfs & Hty & Haf & Hbp).
  set (bp := mp ++ ".backup") in *.
  set (B := <[bp := File original]> (fs (fr_world f))) in *.
  assert (bp <> mp) as Hbm by (apply append_neq_self; discriminate).
  assert (bp <> "") as Hbne by (subst bp; destruct mp; discriminate).
  assert (bp <> ".") as Hbdot by apply backup_neq_dot.
  assert (B !! mp = Some (File original)) as HBm.
  { subst B. rewrite lookup_insert_ne by exact Hbm.
    now rewrite <- (lookup_node_not_dot mp (fr_world f)). }
  assert (Hgd : get_default incident "backup_path" (VStr "") = VStr bp)
    by (unfold get_default; now rewrite Hbp).
  set (w0 := tick (fr_world f')).
  assert (Hnb : lookup_node bp w0 = Some (File original)).
  { rewrite lookup_node_not_dot by exact Hbdot. subst w0. simpl. rewrite Hfs.
    rewrite degraded_lookup_ne by congruence. subst B. apply lookup_insert_eq. }
  assert (Hnm : lookup_node mp w0 <> Some Dir).
  { rewrite lookup_node_not_dot by exact Hdot. subst w0. simpl. rewrite Hfs.
    eapply degraded_not_dir; eauto. }
  assert (Hnp : lookup_node (path_parent mp) w0 = Some Dir).
  { rewrite path_is_dir_node in Hparent, Hdir.
    destruct (String.eqb (path_parent mp) ".") eqn:Hpd.
    - unfold lookup_node. now rewrite Hpd.
    - apply String.eqb_neq in Hpd. rewrite lookup_node_not_dot by exact Hpd.
      subst w0. simpl. rewrite Hfs.
      assert (mp <> path_parent mp) as N1.
      { intros Heq. rewrite <- Heq in Hparent. now rewrite Hfile in Hparent. }
      assert (bp <> path_parent mp) as N2.
      { intros Heq. rewrite <- Heq in Hparent.
        destruct (lookup_node bp (fr_world f)) as [[|]|]; discriminate. }
      rewrite degraded_lookup_ne by exact N1. subst B.
      rewrite lookup_insert_ne by exact N2.
      rewrite <- (lookup_node_not_dot _ (fr_world f)) by exact Hpd.
      destruct (lookup_node (path_parent mp) (fr_world f)) as [[|]|];
        try discriminate. reflexivity. }
  assert (Hmk : mkdir_exist_ok (path_parent (Path mp)) w0
                = (Ok tt, mkWorld (fs w0) (clock w0)
                            (trace w0 ++ [EvMkdir (path_parent mp)]))).
  { rewrite Path_nonempty by exact Hne. rewrite mkdir_exist_ok_eq, Hnp. reflexivity. }
  set (w1 := mkWorld (fs w0) (clock w0) (trace w0 ++ [EvMkdir (path_parent mp)])) in *.
  assert (Hc : copy2 (Path bp) (Path mp) w1
               = (Ok tt, mkWorld (<[mp := File original]> (fs w1)) (clock w1)
                           (trace w1 ++ [EvCopy2 bp mp]))).
  { rewrite !Path_nonempty by assumption.
    rewrite copy2_eq.
    2:{ rewrite path_is_dir_node. rewrite (lookup_node_fs mp w0) by reflexivity.
        destruct (lookup_node mp w0) as [[|]|]; congruence. }
    cbn zeta. assert (String.eqb bp mp = false) as Hneq by now apply String.eqb_neq.
    rewrite Hneq. cbn [andb]. cbv iota.
    rewrite (lookup_node_fs bp w0) by reflexivity. now rewrite Hnb. }
  destruct (recover_model_by_backup E incident mp bp target_version (fr_world f') _ _
              Hty Haf Hgd
              ltac:(rewrite Path_nonempty, path_exists_node by assumption;
                    fold w0; rewrite Hnb; reflexivity)
              Hmk Hc) as (result & Hr & Hok).
  exists result. eexists. exists original.
  split; [exact Hr|]. split; [exact Hok|]. split; [exact Hfile|].
  rewrite lookup_node_not_dot by exact Hdot. simpl. apply lookup_insert_eq.
Qed.

(** X3. A model file put through [simulate_model_degradation] (deleted,
    overwritten, or left alone by an unknown degradation type) and then
    through [recover_from_incident] holds its original content again,
    provided the simulation ended active, the file's directory exists and no
    directory sits at [<file>.backup]. The recovery succeeds by
    ['restored_from_backup']. *)
Theorem degradation_then_recovery_restores (E : Env) (mp dtype : string)
    (target_version : option string) (f f' : Frame IncidentGenerator)
    (incident : gmap string pyval) :
  simulate_model_degradation E mp dtype f = (Ok incident, f') ->
  is_active incident ->
  path_is_dir (mp ++ ".backup") (fr_world f) = false ->
  path_is_dir (path_parent mp) (fr_world f) = true ->
  exists result w'' original,
    recover_from_incident E incident target_version (fr_world f') = (Ok result, w'') /\
    succeeded_by "restored_from_backup" result /\
    lookup_node mp (fr_world f) = Some (File original) /\
    lookup_node mp w'' = Some (File original).
Proof. apply degradation_recovery_core. Qed.

(** A trained model in its directory. *)
Definition world_model : World :=
  mkWorld (<["m/model.joblib" := File "weights"]> (<["m" := Dir]> ∅)) 0 [].

(** The model is deleted and brought back. *)
Lemma degradation_then_recovery_restores_witness :
  exists incident f' result w'',
    simulate_model_degradation Demo.quiet "m/model.joblib" "delete"
      (mkFrame world_model new_generator) = (Ok incident, f') /\
    lookup_node "m/model.joblib" (fr_world f') = None /\
    recover_from_incident Demo.quiet incident None (fr_world f') = (Ok result, w'') /\
    lookup_node "m/model.joblib" w'' = Some (File "weights").
Proof.
  pose (run := simulate_model_degradation Demo.quiet "m/model.joblib" "delete"
                 (mkFrame world_model new_generator)).
  pose (incident := match fst run with Ok i => i | Raise _ => ∅ end).
  assert (Hs : simulate_model_degradation Demo.quiet "m/model.joblib" "delete"
                 (mkFrame world_model new_generator) = (Ok incident, snd run))
    by (vm_compute; reflexivity).
  assert (Ha : is_active incident) by (vm_compute; reflexivity).
  assert (Hd : path_is_dir ("m/model.joblib" ++ ".backup")
                 (fr_world (mkFrame world_model new_generator)) = false)
    by (vm_compute; reflexivity).
  assert (Hp : path_is_dir (path_parent "m/model.joblib")
                 (fr_world (mkFrame world_model new_generator)) = true)
    by (vm_compute; reflexivity).
  destruct (degradation_then_recovery_restores Demo.quiet "m/model.joblib" "delete" None
              _ _ _ Hs Ha Hd Hp)
    as (result & w'' & original & Hr & _ & Ho & Hf).
  exists incident, (snd run), result, w''. split; [exact Hs|].
  split; [vm_compute; reflexivity|]. split; [exact Hr|].
  rewrite Hf. rewrite <- Ho. vm_compute. reflexivity.
Defined.

(** ** Pipeline failure and its recovery *)

(** X4. Whenever [simulate_pipeline_failure] returns, the incident it
    returns is recovered by [recover_from_incident] with status ['success']
    and the single action ['cleared_failure_markers'] (what
    [test_incident_recovery] asserts), and the marker file is gone
    afterwards. *)
Theorem pipeline_failure_then_recovery (E : Env) (failure_point : string)
    (target_version : option string) (f f' : Frame IncidentGenerator)
    (incident : gmap string pyval) :
  simulate_pipeline_failure E failure_point f = (Ok incident, f') ->
  is_active incident /\
  exists result w'',
    recover_from_incident E incident target_version (fr_world f') = (Ok result, w'') /\
    succeeded_by "cleared_failure_markers" result /\
    result !! "note" = Some (VStr "Pipeline can be restarted") /\
    lookup_node (marker_of failure_point) w'' = None.
Proof.
  intros Hs.
  pose proof (simulate_pipeline_failure_outcome E _ _ _ _ Hs) as [Hact _].
  split; [exact Hact|].
  unfold simulate_pipeline_failure in Hs. fold (marker_of failure_point) in Hs.
  set (marker := marker_of failure_point) in *.
  apply bind_inv_ok in Hs as (ts & f1 & Hnow & Hs).
  apply liftW_inv in Hnow as (w1 & Hnow & ->). injection Hnow as <- <-.
  apply bind_inv_ok in Hs as ([] & f2 & Hmk & Hs).
  apply liftW_inv in Hmk as (w2 & Hmk & ->). cbn [fr_world fr_local] in *.
  apply bind_inv_ok in Hs as ([] & f3 & Hwr & Hs).
  apply liftW_inv in Hwr as (w3 & Hwr & ->). cbn [fr_world fr_local] in *.
  unfold bind, get_local, set_local, ret in Hs. cbn [fr_world fr_local] in Hs.
  injection Hs as <- <-. cbn [fr_world fr_local].
  rewrite write_file_eq in Hwr.
  assert (marker <> ".") as Hmdot.
  { subst marker. unfold marker_of, path_join. simpl. discriminate. }
  assert (Path marker = marker) as HP.
  { apply Path_nonempty. subst marker. unfold marker_of, path_join. simpl. discriminate. }
  assert (exists c, fs w3 = <[marker := File c]> (fs w2)) as [c Hfs3].
  { destruct (lookup_node marker w2) as [[|]|]; try discriminate;
      injection Hwr as <-; eauto. }
  set (inc := <["marker_file" := VStr marker]> _).
  assert (Hty : inc !! "type" = Some (VStr "pipeline_failure")) by (subst inc; map_lookups).
  assert (Hmf : get_default inc "marker_file" (VStr "") = VStr marker)
    by (subst inc; unfold get_default; now rewrite lookup_insert_eq).
  assert (Hex : lookup_node marker (tick w3) = Some (File c)).
  { rewrite lookup_node_not_dot by exact Hmdot. simpl. rewrite Hfs3.
    apply lookup_insert_eq. }
  pose proof (pf_cleared inc marker (tick w3) (initial_result E inc w3) []
                (mkWorld (delete marker (fs w3)) (S (clock w3))
                   (trace w3 ++ [EvUnlink marker]))
                Hmf (initial_actions E inc w3)) as Hd.
  rewrite HP in Hd. rewrite path_exists_node, unlink_eq, Hex in Hd.
  specialize (Hd (or_intror (conj eq_refl eq_refl))).
  rewrite <- (dispatch_pipeline_failure E inc _ Hty) in Hd.
  rewrite recover_from_incident_unfold.
  erewrite recover_body_finish by (first [exact Hd | simpl; map_lookups]).
  eexists _, _. split; [reflexivity|].
  split; [unfold succeeded_by; simpl; map_lookups|].
  split; [simpl; map_lookups|].
  rewrite lookup_node_not_dot by exact Hmdot. simpl. apply lookup_delete_eq.
Qed.

Lemma pipeline_failure_then_recovery_witness :
  exists incident f' result w'',
    simulate_pipeline_failure Demo.quiet "test"
      (mkFrame Demo.world_markers new_generator) = (Ok incident, f') /\
    recover_from_incident Demo.quiet incident None (fr_world f') = (Ok result, w'') /\
    succeeded_by "cleared_failure_markers" result.
Proof.
  pose (run := simulate_pipeline_failure Demo.quiet "test"
                 (mkFrame Demo.world_markers new_generator)).
  pose (incident := match fst run with Ok i => i | Raise _ => ∅ end).
  assert (Hs : simulate_pipeline_failure Demo.quiet "test"
                 (mkFrame Demo.world_markers new_generator) = (Ok incident, snd run))
    by (vm_compute; reflexivity).
  destruct (pipeline_failure_then_recovery Demo.quiet "test" None _ _ _ Hs)
    as (_ & result & w'' & Hr & Hok & _).
  exists incident, (snd run), result, w''. split; [exact Hs|]. split; [exact Hr | exact Hok].
Defined.

(** ** RecoveryManager.verify_recovery *)

(** [verify_recovery]: the path exists and [stat().st_size] is not 0. The
    size of a directory depends on the file system; it is given by
    [dir_size]. *)
Definition verify_recovery (dir_size : string -> nat) (affected_path : string)
    (w : World) : bool :=
  match lookup_node affected_path w with
  | None => false
  | Some (File content) => negb (String.length content =? 0)%nat
  | Some Dir => negb (dir_size affected_path =? 0)%nat
  end.

(** X5. After a model has been deleted by [simulate_model_degradation],
    [verify_recovery] on its path fails; after [recover_from_incident] on the
    returned incident it passes exactly when the original model file was not
    empty: a model of zero bytes is restored successfully and still reported
    as not recovered. *)
Theorem verify_after_model_recovery (E : Env) (dir_size : string -> nat)
    (mp : string) (target_version : option string)
    (f f' : Frame IncidentGenerator) (incident : gmap string pyval) :
  simulate_model_degradation E mp "delete" f = (Ok incident, f') ->
  is_active incident ->
  path_is_dir (mp ++ ".backup") (fr_world f) = false ->
  path_is_dir (path_parent mp) (fr_world f) = true ->
  verify_recovery dir_size mp (fr_world f') = false /\
  exists result w'' original,
    recover_from_incident E incident target_version (fr_world f') = (Ok result, w'') /\
    result !! "status" = Some (VStr "success") /\
    lookup_node mp (fr_world f) = Some (File original) /\
    verify_recovery dir_size mp w'' = negb (String.length original =? 0)%nat.
Proof.
  intros Hs Hact Hdir Hparent. split.
  - destruct (simulate_model_degradation_active E _ _ _ _ _ Hs Hact Hdir)
      as (original & Hfile & Hdot & Hne & Hfs & _).
    unfold verify_recovery. rewrite lookup_node_not_dot by exact Hdot.
    rewrite Hfs. unfold degraded. simpl. now rewrite lookup_delete_eq.
  - destruct (degradation_recovery_core E mp "delete" target_version f f' incident
                Hs Hact Hdir Hparent)
      as (result & w'' & original & Hr & [Hst _] & Ho & Hn).
    exists result, w'', original. split; [exact Hr|]. split; [exact Hst|].
    split; [exact Ho|]. unfold verify_recovery. now rewrite Hn.
Qed.

(** An empty model file. *)
Definition world_empty_model : World :=
  mkWorld (<["m/model.joblib" := File ""]> (<["m" := Dir]> ∅)) 0 [].

(** The empty model is restored, and the verification of it fails. *)
Lemma verify_after_model_recovery_witness :
  exists incident f' result w'',
    simulate_model_degradation Demo.quiet "m/model.joblib" "delete"
      (mkFrame world_empty_model new_generator) = (Ok incident, f') /\
    recover_from_incident Demo.quiet incident None (fr_world f') = (Ok result, w'') /\
    result !! "status" = Some (VStr "success") /\
    verify_recovery (fun _ => 4096%nat) "m/model.joblib" w'' = false.
Proof.
  pose (run := simulate_model_degradation Demo.quiet "m/model.joblib" "delete"
                 (mkFrame world_empty_model new_generator)).
  pose (incident := match fst run with Ok i => i | Raise _ => ∅ end).
  assert (Hs : simulate_model_degradation Demo.quiet "m/model.joblib" "delete"
                 (mkFrame world_empty_model new_generator) = (Ok incident, snd run))
    by (vm_compute; reflexivity).
  assert (Ha : is_active incident) by (vm_compute; reflexivity).
  assert (Hd : path_is_dir ("m/model.joblib" ++ ".backup")
                 (fr_world (mkFrame world_empty_model new_generator)) = false)
    by (vm_compute; reflexivity).
  assert (Hp : path_is_dir (path_parent "m/model.joblib")
                 (fr_world (mkFrame world_empty_model new_generator)) = true)
    by (vm_compute; reflexivity).
  destruct (verify_after_model_recovery Demo.quiet (fun _ => 4096%nat)
              "m/model.joblib" None _ _ _ Hs Ha Hd Hp)
    as (_ & result & w'' & original & Hr & Hst & Ho & Hv).
  exists incident, (snd run), result, w''. split; [exact Hs|]. split; [exact Hr|].
  split; [exact Hst|]. rewrite Hv.
  assert (original = "") as ->.
  { assert (lookup_node "m/model.joblib"
              (fr_world (mkFrame world_empty_model new_generator)) = Some (File ""))
      as Hl by (vm_compute; reflexivity).
    rewrite Hl in Ho. now inversion Ho. }
  reflexivity.
Defined.

(** ** Recovery after a simulation that failed *)




(** ** VersionController.list_snapshots *)

(** The snapshot that [list_snapshots] keeps for a tag: the decoded metadata
    file of a non-empty tag, when there is one and it is not empty. *)
Definition listed_snapshot (E : Env) (w : World) (tag : string)
  : option (gmap string pyval) :=
  if String.eqb tag "" then None
  else match lookup_node (metadata_file tag) w with
       | Some (File c) =>
           match json_load E c with
           | Ok d => if dict_truthy d then Some d else None
           | Raise _ => None
           end
       | _ => None
       end.

(** The metadata of a tag can be read: there is none, or it decodes. *)
Definition tag_readable (E : Env) (w : World) (tag : string) : Prop :=
  tag = "" \/ lookup_node (metadata_file tag) w = None
  \/ exists c d, lookup_node (metadata_file tag) w = Some (File c) /\ json_load E c = Ok d.

Lemma omap_cons_listed (E : Env) w tag rest :
  omap (listed_snapshot E w) (tag :: rest)
  = match listed_snapshot E w tag with
    | Some d => d :: omap (listed_snapshot E w) rest
    | None => omap (listed_snapshot E w) rest
    end.
Proof. reflexivity. Qed.

Lemma load_tags_readable (E : Env) w tags : forall acc,
  Forall (tag_readable E w) tags ->
  load_tags E tags (mkFrame w acc)
  = (Ok tt, mkFrame w (acc ++ omap (listed_snapshot E w) tags)%list).
Proof.
  induction tags as [|tag rest IH]; intros acc Hall.
  - simpl. now rewrite app_nil_r.
  - inversion Hall as [|? ? Htag Hrest]; subst.
    rewrite omap_cons_listed. cbn [load_tags].
    unfold bind at 1. unfold listed_snapshot.
    destruct (String.eqb tag "") eqn:Hempty; cbn [negb].
    + unfold ret at 1. apply IH. exact Hrest.
    + unfold bind at 1, liftW at 1. cbn [fr_world fr_local].
      rewrite load_snapshot_metadata_eq, path_exists_node.
      destruct Htag as [->|[Hnone|(c & d & Hfile & Hjson)]]; [discriminate| |].
      * rewrite Hnone. cbn. apply IH. exact Hrest.
      * rewrite Hfile, Hjson. cbn [negb].
        destruct (dict_truthy d).
        -- unfold bind at 1, get_local, set_local. cbn [fr_world fr_local].
           rewrite (IH _ Hrest). now rewrite <- app_assoc.
        -- unfold ret at 1. now apply IH.
Qed.

Lemma load_tags_cons_ok (E : Env) tag rest f f1 :
  load_tags E [tag] f = (Ok tt, f1) ->
  load_tags E (tag :: rest) f = load_tags E rest f1.
Proof.
  cbn [load_tags]. unfold bind at 1. intros H. unfold bind at 1.
  destruct ((if negb (String.eqb tag "") then _ else ret tt) f) as [[[]|e'] f2].
  - unfold ret in H. now injection H as ->.
  - discriminate H.
Qed.

Lemma load_tags_app_readable (E : Env) w pre rest : forall acc,
  Forall (tag_readable E w) pre ->
  load_tags E (pre ++ rest) (mkFrame w acc)
  = load_tags E rest (mkFrame w (acc ++ omap (listed_snapshot E w) pre)%list).
Proof.
  induction pre as [|t pre IH]; intros acc Hall.
  - simpl. now rewrite app_nil_r.
  - inversion Hall as [|? ? Ht Hrest]; subst.
    rewrite <- app_comm_cons.
    rewrite (load_tags_cons_ok E t (pre ++ rest) _ _
               (load_tags_readable E w [t] acc (@List.Forall_cons _ (tag_readable E w) t [] Ht (@List.Forall_nil _ _)))).
    rewrite (IH _ Hrest). rewrite <- app_assoc.
    rewrite (omap_cons_listed E w t pre), (omap_cons_listed E w t []).
    destruct (listed_snapshot E w t); reflexivity.
Qed.

Lemma load_tags_unreadable (E : Env) w pre tag post c e acc :
  Forall (tag_readable E w) pre ->
  tag <> "" ->
  lookup_node (metadata_file tag) w = Some (File c) ->
  json_load E c = Raise e ->
  load_tags E (pre ++ tag :: post) (mkFrame w acc)
  = (Raise e, mkFrame w (acc ++ omap (listed_snapshot E w) pre)%list).
Proof.
  intros Hall Hne Hfile Hjson.
  rewrite (load_tags_app_readable E w pre (tag :: post) acc Hall).
  cbn [load_tags]. apply String.eqb_neq in Hne. rewrite Hne. cbn [negb].
  unfold bind, liftW. cbn [fr_world fr_local].
  rewrite load_snapshot_metadata_eq, path_exists_node, Hfile, Hjson. reflexivity.
Qed.

Lemma list_snapshots_eq (E : Env) w :
  list_snapshots E w =
  let cmd := ["git"; "tag"; "-l"] in
  let w1 := after_run w cmd (fst (exec E cmd w)) (snd (exec E cmd w)) in
  match fst (exec E cmd w) with
  | SpawnFailed msg => (Raise (OSError msg), w1)
  | Exited rc out =>
      if negb (rc =? 0)%Z then (Ok [], w1)
      else match load_tags E (split "010"%char (strip out)) (mkFrame w1 []) with
           | (Ok _, f) => (Ok (fr_local f), fr_world f)
           | (Raise e, f) =>
               if is_CalledProcessError e then (Ok (fr_local f), fr_world f)
               else (Raise e, fr_world f)
           end
  end.
Proof.
  unfold list_snapshots, with_local, on_called_process_error, try_except.
  unfold bind at 1, liftW at 1. cbn [fr_world fr_local].
  rewrite subprocess_run_eq. cbv zeta.
  destruct (fst (exec E ["git"; "tag"; "-l"] w)) as [rc out|msg]; simpl.
  - destruct (rc =? 0)%Z; simpl; [| reflexivity].
    destruct (load_tags E _ _) as [[[]|e] f]; [reflexivity|].
    destruct (is_CalledProcessError e); reflexivity.
  - reflexivity.
Qed.

(** X7. [list_snapshots] swallows a failing [git tag -l] and returns the
    empty list; when git succeeds and every listed tag's metadata is absent or
    decodes, it returns, in the order of git's output, the metadata of the
    tags that have a non-empty one, skipping blank lines and tags without
    metadata, and changes nothing beyond what git did. *)
Theorem list_snapshots_listing (E : Env) (w : World) (rc : Z) (out : string)
    (f : gmap string node) :
  exec E ["git"; "tag"; "-l"] w = (Exited rc out, f) ->
  let w1 := after_run w ["git"; "tag"; "-l"] (Exited rc out) f in
  (rc <> 0%Z -> list_snapshots E w = (Ok [], w1)) /\
  (rc = 0%Z ->
   Forall (tag_readable E w1) (split "010"%char (strip out)) ->
   list_snapshots E w
   = (Ok (omap (listed_snapshot E w1) (split "010"%char (strip out))), w1)).
Proof.
  intros Hexec w1. rewrite list_snapshots_eq. cbv zeta. rewrite Hexec. simpl fst.
  simpl snd. fold w1. split.
  - intros Hrc. apply Z.eqb_neq in Hrc. now rewrite Hrc.
  - intros -> Hall. simpl. now rewrite (load_tags_readable E w1 _ [] Hall).
Qed.

(** What the demonstration codec reads from a metadata file. *)
Definition demo_metadata (version timestamp : string) : gmap string pyval :=
  <["version" := VStr version]> (<["timestamp" := VStr timestamp]>
  (<["description" := VStr "demo"]> ∅)).

Lemma list_snapshots_listing_witness :
  exists w',
    list_snapshots Demo.env_two_snaps Demo.world_two_snaps
    = (Ok (omap (listed_snapshot Demo.env_two_snaps w') ["v10"; "v9"]), w').
Proof.
  pose (out := "v10" ++ String "010" "v9" ++ String "010" "").
  assert (Hs : split "010"%char (strip out) = ["v10"; "v9"])
    by (vm_compute; reflexivity).
  destruct (list_snapshots_listing Demo.env_two_snaps Demo.world_two_snaps 0 out
              (fs Demo.world_two_snaps) eq_refl) as [_ H].
  specialize (H eq_refl). rewrite Hs in H.
  eexists. apply H.
  apply List.Forall_cons; [| apply List.Forall_cons; [| apply List.Forall_nil]];
    right; right.
  - exists "v10 2026-02-01", (demo_metadata "v10" "2026-02-01").
    split; vm_compute; reflexivity.
  - exists "v9 2026-01-01", (demo_metadata "v9" "2026-01-01").
    split; vm_compute; reflexivity.
Defined.

(** X8. One metadata file that does not decode breaks the listing: if the
    tags before it are readable, [list_snapshots] raises the decoding error
    of that file instead of returning the snapshots it has collected, since
    only [CalledProcessError] is caught. *)
Theorem list_snapshots_corrupt_metadata (E : Env) (w : World) (out : string)
    (f : gmap string node) (pre post : list string) (tag c : string) (e : exn) :
  exec E ["git"; "tag"; "-l"] w = (Exited 0 out, f) ->
  let w1 := after_run w ["git"; "tag"; "-l"] (Exited 0 out) f in
  split "010"%char (strip out) = (pre ++ tag :: post)%list ->
  Forall (tag_readable E w1) pre ->
  tag <> "" ->
  lookup_node (metadata_file tag) w1 = Some (File c) ->
  json_load E c = Raise e ->
  is_CalledProcessError e = false ->
  list_snapshots E w = (Raise e, w1).
Proof.
  intros Hexec w1 Hsplit Hall Hne Hfile Hjson Hcpe.
  rewrite list_snapshots_eq. cbv zeta. rewrite Hexec. simpl. fold w1.
  rewrite Hsplit.
  rewrite (load_tags_unreadable E w1 pre tag post c e [] Hall Hne Hfile Hjson).
  now rewrite Hcpe.
Qed.

(** The metadata of [v9] has been truncated to nothing. *)
Definition world_corrupt_snap : World :=
  mkWorld (<[".snapshots/v10.json" := File "v10 2026-02-01"]>
           (<[".snapshots/v9.json" := File ""]> ∅)) 0 [].

Lemma list_snapshots_corrupt_metadata_witness :
  exists w',
    list_snapshots Demo.env_two_snaps world_corrupt_snap
    = (Raise (JSONDecodeError "Expecting value"), w').
Proof.
  eexists.
  apply (list_snapshots_corrupt_metadata Demo.env_two_snaps world_corrupt_snap
           ("v10" ++ String "010" "v9" ++ String "010" "")
           (fs world_corrupt_snap) ["v10"] [] "v9" ""
           (JSONDecodeError "Expecting value") eq_refl).
  - vm_compute. reflexivity.
  - apply List.Forall_cons; [| apply List.Forall_nil].
    right; right. exists "v10 2026-02-01", (demo_metadata "v10" "2026-02-01").
    split; vm_compute; reflexivity.
  - discriminate.
  - vm_compute. reflexivity.
  - reflexivity.
  - reflexivity.
Defined.

(** ** VersionController.create_snapshot *)

(** The file recorded by a [dvc add] that exited with status 0. *)
Definition added (ev : event) : option string :=
  match ev with
  | EvRun ["dvc"; "add"; p] (Exited rc _) => if (rc =? 0)%Z then Some p else None
  | _ => None
  end.

(** What staging runs: [dvc add] of a file, and [git add] of its [.dvc] file. *)
Definition staging_event (ev : event) : Prop :=
  exists p o, ev = EvRun ["dvc"; "add"; p] o
              \/ ev = EvRun ["git"; "add"; Path (p ++ ".dvc")] o.

(** The dictionary [create_snapshot] starts from. *)
Definition snapshot_init (version_tag description ts : string) : gmap string pyval :=
  <["mlflow_run_id" := VNone]> (<["dvc_files" := VList []]> (<["git_commit" := VNone]>
  (<["description" := VStr description]> (<["timestamp" := VStr ts]>
  (<["version" := VStr version_tag]> ∅))))).

(** While files are staged, [dvc_files] lists the files of the successful
    [dvc add] runs so far, in order, and nothing else has changed in the
    dictionary. *)
Definition staged (init : gmap string pyval) (t0 : list event)
    (f : Frame (gmap string pyval)) : Prop :=
  exists evs, trace (fr_world f) = (t0 ++ evs)%list /\ Forall staging_event evs /\
    fr_local f = <["dvc_files" := VList (omap added evs)]> init.

Definition staging_post (init : gmap string pyval) (t0 : list event)
    (r : res unit) (f : Frame (gmap string pyval)) : Prop :=
  match r with
  | Ok _ => staged init t0 f
  | Raise e => exists msg, e = OSError msg
  end.

Lemma dvc_add_inv (E : Env) cfg p w r w' :
  dvc_add E cfg p w = (r, w') ->
  match r with
  | Ok b => exists evs, trace w' = (trace w ++ evs)%list /\ Forall staging_event evs /\
              omap added evs = if b then [p] else []
  | Raise e => exists msg, e = OSError msg
  end.
Proof.
  unfold dvc_add, on_called_process_error, try_except. unfold bind at 1.
  rewrite subprocess_run_eq.
  destruct (fst (exec E ["dvc"; "add"; p] w)) as [rc out|msg] eqn:Ho; cbn [andb].
  - destruct (rc =? 0)%Z eqn:Hrc; cbn [negb is_CalledProcessError].
    + unfold bind at 1.
      assert (Hadd : omap added [EvRun ["dvc"; "add"; p] (Exited rc out)] = [p])
        by (simpl; now rewrite Hrc).
      assert (Hst : staging_event (EvRun ["dvc"; "add"; p] (Exited rc out)))
        by (exists p, (Exited rc out); now left).
      destruct (autostage cfg).
      * unfold bind at 1, get at 1.
        destruct (path_exists _ _).
        -- unfold bind at 1. rewrite subprocess_run_eq.
           destruct (fst (exec E ["git"; "add"; Path (p ++ ".dvc")] _))
             as [rc2 out2|msg2] eqn:Ho2; cbn [andb is_CalledProcessError].
           ++ intros H; inversion H; subst.
              exists [EvRun ["dvc"; "add"; p] (Exited rc out);
                      EvRun ["git"; "add"; Path (p ++ ".dvc")] (Exited rc2 out2)].
              split; [simpl; now rewrite <- app_assoc|]. split.
              ** apply List.Forall_cons; [exact Hst|].
                 apply List.Forall_cons; [|apply List.Forall_nil].
                 exists p, (Exited rc2 out2). now right.
              ** simpl. now rewrite Hrc.
           ++ intros H; inversion H; subst. eauto.
        -- intros H; inversion H; subst.
           exists [EvRun ["dvc"; "add"; p] (Exited rc out)].
           split; [reflexivity|]. split; [|exact Hadd].
           apply List.Forall_cons; [exact Hst|apply List.Forall_nil].
      * intros H; inversion H; subst.
        exists [EvRun ["dvc"; "add"; p] (Exited rc out)].
        split; [reflexivity|]. split; [|exact Hadd].
        apply List.Forall_cons; [exact Hst|apply List.Forall_nil].
    + intros H; inversion H; subst.
      exists [EvRun ["dvc"; "add"; p] (Exited rc out)].
      split; [reflexivity|]. split.
      * apply List.Forall_cons; [|apply List.Forall_nil].
        exists p, (Exited rc out). now left.
      * simpl. now rewrite Hrc.
  - intros H; inversion H; subst. eauto.
Qed.

Lemma staged_extend init t0 w l evs0 evs b p :
  trace w = (t0 ++ evs0)%list -> Forall staging_event evs0 ->
  Forall staging_event evs ->
  omap added evs = (if b : bool then [p] else []) ->
  l = <["dvc_files" := VList (omap added evs0)]> init ->
  forall w', trace w' = (trace w ++ evs)%list ->
  staging_post init t0
    (fst ((if b then append_item "dvc_files" p else ret tt) (mkFrame w' l)))
    (snd ((if b then append_item "dvc_files" p else ret tt) (mkFrame w' l))) /\
  exists u, (if b then append_item "dvc_files" p else ret tt) (mkFrame w' l)
            = (Ok tt, u).
Proof.
  intros T0 F0 F1 Hadd -> w' T1.
  assert (T : trace w' = (t0 ++ (evs0 ++ evs))%list)
    by (rewrite T1, T0; now rewrite app_assoc).
  assert (F : Forall staging_event (evs0 ++ evs)) by (apply Forall_app; auto).
  destruct b.
  - unfold append_item. cbn [fr_local fr_world]. rewrite lookup_insert_eq.
    split; [|eauto]. cbn [fst snd]. exists (evs0 ++ evs)%list.
    split; [exact T|]. split; [exact F|]. cbn [fr_local].
    rewrite insert_insert_eq, omap_app, Hadd. reflexivity.
  - unfold ret. split; [|eauto]. cbn [fst snd]. exists (evs0 ++ evs)%list.
    split; [exact T|]. split; [exact F|]. cbn [fr_local].
    rewrite omap_app, Hadd, app_nil_r. reflexivity.
Qed.

Lemma add_files_inv (E : Env) cfg init t0 files : forall f r f',
  staged init t0 f ->
  add_files E cfg files f = (r, f') ->
  staging_post init t0 r f'.
Proof.
  induction files as [|p rest IH]; intros f r f' Hst Hrun.
  - inversion Hrun; subst. exact Hst.
  - cbn [add_files] in Hrun. unfold bind at 1 in Hrun.
    destruct (liftW (dvc_add E cfg p) f) as [[b|e] f1] eqn:Hadd.
    + destruct (liftW_inv _ _ _ _ Hadd) as (w1 & Hw1 & ->).
      pose proof (dvc_add_inv _ _ _ _ _ _ Hw1) as (evs & T1 & F1 & A1).
      destruct Hst as (evs0 & T0 & F0 & L0).
      destruct (staged_extend init t0 (fr_world f) (fr_local f) evs0 evs b p
                  T0 F0 F1 A1 L0 w1 T1) as [Hpost (u & Hu)].
      unfold bind at 1 in Hrun. rewrite Hu in Hrun, Hpost. cbn [fst snd] in Hpost.
      eapply IH; eauto.
    + inversion Hrun; subst.
      destruct (liftW_inv _ _ _ _ Hadd) as (w1 & Hw1 & _).
      exact (dvc_add_inv _ _ _ _ _ _ Hw1).
Qed.

Lemma add_files_in_dirs_inv (E : Env) cfg init t0 pattern dirs : forall f r f',
  staged init t0 f ->
  add_files_in_dirs E cfg dirs pattern f = (r, f') ->
  staging_post init t0 r f'.
Proof.
  induction dirs as [|d rest IH]; intros f r f' Hst Hrun.
  - inversion Hrun; subst. exact Hst.
  - cbn [add_files_in_dirs] in Hrun. unfold bind at 1, liftW at 1, get at 1 in Hrun.
    cbn [fr_world fr_local] in Hrun. unfold bind at 1 in Hrun.
    assert (Hf : mkFrame (fr_world f) (fr_local f) = f) by (now destruct f).
    rewrite Hf in Hrun.
    destruct ((if path_is_dir d (fr_world f)
               then add_files E cfg (glob E (fr_world f) d pattern) else ret tt) f)
      as [[[]|e] f1] eqn:Hd.
    + eapply IH; [|exact Hrun].
      destruct (path_is_dir d (fr_world f)).
      * exact (add_files_inv E cfg init t0 _ _ _ _ Hst Hd).
      * inversion Hd; subst. exact Hst.
    + inversion Hrun; subst.
      destruct (path_is_dir d (fr_world f)).
      * exact (add_files_inv E cfg init t0 _ _ _ _ Hst Hd).
      * inversion Hd.
Qed.

Lemma subprocess_run_inv (E : Env) cmd check w r w' :
  subprocess_run E cmd check w = (r, w') ->
  exists o, trace w' = (trace w ++ [EvRun cmd o])%list /\
    match r with
    | Ok (rc, out) => o = Exited rc out /\ (check = true -> rc = 0%Z)
    | Raise e =>
        (exists msg, e = OSError msg) \/
        (exists rc out, check = true /\ rc <> 0%Z /\ o = Exited rc out
                        /\ e = CalledProcessError cmd rc)
    end.
Proof.
  rewrite subprocess_run_eq. intros H.
  exists (fst (exec E cmd w)).
  destruct (fst (exec E cmd w)) as [rc out|msg]; inversion H; subst; clear H.
  - split; [reflexivity|].
    destruct check; cbn [andb].
    + destruct (rc =? 0)%Z eqn:Hrc.
      * split; [reflexivity|]. intros _. now apply Z.eqb_eq.
      * right. exists rc, out. apply Z.eqb_neq in Hrc. auto.
    + split; [reflexivity|discriminate].
  - split; [reflexivity|]. left. eauto.
Qed.

(** The three git commands of [_git_commit] run unchecked: only a process
    that cannot be started stops it. *)
Lemma git_commit_inv (E : Env) tag message w r w' :
  _git_commit E tag message w = (r, w') ->
  match r with
  | Ok _ => exists o1 o2 o3,
      trace w' = (trace w ++ [EvRun ["git"; "add"; "*.dvc"; ".dvc/"] o1;
                              EvRun ["git"; "add"; ".gitignore"] o2;
                              EvRun ["git"; "commit"; "-m"; (tag ++ ": " ++ message)%string] o3])%list
  | Raise e => exists msg, e = OSError msg
  end.
Proof.
  unfold _git_commit, on_called_process_error, try_except.
  destruct (bind _ _ w) as [[[]|e] w1] eqn:Hb; intros H.
  - inversion H; subst; clear H.
    apply bind_inv_ok in Hb as ([rc1 out1] & w2 & H1 & Hb).
    apply bind_inv_ok in Hb as ([rc2 out2] & w3 & H2 & Hb).
    apply bind_inv_ok in Hb as ([rc3 out3] & w4 & H3 & Hb).
    inversion Hb; subst; clear Hb.
    apply subprocess_run_inv in H1 as (o1 & T1 & _).
    apply subprocess_run_inv in H2 as (o2 & T2 & _).
    apply subprocess_run_inv in H3 as (o3 & T3 & _).
    exists o1, o2, o3. rewrite T3, T2, T1. now rewrite <- !app_assoc.
  - assert (He : exists msg, e = OSError msg).
    { apply bind_inv_raise in Hb as [H1|(a1 & w2 & _ & Hb)].
      { apply subprocess_run_inv in H1 as (? & _ & [?|(? & ? & ? & _)]);
          [assumption|discriminate]. }
      apply bind_inv_raise in Hb as [H2|(a2 & w3 & _ & Hb)].
      { apply subprocess_run_inv in H2 as (? & _ & [?|(? & ? & ? & _)]);
          [assumption|discriminate]. }
      apply bind_inv_raise in Hb as [H3|(a3 & w4 & _ & Hb)].
      { apply subprocess_run_inv in H3 as (? & _ & [?|(? & ? & ? & _)]);
          [assumption|discriminate]. }
      inversion Hb. }
    destruct He as [msg ->]. cbn [is_CalledProcessError] in H.
    inversion H; subst. eauto.
Qed.

(** A checked command inside [try]/[except CalledProcessError]. *)
Lemma checked_command_inv (E : Env) {A} cmd (a b : A) w r w' :
  on_called_process_error (subprocess_run E cmd true ;;; ret a) b w = (r, w') ->
  exists o, trace w' = (trace w ++ [EvRun cmd o])%list /\
    match r with
    | Ok _ => True
    | Raise e => exists msg, e = OSError msg
    end.
Proof.
  unfold on_called_process_error, try_except, bind. rewrite subprocess_run_eq.
  unfold after_run.
  destruct (fst (exec E cmd w)) as [rc out|msg]; cbn [andb].
  - destruct (rc =? 0)%Z; cbn [negb is_CalledProcessError]; intros H;
      inversion H; subst; eexists; (split; [reflexivity|exact I]).
  - cbn [is_CalledProcessError]. intros H; inversion H; subst.
    eexists. split; [reflexivity|eauto].
Qed.

Lemma save_snapshot_metadata_inv (E : Env) info tag w r w' :
  info !! "version" = Some (VStr tag) ->
  _save_snapshot_metadata E info w = (r, w') ->
  match r with
  | Ok _ =>
      trace w' = (trace w ++ [EvMkdir ".snapshots"; EvWrite (metadata_file tag)])%list /\
      lookup_node (metadata_file tag) w' = Some (File (json_dump E info))
  | Raise e =>
      (e = FileExistsError ".snapshots" /\
       trace w' = (trace w ++ [EvMkdir ".snapshots"])%list /\ fs w' = fs w) \/
      (e = IsADirectoryError (metadata_file tag) /\
       trace w' = (trace w ++ [EvMkdir ".snapshots"; EvWrite (metadata_file tag)])%list)
  end.
Proof.
  intros Hv. unfold _save_snapshot_metadata. unfold bind at 1.
  rewrite mkdir_exist_ok_eq.
  assert (Hstep : forall w1, trace w1 = (trace w ++ [EvMkdir ".snapshots"])%list ->
            (version <- getitem info "version";;
             write_file (metadata_file (py_str version)) (json_dump E info)) w1 = (r, w') ->
            match r with
            | Ok _ =>
                trace w' = (trace w ++ [EvMkdir ".snapshots"; EvWrite (metadata_file tag)])%list /\
                lookup_node (metadata_file tag) w' = Some (File (json_dump E info))
            | Raise e =>
                (e = FileExistsError ".snapshots" /\
                 trace w' = (trace w ++ [EvMkdir ".snapshots"])%list /\ fs w' = fs w) \/
                (e = IsADirectoryError (metadata_file tag) /\
                 trace w' = (trace w ++ [EvMkdir ".snapshots"; EvWrite (metadata_file tag)])%list)
            end).
  { intros w1 T1. unfold bind, getitem. rewrite Hv. unfold ret. cbn [py_str].
    rewrite write_file_eq.
    destruct (lookup_node (metadata_file tag) w1) as [[c|]|] eqn:Hl;
      intros H; inversion H; subst; clear H; cbn [trace];
      rewrite ?T1, <- ?app_assoc; cbn [app].
    - split; [reflexivity|]. unfold lookup_node in *. cbn [fs].
      destruct (String.eqb (metadata_file tag) "."); [discriminate|].
      apply lookup_insert_eq.
    - right. split; reflexivity.
    - split; [reflexivity|]. unfold lookup_node in *. cbn [fs].
      destruct (String.eqb (metadata_file tag) "."); [discriminate|].
      apply lookup_insert_eq. }
  destruct (lookup_node ".snapshots" w) as [[c|]|]; try (apply Hstep; reflexivity).
  intros H; inversion H; subst. left. repeat split.
Qed.

(** The steps of [create_snapshot] after the files have been staged. *)
Definition snapshot_tail (E : Env) (version_tag description : string)
  : M (Frame (gmap string pyval)) unit :=
  liftW (_git_commit E version_tag description) ;;;
  result <- liftW (subprocess_run E ["git"; "rev-parse"; "HEAD"] true) ;;
  set_item "git_commit" (VStr (strip (snd result))) ;;;
  liftW (_git_tag E version_tag description) ;;;
  liftW (dvc_push E) ;;;
  snapshot_info <- get_local ;;
  liftW (_save_snapshot_metadata E snapshot_info).

(** The events of a commit, in order. *)
Definition commit_events (version_tag description : string)
    (o1 o2 o3 : proc_outcome) : list event :=
  [EvRun ["git"; "add"; "*.dvc"; ".dvc/"] o1;
   EvRun ["git"; "add"; ".gitignore"] o2;
   EvRun ["git"; "commit"; "-m"; version_tag ++ ": " ++ description] o3].

(** The events from the commit to the saved metadata. *)
Definition publish_events (version_tag description : string)
    (o1 o2 o3 : proc_outcome) (out : string) (o5 o6 : proc_outcome) : list event :=
  (commit_events version_tag description o1 o2 o3 ++
   [EvRun ["git"; "rev-parse"; "HEAD"] (Exited 0 out);
    EvRun ["git"; "tag"; "-a"; version_tag; "-m"; description] o5;
    EvRun ["dvc"; "push"] o6;
    EvMkdir ".snapshots"])%list.

(** How [create_snapshot] can fail once every process has started, with
    the events performed after staging. *)
Inductive snapshot_abort (version_tag description : string)
  : exn -> list event -> Prop :=
  | NoCommitHash o1 o2 o3 rc out :
      rc <> 0%Z ->
      snapshot_abort version_tag description
        (CalledProcessError ["git"; "rev-parse"; "HEAD"] rc)
        (commit_events version_tag description o1 o2 o3 ++
         [EvRun ["git"; "rev-parse"; "HEAD"] (Exited rc out)])
  | MetadataDirIsFile o1 o2 o3 out o5 o6 :
      snapshot_abort version_tag description (FileExistsError ".snapshots")
        (publish_events version_tag description o1 o2 o3 out o5 o6)
  | MetadataFileIsDir o1 o2 o3 out o5 o6 :
      snapshot_abort version_tag description
        (IsADirectoryError (metadata_file version_tag))
        (publish_events version_tag description o1 o2 o3 out o5 o6 ++
         [EvWrite (metadata_file version_tag)]).

Lemma snapshot_tail_inv (E : Env) tag desc f r f' :
  fr_local f !! "version" = Some (VStr tag) ->
  snapshot_tail E tag desc f = (r, f') ->
  match r with
  | Ok _ => exists o1 o2 o3 out o5 o6,
      trace (fr_world f')
      = (trace (fr_world f) ++ publish_events tag desc o1 o2 o3 out o5 o6
         ++ [EvWrite (metadata_file tag)])%list /\
      fr_local f' = <["git_commit" := VStr (strip out)]> (fr_local f) /\
      lookup_node (metadata_file tag) (fr_world f')
      = Some (File (json_dump E (fr_local f')))
  | Raise e =>
      (exists msg, e = OSError msg) \/
      exists evs, trace (fr_world f') = (trace (fr_world f) ++ evs)%list /\
                  snapshot_abort tag desc e evs
  end.
Proof.
  intros Hv. unfold snapshot_tail. unfold bind at 1.
  destruct (liftW (_git_commit E tag desc) f) as [[[]|e] f1] eqn:H1;
    apply liftW_inv in H1 as (w1 & H1 & ->); apply git_commit_inv in H1.
  2:{ intros H; inversion H; subst; clear H. now left. }
  destruct H1 as (o1 & o2 & o3 & T1).
  unfold bind at 1.
  destruct (liftW (subprocess_run E ["git"; "rev-parse"; "HEAD"] true) _)
    as [[[rc out]|e] f2] eqn:H2;
    apply liftW_inv in H2 as (w2 & H2 & ->); cbn [fr_world fr_local] in *;
    apply subprocess_run_inv in H2 as (o4 & T2 & H2).
  2:{ intros H; inversion H; subst; clear H.
      destruct H2 as [?|(rc & out & _ & Hrc & -> & ->)]; [now left|].
      right. eexists. split; [|exact (NoCommitHash tag desc o1 o2 o3 rc out Hrc)].
      cbn [fr_world]. rewrite T2, T1. unfold commit_events.
      now rewrite <- !app_assoc. }
  destruct H2 as [-> Hrc]. specialize (Hrc eq_refl). subst rc.
  unfold bind at 1. unfold set_item at 1. cbn [fr_world fr_local snd].
  unfold bind at 1.
  destruct (liftW (_git_tag E tag desc) _) as [[[]|e] f3] eqn:H3;
    apply liftW_inv in H3 as (w3 & H3 & ->); cbn [fr_world fr_local] in *;
    apply checked_command_inv in H3 as (o5 & T3 & H3).
  2:{ intros H; inversion H; subst; clear H. now left. }
  unfold bind at 1.
  destruct (liftW (dvc_push E) _) as [[b|e] f4] eqn:H4;
    apply liftW_inv in H4 as (w4 & H4 & ->); cbn [fr_world fr_local] in *;
    apply checked_command_inv in H4 as (o6 & T4 & H4).
  2:{ intros H; inversion H; subst; clear H. now left. }
  unfold bind at 1, get_local at 1. cbn [fr_world fr_local].
  intros H5. apply liftW_inv in H5 as (w5 & H5 & ->). cbn [fr_world fr_local] in *.
  apply (save_snapshot_metadata_inv E _ tag) in H5;
    [| rewrite lookup_insert_ne by discriminate; exact Hv].
  destruct r as [[]|e].
  - destruct H5 as [T5 L5]. exists o1, o2, o3, out, o5, o6.
    split; [| split; [reflexivity | exact L5]].
    rewrite T5, T4, T3, T2, T1. unfold publish_events, commit_events.
    now rewrite <- !app_assoc.
  - right. destruct H5 as [(-> & T5 & _)|(-> & T5)]; eexists; (split;
      [| first [exact (MetadataDirIsFile tag desc o1 o2 o3 out o5 o6)
               | exact (MetadataFileIsDir tag desc o1 o2 o3 out o5 o6)]]);
      rewrite T5, T4, T3, T2, T1; unfold publish_events, commit_events;
      now rewrite <- !app_assoc.
Qed.

(** The staging steps of [create_snapshot]. *)
Definition snapshot_staging (E : Env) (paths : PathConfig) (cfg : DVCConfig)
    (include_data include_models : bool) : M (Frame (gmap string pyval)) unit :=
  (if include_data then
     w <- liftW get ;;
     add_files E cfg (glob E w (raw_data paths) "*.csv") ;;;
     w <- liftW get ;;
     add_files_in_dirs E cfg (glob E w (processed_data paths) "*") "*.csv"
   else ret tt) ;;;
  (if include_models then
     w <- liftW get ;;
     add_files_in_dirs E cfg (glob E w (trained_models paths) "*") "*.joblib"
   else ret tt).

Lemma bind_assoc {S A B C} (m : M S A) (k : A -> M S B) (h : B -> M S C) s :
  bind (bind m k) h s = bind m (fun a => bind (k a) h) s.
Proof. unfold bind. destruct (m s) as [[a|e] s1]; reflexivity. Qed.

Lemma create_snapshot_body_eq (E : Env) paths cfg tag desc d m f :
  create_snapshot_body E paths cfg tag desc d m f
  = (snapshot_staging E paths cfg d m ;;; snapshot_tail E tag desc) f.
Proof. symmetry. apply bind_assoc. Qed.

Lemma snapshot_staging_inv (E : Env) paths cfg init t0 d m f r f' :
  staged init t0 f ->
  snapshot_staging E paths cfg d m f = (r, f') ->
  staging_post init t0 r f'.
Proof.
  intros Hst. unfold snapshot_staging. unfold bind at 1.
  assert (Hf : forall g : Frame (gmap string pyval),
             mkFrame (fr_world g) (fr_local g) = g) by (now intros []).
  assert (H1 : forall r1 f1,
    (if d then
       w <- liftW get ;;
       add_files E cfg (glob E w (raw_data paths) "*.csv") ;;;
       w <- liftW get ;;
       add_files_in_dirs E cfg (glob E w (processed_data paths) "*") "*.csv"
     else ret tt) f = (r1, f1) -> staging_post init t0 r1 f1).
  { intros r1 f1. destruct d.
    - unfold bind at 1, liftW at 1, get at 1. cbn [fr_world fr_local]. rewrite Hf.
      unfold bind at 1.
      destruct (add_files E cfg _ f) as [[[]|e] f2] eqn:Ha.
      + apply (add_files_inv E cfg init t0) in Ha; [|exact Hst].
        unfold bind at 1, liftW at 1, get at 1. cbn [fr_world fr_local]. rewrite Hf.
        apply add_files_in_dirs_inv. exact Ha.
      + apply (add_files_inv E cfg init t0) in Ha; [|exact Hst].
        intros H; inversion H; subst. exact Ha.
    - intros H; inversion H; subst. exact Hst. }
  destruct ((if d then _ else ret tt) f) as [[[]|e] f1] eqn:Hd.
  - specialize (H1 _ _ eq_refl). cbn [staging_post] in H1.
    destruct m.
    + unfold bind at 1, liftW at 1, get at 1. cbn [fr_world fr_local]. rewrite Hf.
      apply add_files_in_dirs_inv. exact H1.
    + intros H; inversion H; subst. exact H1.
  - specialize (H1 _ _ eq_refl). intros H; inversion H; subst. exact H1.
Qed.

(** The outcome of [create_snapshot], whichever way it ends. *)
Lemma create_snapshot_core (E : Env) paths cfg tag desc d m w r w' :
  create_snapshot E paths cfg tag desc d m w = (r, w') ->
  match r with
  | Ok info => exists evs o1 o2 o3 out o5 o6,
      Forall staging_event evs /\
      new_events w w'
      = (evs ++ publish_events tag desc o1 o2 o3 out o5 o6
         ++ [EvWrite (metadata_file tag)])%list /\
      info = <["git_commit" := VStr (strip out)]>
               (<["dvc_files" := VList (omap added evs)]>
                  (snapshot_init tag desc (isoformat E (clock w)))) /\
      lookup_node (metadata_file tag) w' = Some (File (json_dump E info))
  | Raise e =>
      (exists msg, e = OSError msg) \/
      exists evs rest, Forall staging_event evs /\
        new_events w w' = (evs ++ rest)%list /\ snapshot_abort tag desc e rest
  end.
Proof.
  unfold create_snapshot. unfold bind at 1, now_isoformat at 1.
  fold (snapshot_init tag desc (isoformat E (clock w))).
  set (init := snapshot_init tag desc (isoformat E (clock w))).
  unfold with_local. rewrite create_snapshot_body_eq. unfold bind at 1.
  set (f0 := mkFrame (mkWorld (fs w) (S (clock w)) (trace w)) init).
  assert (Hst0 : staged init (trace w) f0).
  { exists []. split; [now rewrite app_nil_r|]. split; [constructor|].
    cbn [fr_local f0 omap list_omap]. symmetry. apply insert_id. reflexivity. }
  destruct (snapshot_staging E paths cfg d m f0) as [[[]|e] f1] eqn:Hs;
    apply (snapshot_staging_inv E paths cfg init (trace w)) in Hs; try exact Hst0.
  2:{ intros H; inversion H; subst. left. exact Hs. }
  destruct Hs as (evs & T1 & F1 & L1).
  destruct (snapshot_tail E tag desc f1) as [[[]|e] f2] eqn:Ht;
    apply (snapshot_tail_inv E tag desc) in Ht;
    try (rewrite L1; unfold init, snapshot_init; map_lookups).
  - destruct Ht as (o1 & o2 & o3 & out & o5 & o6 & T2 & L2 & Hl).
    intros H; inversion H; subst.
    exists evs, o1, o2, o3, out, o5, o6. split; [exact F1|]. split.
    + apply new_events_app. rewrite T2, T1. now rewrite <- app_assoc.
    + rewrite L2, L1 in *. split; [reflexivity | exact Hl].
  - intros H; inversion H; subst.
    destruct Ht as [?|(rest & T2 & Hab)]; [now left|]. right.
    exists evs, rest. split; [exact F1|]. split; [|exact Hab].
    apply new_events_app. rewrite T2, T1. now rewrite <- app_assoc.
Qed.

(** X9. A snapshot that [create_snapshot] returns was made in this order:
    the files were staged by [dvc add] (each followed at most by the
    [git add] of its [.dvc] file), then came the git commit, the commit hash,
    the git tag, the DVC push, and the metadata file. The returned dictionary
    is the initial one with [git_commit] set to the stripped output of
    [git rev-parse HEAD] and [dvc_files] set to exactly the files whose
    [dvc add] exited with status 0, in the order they were added; it is what
    the metadata file of the tag holds. The outcomes of the commit, the tag
    and the push are not looked at. *)
Theorem create_snapshot_records (E : Env) (paths : PathConfig) (cfg : DVCConfig)
    (tag desc : string) (d m : bool) (w w' : World) (info : gmap string pyval) :
  create_snapshot E paths cfg tag desc d m w = (Ok info, w') ->
  exists evs o1 o2 o3 out o5 o6,
    Forall staging_event evs /\
    new_events w w'
    = (evs ++ publish_events tag desc o1 o2 o3 out o5 o6
       ++ [EvWrite (metadata_file tag)])%list /\
    info = <["git_commit" := VStr (strip out)]>
             (<["dvc_files" := VList (omap added evs)]>
                (snapshot_init tag desc (isoformat E (clock w)))) /\
    lookup_node (metadata_file tag) w' = Some (File (json_dump E info)).
Proof. intros H. exact (create_snapshot_core _ _ _ _ _ _ _ _ _ _ H). Qed.

(** Two raw files; [dvc add] of the second fails, and so do the git tag and
    the DVC push. *)
Definition world_raw : World :=
  mkWorld (<["data/raw/a.csv" := File "id,churn"]>
           (<["data/raw/a.csv.dvc" := File "outs:"]>
           (<["data/raw/b.csv" := File "id"]> ∅))) 0 [].

Definition env_partial_snapshot : Env :=
  Demo.env [(["dvc"; "add"; "data/raw/b.csv"], Exited 1 "");
            (["git"; "rev-parse"; "HEAD"], Exited 0 ("abc123" ++ String "010" ""));
            (["git"; "tag"; "-a"; "v1"; "-m"; "first"], Exited 128 "");
            (["dvc"; "push"], Exited 1 "")]
           [("data/raw", "*.csv", ["data/raw/a.csv"; "data/raw/b.csv"])].

Lemma create_snapshot_records_witness :
  exists info w',
    create_snapshot env_partial_snapshot Demo.paths (mkDVCConfig true)
      "v1" "first" true true world_raw = (Ok info, w') /\
    info !! "dvc_files" = Some (VList ["data/raw/a.csv"]) /\
    info !! "git_commit" = Some (VStr "abc123") /\
    lookup_node ".snapshots/v1.json" w'
    = Some (File (json_dump env_partial_snapshot info)).
Proof.
  remember (create_snapshot env_partial_snapshot Demo.paths (mkDVCConfig true)
              "v1" "first" true true world_raw) as run eqn:Hrun.
  assert (Hok : match run with (Ok _, _) => True | _ => False end)
    by (subst run; vm_compute; exact I).
  assert (Hd : match run with
               | (Ok i, _) => i !! "dvc_files" = Some (VList ["data/raw/a.csv"]) /\
                              i !! "git_commit" = Some (VStr "abc123")
               | _ => True
               end)
    by (subst run; vm_compute; split; reflexivity).
  destruct run as [[info|e] w']; [|destruct Hok].
  exists info, w'. split; [reflexivity|]. destruct Hd as [Hd1 Hd2].
  split; [exact Hd1|]. split; [exact Hd2|].
  symmetry in Hrun.
  destruct (create_snapshot_records _ _ _ _ _ _ _ _ _ _ Hrun)
    as (evs & o1 & o2 & o3 & out & o5 & o6 & _ & _ & _ & Hl).
  exact Hl.
Defined.




(** ** The files a snapshot stages *)














(** ** A snapshot that was created can be found again *)

(** The command can always be started. *)
Definition starts (E : Env) (cmd : list string) : Prop :=
  forall w, exists rc out, fst (exec E cmd w) = Exited rc out.

Lemma restore_snapshot_data (E : Env) tag rd rm w c d ts desc :
  lookup_node (metadata_file tag) w = Some (File c) ->
  json_load E c = Ok d ->
  d !! "timestamp" = Some ts ->
  d !! "description" = Some desc ->
  starts E ["dvc"; "pull"] ->
  starts E ["dvc"; "checkout"; "."] ->
  exists w', restore_snapshot E tag rd rm false w = (Ok true, w').
Proof.
  intros Hl Hj Hts Hdesc Hpull Hco. unfold restore_snapshot.
  rewrite (bind_ok _ _ w tt (entered w tag rd rm false)) by reflexivity.
  unfold try_except. unfold bind at 1. rewrite load_snapshot_metadata_eq.
  rewrite path_exists_node.
  rewrite (lookup_node_fs (metadata_file tag) w (entered w tag rd rm false))
    by reflexivity.
  rewrite Hl, Hj. cbn [negb].
  assert (Ht : dict_truthy d = true).
  { unfold dict_truthy. rewrite bool_decide_eq_false_2; [reflexivity|].
    intros ->. rewrite lookup_empty in Hts. discriminate. }
  rewrite Ht. unfold bind at 1, getitem at 1. rewrite Hts. unfold ret at 1.
  unfold bind at 1, getitem at 1. rewrite Hdesc. unfold ret at 1.
  unfold bind at 1, ret at 1.
  destruct (rd || rm).
  - unfold bind at 1. unfold bind at 1. rewrite dvc_pull_eq.
    destruct (Hpull (entered w tag rd rm false)) as (s1 & o1 & ->).
    unfold bind at 1. rewrite dvc_checkout_eq.
    match goal with |- context [exec E ["dvc"; "checkout"; "."] ?w1] =>
      destruct (Hco w1) as (s2 & o2 & ->) end.
    unfold ret. eauto.
  - unfold bind, ret. eauto.
Qed.

Lemma created_snapshot_core (E : Env) paths cfg tag desc d m w w' info :
  create_snapshot E paths cfg tag desc d m w = (Ok info, w') ->
  json_load E (json_dump E info) = Ok info ->
  _load_snapshot_metadata E tag w' = (Ok (Some info), w') /\
  (forall out f,
     exec E ["git"; "tag"; "-l"] w' = (Exited 0 out, f) ->
     let w1 := after_run w' ["git"; "tag"; "-l"] (Exited 0 out) f in
     lookup_node (metadata_file tag) w1 = lookup_node (metadata_file tag) w' ->
     tag <> "" ->
     tag ∈ split "010"%char (strip out) ->
     Forall (tag_readable E w1) (split "010"%char (strip out)) ->
     exists snapshots,
       list_snapshots E w' = (Ok snapshots, w1) /\ info ∈ snapshots) /\
  (starts E ["dvc"; "pull"] -> starts E ["dvc"; "checkout"; "."] ->
   forall rd rm, exists w'', restore_snapshot E tag rd rm false w' = (Ok true, w'')).
Proof.
  intros Hc Hj. apply create_snapshot_core in Hc
    as (evs & o1 & o2 & o3 & out & o5 & o6 & _ & _ & Hi & Hl).
  assert (Ht : dict_truthy info = true).
  { unfold dict_truthy. rewrite bool_decide_eq_false_2; [reflexivity|].
    rewrite Hi. apply insert_non_empty. }
  split; [|split].
  - rewrite load_snapshot_metadata_eq, path_exists_node, Hl, Hj. reflexivity.
  - intros out' f Hexec w1 Hkeep Hne Hin Hall.
    exists (omap (listed_snapshot E w1) (split "010"%char (strip out'))). split.
    + rewrite list_snapshots_eq. cbv zeta. rewrite Hexec. cbn [fst snd negb Z.eqb].
      fold w1. now rewrite (load_tags_readable E w1 _ [] Hall).
    + apply list_elem_of_omap. exists tag. split; [exact Hin|].
      unfold listed_snapshot. apply String.eqb_neq in Hne.
      now rewrite Hne, Hkeep, Hl, Hj, Ht.
  - intros Hpull Hco rd rm.
    apply (restore_snapshot_data E tag rd rm w' _ info
             (VStr (isoformat E (clock w))) (VStr desc) Hl Hj); auto;
      rewrite Hi; unfold snapshot_init; map_lookups.
Qed.

(** X11. A snapshot returned by [create_snapshot] can be found again,
    provided its dictionary survives the JSON codec: loading the metadata of
    its tag gives back the returned dictionary; [list_snapshots] returns a
    list that holds it whenever [git tag -l] succeeds, lists the tag, leaves
    its metadata file alone and lists no tag whose metadata does not decode;
    and a restore of data and models to that tag returns [True] as long as
    the DVC commands can be started, whatever their exit status. *)
Theorem created_snapshot_is_found (E : Env) (paths : PathConfig) (cfg : DVCConfig)
    (tag desc : string) (d m : bool) (w w' : World) (info : gmap string pyval) :
  create_snapshot E paths cfg tag desc d m w = (Ok info, w') ->
  json_load E (json_dump E info) = Ok info ->
  _load_snapshot_metadata E tag w' = (Ok (Some info), w') /\
  (forall out f,
     exec E ["git"; "tag"; "-l"] w' = (Exited 0 out, f) ->
     let w1 := after_run w' ["git"; "tag"; "-l"] (Exited 0 out) f in
     lookup_node (metadata_file tag) w1 = lookup_node (metadata_file tag) w' ->
     tag <> "" ->
     tag ∈ split "010"%char (strip out) ->
     Forall (tag_readable E w1) (split "010"%char (strip out)) ->
     exists snapshots,
       list_snapshots E w' = (Ok snapshots, w1) /\ info ∈ snapshots) /\
  (starts E ["dvc"; "pull"] -> starts E ["dvc"; "checkout"; "."] ->
   forall rd rm, exists w'', restore_snapshot E tag rd rm false w' = (Ok true, w'')).
Proof. apply created_snapshot_core. Qed.

(** A codec that keeps the version and the timestamp of a snapshot taken
    without files, on a repository whose commands all succeed silently and
    where git lists the tag [v1]. *)
Definition env_codec : Env :=
  let base := Demo.env [(["git"; "tag"; "-l"], Exited 0 ("v1" ++ String "010" ""))] [] in
  {| exec := exec base;
     isoformat := isoformat base;
     json_load := fun c =>
       match split " "%char c with
       | [version; timestamp] =>
           Ok (<["git_commit" := VStr ""]> (<["dvc_files" := VList []]>
                 (snapshot_init version "first" timestamp)))
       | _ => Raise (JSONDecodeError "Expecting value")
       end;
     json_dump := json_dump base;
     glob := glob base;
     DataFrame := DataFrame base;
     read_csv := read_csv base;
     to_csv := to_csv base;
     shape := shape base;
     corrupt_random := corrupt_random base;
     corrupt_missing := corrupt_missing base;
     corrupt_duplicate := corrupt_duplicate base;
     random_index := random_index base |}.

Lemma created_snapshot_is_found_witness :
  exists info w' snapshots w1 w'',
    create_snapshot env_codec Demo.paths (mkDVCConfig true)
      "v1" "first" false false Demo.world0 = (Ok info, w') /\
    _load_snapshot_metadata env_codec "v1" w' = (Ok (Some info), w') /\
    list_snapshots env_codec w' = (Ok snapshots, w1) /\ info ∈ snapshots /\
    restore_snapshot env_codec "v1" true true false w' = (Ok true, w'').
Proof.
  pose (run := create_snapshot env_codec Demo.paths (mkDVCConfig true)
                 "v1" "first" false false Demo.world0).
  pose (info := match fst run with Ok i => i | Raise _ => ∅ end).
  pose (w' := snd run).
  pose (out := "v1" ++ String "010" "").
  pose (w1 := after_run w' ["git"; "tag"; "-l"] (Exited 0 out) (fs w')).
  assert (Hrun : run = (Ok info, w')) by (vm_compute; reflexivity).
  assert (Hj : json_load env_codec (json_dump env_codec info) = Ok info)
    by (vm_compute; reflexivity).
  assert (Hexec : exec env_codec ["git"; "tag"; "-l"] w' = (Exited 0 out, fs w'))
    by (vm_compute; reflexivity).
  assert (Hkeep : lookup_node (metadata_file "v1") w1
                  = lookup_node (metadata_file "v1") w')
    by (vm_compute; reflexivity).
  assert (Hfile : lookup_node (metadata_file "v1") w1
                  = Some (File (json_dump env_codec info)))
    by (vm_compute; reflexivity).
  assert (Hin : "v1" ∈ split "010"%char (strip out))
    by (vm_compute; apply list_elem_of_here).
  assert (Hall : Forall (tag_readable env_codec w1) (split "010"%char (strip out))).
  { change (split "010"%char (strip out)) with ["v1"].
    apply List.Forall_cons; [|apply List.Forall_nil].
    right; right. exists (json_dump env_codec info), info. split; assumption. }
  destruct (created_snapshot_is_found _ _ _ _ _ _ _ _ _ _ Hrun Hj)
    as (Hload & Hlist & Hrestore).
  destruct (Hlist out (fs w') Hexec Hkeep ltac:(discriminate) Hin Hall)
    as (snapshots & Hls & Hsn).
  destruct (Hrestore ltac:(intros w0; exists 0%Z, ""; reflexivity)
                     ltac:(intros w0; exists 0%Z, ""; reflexivity) true true)
    as [w'' Hr].
  exists info, w', snapshots, w1, w''. auto.
Defined.

(** ** VersionController.get_current_version and DVCManager.status *)

(** The dictionaries [get_current_version] can return: the four entries are
    filled in order, and a step that fails leaves the later ones out. *)
Inductive version_report : gmap string pyval -> Prop :=
  | ReportEmpty : version_report ∅
  | ReportCommit c : version_report (<["git_commit" := VStr c]> ∅)
  | ReportBranch c b :
      version_report (<["git_branch" := VStr b]> (<["git_commit" := VStr c]> ∅))
  | ReportTag c b t :
      version_report (<["latest_tag" := VStr t]> (<["git_branch" := VStr b]>
                        (<["git_commit" := VStr c]> ∅)))
  | ReportStatus c b t s :
      s = "clean" \/ s = "modified" ->
      version_report (<["dvc_status" := VStr s]> (<["latest_tag" := VStr t]>
                        (<["git_branch" := VStr b]> (<["git_commit" := VStr c]> ∅)))).

(** [status] turns a non-zero exit of [dvc status --json] into the empty
    dictionary. *)
Lemma dvc_status_inv (E : Env) w r w' :
  dvc_status E w = (r, w') ->
  exists o, trace w' = (trace w ++ [EvRun ["dvc"; "status"; "--json"] o])%list /\
    forall rc out, o = Exited rc out -> rc <> 0%Z -> r = Ok ∅.
Proof.
  unfold dvc_status, on_called_process_error, try_except. unfold bind at 1.
  rewrite subprocess_run_eq. unfold after_run.
  destruct (fst (exec E ["dvc"; "status"; "--json"] w)) as [rc out|msg]; cbn [andb].
  - destruct (rc =? 0)%Z eqn:Hrc; cbn [negb is_CalledProcessError snd].
    + apply Z.eqb_eq in Hrc. subst rc.
      destruct (String.eqb out "").
      * intros H; inversion H; subst. eexists. split; [reflexivity|].
        intros ? ? Ho Hne. inversion Ho; subst. now destruct Hne.
      * destruct (json_load E out) as [d|e]; cbn [lift_res];
          [|unfold raise; destruct (is_CalledProcessError e)];
          intros H; inversion H; subst; (eexists; split; [reflexivity|]);
          intros ? ? Ho Hne; inversion Ho; subst; now destruct Hne.
    + intros H; inversion H; subst. eexists. split; [reflexivity|]. reflexivity.
  - cbn [is_CalledProcessError]. intros H; inversion H; subst.
    eexists. split; [reflexivity|]. intros ? ? Ho. discriminate Ho.
Qed.

Lemma last_run_neq (t : list event) cmd o cmd' o' :
  cmd <> cmd' -> last (t ++ [EvRun cmd o]) <> Some (EvRun cmd' o').
Proof. rewrite last_snoc. intros Hne H. inversion H. contradiction. Qed.

Lemma get_current_version_core (E : Env) w :
  exists info w', get_current_version E w = (Ok info, w') /\
    version_report info /\
    (forall rc out,
       last (trace w') = Some (EvRun ["dvc"; "status"; "--json"] (Exited rc out)) ->
       rc <> 0%Z -> info !! "dvc_status" = Some (VStr "clean")).
Proof.
  unfold get_current_version, with_local, try_except.
  destruct (get_current_version_body E (mkFrame w ∅)) as [r f] eqn:Hb.
  assert (Hn : version_report (fr_local f) /\
    (forall rc out,
       last (trace (fr_world f))
       = Some (EvRun ["dvc"; "status"; "--json"] (Exited rc out)) ->
       rc <> 0%Z -> fr_local f !! "dvc_status" = Some (VStr "clean"))).
  { revert Hb. unfold get_current_version_body.
    unfold bind at 1.
    destruct (liftW (subprocess_run E ["git"; "rev-parse"; "HEAD"] true) _)
      as [[r1|e1] f1] eqn:H1; apply liftW_inv in H1 as (w1 & H1 & ->);
      apply subprocess_run_inv in H1 as (o1 & T1 & _).
    2:{ intros H; inversion H; subst. split; [constructor|]. cbn [fr_world].
        rewrite T1. intros rc out Hl. now apply last_run_neq in Hl. }
    unfold bind at 1, set_item at 1. cbn [fr_world fr_local]. unfold bind at 1.
    destruct (liftW (subprocess_run E ["git"; "rev-parse"; "--abbrev-ref"; "HEAD"] true) _)
      as [[r2|e2] f2] eqn:H2; apply liftW_inv in H2 as (w2 & H2 & ->);
      apply subprocess_run_inv in H2 as (o2 & T2 & _).
    2:{ intros H; inversion H; subst. split; [constructor|]. cbn [fr_world].
        rewrite T2. intros rc out Hl. now apply last_run_neq in Hl. }
    unfold bind at 1, set_item at 1. cbn [fr_world fr_local]. unfold bind at 1.
    destruct (liftW (subprocess_run E ["git"; "describe"; "--tags"; "--abbrev=0"] false) _)
      as [[r3|e3] f3] eqn:H3; apply liftW_inv in H3 as (w3 & H3 & ->);
      apply subprocess_run_inv in H3 as (o3 & T3 & _).
    2:{ intros H; inversion H; subst. split; [constructor|]. cbn [fr_world].
        rewrite T3. intros rc out Hl. now apply last_run_neq in Hl. }
    unfold bind at 1, set_item at 1. cbn [fr_world fr_local]. unfold bind at 1.
    destruct (liftW (dvc_status E) _)
      as [[d|e4] f4] eqn:H4; apply liftW_inv in H4 as (w4 & H4 & ->);
      apply dvc_status_inv in H4 as (o4 & T4 & Hfail).
    2:{ intros H; inversion H; subst. split; [constructor|]. cbn [fr_world].
        rewrite T4, last_snoc. intros rc out Hl Hne. inversion Hl; subst.
        discriminate (Hfail _ _ eq_refl Hne). }
    unfold set_item. cbn [fr_world fr_local].
    intros H; inversion H; subst. split.
    - constructor. destruct (negb (dict_truthy d)); auto.
    - cbn [fr_world fr_local]. rewrite T4, last_snoc. intros rc out Hl Hne.
      inversion Hl; subst. specialize (Hfail _ _ eq_refl Hne).
      inversion Hfail; subst. rewrite lookup_insert_eq. reflexivity. }
  destruct r as [[]|e]; cbn; eauto.
Qed.

(** What [subprocess.run(cmd, check=check)] gives for the outcome of the
    process. *)
Definition run_result (cmd : list string) (check : bool) (o : proc_outcome)
  : res (Z * string) :=
  match o with
  | SpawnFailed msg => Raise (OSError msg)
  | Exited rc out =>
      if check && negb (rc =? 0)%Z then Raise (CalledProcessError cmd rc)
      else Ok (rc, out)
  end.

Lemma subprocess_run_outcome (E : Env) cmd check w r w' :
  subprocess_run E cmd check w = (r, w') ->
  exists o, trace w' = (trace w ++ [EvRun cmd o])%list /\ r = run_result cmd check o.
Proof.
  rewrite subprocess_run_eq. intros H. inversion H; subst.
  exists (fst (exec E cmd w)). split; reflexivity.
Qed.

(** What [DVCManager.status] gives for the outcome of [dvc status --json]. *)
Definition status_result (E : Env) (o : proc_outcome) : res (gmap string pyval) :=
  match o with
  | SpawnFailed msg => Raise (OSError msg)
  | Exited rc out =>
      if negb (rc =? 0)%Z then Ok ∅
      else if String.eqb out "" then Ok ∅
      else match json_load E out with
           | Ok d => Ok d
           | Raise e => if is_CalledProcessError e then Ok ∅ else Raise e
           end
  end.

Lemma dvc_status_outcome (E : Env) w r w' :
  dvc_status E w = (r, w') ->
  exists o, trace w' = (trace w ++ [EvRun ["dvc"; "status"; "--json"] o])%list /\
            r = status_result E o.
Proof.
  unfold dvc_status, on_called_process_error, try_except. unfold bind at 1.
  rewrite subprocess_run_eq. unfold after_run. intros H.
  exists (fst (exec E ["dvc"; "status"; "--json"] w)).
  destruct (fst (exec E ["dvc"; "status"; "--json"] w)) as [rc out|msg];
    cbn [andb status_result] in *.
  - destruct (rc =? 0)%Z; cbn [negb is_CalledProcessError snd] in *.
    + destruct (String.eqb out "").
      * inversion H; subst. split; reflexivity.
      * destruct (json_load E out) as [d|e]; cbn [lift_res] in *.
        -- inversion H; subst. split; reflexivity.
        -- unfold raise in H. destruct (is_CalledProcessError e);
             inversion H; subst; split; reflexivity.
    + inversion H; subst. split; reflexivity.
  - cbn [is_CalledProcessError] in H. inversion H; subst. split; reflexivity.
Qed.

(** The runs of [get_current_version]: the commands performed, with their
    outcomes, and the dictionary returned. Each entry is there exactly when
    its command and all those before it succeeded. *)
Inductive version_run (E : Env) : list event -> gmap string pyval -> Prop :=
  | RunNoCommit o1 e :
      run_result ["git"; "rev-parse"; "HEAD"] true o1 = Raise e ->
      version_run E [EvRun ["git"; "rev-parse"; "HEAD"] o1] ∅
  | RunNoBranch o1 rc1 commit o2 e :
      run_result ["git"; "rev-parse"; "HEAD"] true o1 = Ok (rc1, commit) ->
      run_result ["git"; "rev-parse"; "--abbrev-ref"; "HEAD"] true o2 = Raise e ->
      version_run E
        [EvRun ["git"; "rev-parse"; "HEAD"] o1;
         EvRun ["git"; "rev-parse"; "--abbrev-ref"; "HEAD"] o2]
        (<["git_commit" := VStr (strip commit)]> ∅)
  | RunNoTag o1 rc1 commit o2 rc2 branch o3 e :
      run_result ["git"; "rev-parse"; "HEAD"] true o1 = Ok (rc1, commit) ->
      run_result ["git"; "rev-parse"; "--abbrev-ref"; "HEAD"] true o2 = Ok (rc2, branch) ->
      run_result ["git"; "describe"; "--tags"; "--abbrev=0"] false o3 = Raise e ->
      version_run E
        [EvRun ["git"; "rev-parse"; "HEAD"] o1;
         EvRun ["git"; "rev-parse"; "--abbrev-ref"; "HEAD"] o2;
         EvRun ["git"; "describe"; "--tags"; "--abbrev=0"] o3]
        (<["git_branch" := VStr (strip branch)]>
           (<["git_commit" := VStr (strip commit)]> ∅))
  | RunNoStatus o1 rc1 commit o2 rc2 branch o3 rc3 tag o4 e :
      run_result ["git"; "rev-parse"; "HEAD"] true o1 = Ok (rc1, commit) ->
      run_result ["git"; "rev-parse"; "--abbrev-ref"; "HEAD"] true o2 = Ok (rc2, branch) ->
      run_result ["git"; "describe"; "--tags"; "--abbrev=0"] false o3 = Ok (rc3, tag) ->
      status_result E o4 = Raise e ->
      version_run E
        [EvRun ["git"; "rev-parse"; "HEAD"] o1;
         EvRun ["git"; "rev-parse"; "--abbrev-ref"; "HEAD"] o2;
         EvRun ["git"; "describe"; "--tags"; "--abbrev=0"] o3;
         EvRun ["dvc"; "status"; "--json"] o4]
        (<["latest_tag" := VStr (if (rc3 =? 0)%Z then strip tag else "N/A")]>
           (<["git_branch" := VStr (strip branch)]>
              (<["git_commit" := VStr (strip commit)]> ∅)))
  | RunComplete o1 rc1 commit o2 rc2 branch o3 rc3 tag o4 status :
      run_result ["git"; "rev-parse"; "HEAD"] true o1 = Ok (rc1, commit) ->
      run_result ["git"; "rev-parse"; "--abbrev-ref"; "HEAD"] true o2 = Ok (rc2, branch) ->
      run_result ["git"; "describe"; "--tags"; "--abbrev=0"] false o3 = Ok (rc3, tag) ->
      status_result E o4 = Ok status ->
      version_run E
        [EvRun ["git"; "rev-parse"; "HEAD"] o1;
         EvRun ["git"; "rev-parse"; "--abbrev-ref"; "HEAD"] o2;
         EvRun ["git"; "describe"; "--tags"; "--abbrev=0"] o3;
         EvRun ["dvc"; "status"; "--json"] o4]
        (<["dvc_status" := VStr (if negb (dict_truthy status) then "clean"
                                 else "modified")]>
           (<["latest_tag" := VStr (if (rc3 =? 0)%Z then strip tag else "N/A")]>
              (<["git_branch" := VStr (strip branch)]>
                 (<["git_commit" := VStr (strip commit)]> ∅)))).

Lemma get_current_version_run (E : Env) w :
  exists info w', get_current_version E w = (Ok info, w') /\
    version_run E (new_events w w') info.
Proof.
  unfold get_current_version, with_local, try_except.
  destruct (get_current_version_body E (mkFrame w ∅)) as [r f] eqn:Hb.
  assert (Hn : exists evs, trace (fr_world f) = (trace w ++ evs)%list /\
                           version_run E evs (fr_local f)).
  { revert Hb. unfold get_current_version_body.
    unfold bind at 1.
    destruct (liftW (subprocess_run E ["git"; "rev-parse"; "HEAD"] true) _)
      as [[[rc1 c]|e1] f1] eqn:H1; apply liftW_inv in H1 as (w1 & H1 & ->);
      apply subprocess_run_outcome in H1 as (o1 & T1 & R1); symmetry in R1.
    2:{ intros H; inversion H; subst. eexists. split; [exact T1|].
        econstructor; eassumption. }
    unfold bind at 1, set_item at 1. cbn [fr_world fr_local snd]. unfold bind at 1.
    destruct (liftW (subprocess_run E ["git"; "rev-parse"; "--abbrev-ref"; "HEAD"] true) _)
      as [[[rc2 b]|e2] f2] eqn:H2; apply liftW_inv in H2 as (w2 & H2 & ->);
      apply subprocess_run_outcome in H2 as (o2 & T2 & R2); symmetry in R2.
    2:{ intros H; inversion H; subst. eexists. split.
        - cbn [fr_world] in *. rewrite T2, T1, <- app_assoc. reflexivity.
        - cbn [fr_local]. econstructor; eassumption. }
    unfold bind at 1, set_item at 1. cbn [fr_world fr_local snd]. unfold bind at 1.
    destruct (liftW (subprocess_run E ["git"; "describe"; "--tags"; "--abbrev=0"] false) _)
      as [[[rc3 t]|e3] f3] eqn:H3; apply liftW_inv in H3 as (w3 & H3 & ->);
      apply subprocess_run_outcome in H3 as (o3 & T3 & R3); symmetry in R3.
    2:{ intros H; inversion H; subst. eexists. split.
        - cbn [fr_world] in *. rewrite T3, T2, T1, <- !app_assoc. reflexivity.
        - cbn [fr_local]. econstructor; eassumption. }
    unfold bind at 1, set_item at 1. cbn [fr_world fr_local fst snd]. unfold bind at 1.
    destruct (liftW (dvc_status E) _)
      as [[d|e4] f4] eqn:H4; apply liftW_inv in H4 as (w4 & H4 & ->);
      apply dvc_status_outcome in H4 as (o4 & T4 & R4); symmetry in R4.
    2:{ intros H; inversion H; subst. eexists. split.
        - cbn [fr_world] in *. rewrite T4, T3, T2, T1, <- !app_assoc. reflexivity.
        - cbn [fr_local]. eapply RunNoStatus; eassumption. }
    unfold set_item. cbn [fr_world fr_local].
    intros H; inversion H; subst. eexists. split.
    - cbn [fr_world] in *. rewrite T4, T3, T2, T1, <- !app_assoc. reflexivity.
    - cbn [fr_local]. eapply RunComplete; eassumption. }
  destruct Hn as (evs & T & Hrun).
  destruct r as [[]|e]; cbn; eexists _, _; (split; [reflexivity|]);
    erewrite new_events_app by exact T; exact Hrun.
Qed.

(** X12. [get_current_version] never raises, and what it returns follows
    the commands it ran: it runs [git rev-parse HEAD],
    [git rev-parse --abbrev-ref HEAD], [git describe --tags --abbrev=0] and
    [dvc status --json] in this order and stops at the first that fails (a
    checked command that exits non-zero or cannot be started, the unchecked
    [git describe] only when it cannot be started, the status when its
    output does not decode). The result holds [git_commit], [git_branch],
    [latest_tag] and [dvc_status] for exactly the commands that succeeded
    before the stop, each computed from the output of its own command: the
    stripped output for the commit and the branch, the stripped output or
    ['N/A'] by the exit status for the tag, ['clean'] or ['modified'] by the
    emptiness of the status. It is empty when [git rev-parse HEAD] fails. *)
Theorem get_current_version_returns (E : Env) (w : World) :
  exists info w', get_current_version E w = (Ok info, w') /\
    version_run E (new_events w w') info.
Proof. apply get_current_version_run. Qed.

(** X13. A failing [dvc status] is reported as a clean state: when the last
    command of [get_current_version] was [dvc status --json] and it exited
    with a non-zero status, the result says [dvc_status = 'clean']. *)
Theorem failed_dvc_status_reads_clean (E : Env) (w w' : World)
    (info : gmap string pyval) (rc : Z) (out : string) :
  get_current_version E w = (Ok info, w') ->
  last (trace w') = Some (EvRun ["dvc"; "status"; "--json"] (Exited rc out)) ->
  rc <> 0%Z ->
  info !! "dvc_status" = Some (VStr "clean").
Proof.
  intros Hg Hl Hrc.
  destruct (get_current_version_core E w) as (info' & w'' & H & _ & Hc).
  rewrite Hg in H. inversion H; subst. eauto.
Qed.

(** DVC is not initialised: [dvc status] exits with status 253. *)
Definition env_no_dvc_repo : Env :=
  Demo.env [(["dvc"; "status"; "--json"], Exited 253 "")] [].

Lemma failed_dvc_status_reads_clean_witness :
  exists info w',
    get_current_version env_no_dvc_repo Demo.world0 = (Ok info, w') /\
    info !! "dvc_status" = Some (VStr "clean").
Proof.
  remember (get_current_version env_no_dvc_repo Demo.world0) as run eqn:Hrun.
  assert (Hok : match run with
                | (Ok _, w') =>
                    last (trace w')
                    = Some (EvRun ["dvc"; "status"; "--json"] (Exited 253 ""))
                | _ => False
                end)
    by (subst run; vm_compute; reflexivity).
  destruct run as [[info|e] w']; [|destruct Hok]. symmetry in Hrun.
  exists info, w'. split; [reflexivity|].
  apply (failed_dvc_status_reads_clean _ _ _ _ 253 "" Hrun Hok). discriminate.
Defined.

(** ** DVCManager.get_tracked_files *)

Lemma has_char_rev c s : forall acc,
  has_char c (rev_string acc s) = has_char c s || has_char c acc.
Proof.
  induction s as [|c' s IH]; intros acc; simpl; [reflexivity|].
  rewrite IH. simpl. destruct (Ascii.eqb c' c), (has_char c s); reflexivity.
Qed.

Lemma split_aux_no_sep sep s : forall cur,
  has_char sep cur = false ->
  Forall (fun x => has_char sep x = false) (split_aux sep cur s).
Proof.
  induction s as [|c s IH]; intros cur Hcur; simpl.
  - apply List.Forall_cons; [|apply List.Forall_nil].
    rewrite has_char_rev, Hcur. reflexivity.
  - destruct (Ascii.eqb c sep) eqn:Hc.
    + apply List.Forall_cons; [|now apply IH].
      rewrite has_char_rev, Hcur. reflexivity.
    + apply IH. simpl. now rewrite Hc, Hcur.
Qed.

Lemma split_no_sep sep s : Forall (fun x => has_char sep x = false) (split sep s).
Proof. now apply split_aux_no_sep. Qed.

(** X14. [get_tracked_files] does not look at the exit status of
    [dvc list . --dvc-only]: whenever the command can be started, it returns
    the lines of the stripped output that are not empty, in order, also when
    the command failed. No returned name is empty or contains a newline. *)
Theorem get_tracked_files_lines (E : Env) (w : World) (rc : Z) (out : string)
    (f : gmap string node) :
  exec E ["dvc"; "list"; "."; "--dvc-only"] w = (Exited rc out, f) ->
  exists files,
    get_tracked_files E w
    = (Ok files, after_run w ["dvc"; "list"; "."; "--dvc-only"] (Exited rc out) f) /\
    files = List.filter (fun x => negb (String.eqb x ""))
              (split "010"%char (strip out)) /\
    Forall (fun x => x <> "" /\ has_char "010"%char x = false) files.
Proof.
  intros Hexec. eexists. split; [|split; [reflexivity|]].
  - unfold get_tracked_files, on_called_process_error, try_except, bind.
    rewrite subprocess_run_eq, Hexec. cbn [fst snd andb]. unfold ret.
    destruct (String.eqb out "") eqn:Hout; [|reflexivity].
    apply String.eqb_eq in Hout. subst out. reflexivity.
  - apply List.Forall_forall. intros x Hx. apply List.filter_In in Hx as [Hin Hne].
    split.
    + intros ->. discriminate Hne.
    + pose proof (split_no_sep "010"%char (strip out)) as Hall.
      rewrite List.Forall_forall in Hall. now apply Hall.
Qed.

(** The listing fails after printing one name and a warning. *)
Definition env_list_fails : Env :=
  Demo.env [(["dvc"; "list"; "."; "--dvc-only"],
             Exited 1 ("data.csv" ++ String "010" (String "010" "WARNING" ++ String "010" "")))]
           [].

Lemma get_tracked_files_lines_witness :
  exists w', get_tracked_files env_list_fails Demo.world0
             = (Ok ["data.csv"; "WARNING"], w').
Proof.
  destruct (get_tracked_files_lines env_list_fails Demo.world0 1
              ("data.csv" ++ String "010" (String "010" "WARNING" ++ String "010" ""))
              (fs Demo.world0) eq_refl) as (files & Hrun & Hfiles & _).
  assert (Hf : files = ["data.csv"; "WARNING"])
    by (rewrite Hfiles; vm_compute; reflexivity).
  rewrite Hf in Hrun. eauto.
Defined.

(** ** ConfigManager.get *)

Lemma rev_string_rev s : forall acc,
  rev_string "" (rev_string acc s) = rev_string s acc.
Proof.
  induction s as [|c s IH]; intros acc; simpl; [reflexivity|].
  now rewrite IH.
Qed.

Lemma rev_string_involutive s : rev_string "" (rev_string "" s) = s.
Proof. now rewrite rev_string_rev. Qed.

(** Splitting reads a part without separator up to the next separator. *)
Lemma split_aux_part sep a rest : forall cur,
  has_char sep a = false ->
  split_aux sep cur (a ++ String sep rest)
  = rev_string "" (rev_string cur a) :: split sep rest.
Proof.
  induction a as [|c a IH]; intros cur Ha; simpl.
  - now rewrite Ascii.eqb_refl.
  - simpl in Ha. apply orb_false_elim in Ha as [Hc Ha].
    rewrite Hc. now apply IH.
Qed.

Lemma split_aux_last sep a : forall cur,
  has_char sep a = false ->
  split_aux sep cur a = [rev_string "" (rev_string cur a)].
Proof.
  induction a as [|c a IH]; intros cur Ha; simpl; [reflexivity|].
  simpl in Ha. apply orb_false_elim in Ha as [Hc Ha].
  rewrite Hc. now apply IH.
Qed.

Lemma split_cons sep a rest :
  has_char sep a = false -> split sep (a ++ String sep rest) = a :: split sep rest.
Proof.
  intros Ha. unfold split at 1. rewrite split_aux_part by exact Ha.
  now rewrite rev_string_involutive.
Qed.

Lemma split_single sep a : has_char sep a = false -> split sep a = [a].
Proof.
  intros Ha. unfold split. rewrite split_aux_last by exact Ha.
  now rewrite rev_string_involutive.
Qed.

Lemma split_aux_nonempty sep s : forall cur, split_aux sep cur s <> [].
Proof.
  induction s as [|c s IH]; intros cur; simpl; [discriminate|].
  destruct (Ascii.eqb c sep); [discriminate | apply IH].
Qed.

(** X15. Dotted keys descend into nested dictionaries: a key without a dot
    is looked up in the configuration itself, where a missing entry and an
    entry holding [None] both give the default while every other value is
    returned as it is; a key [a.rest] is the lookup of [rest] in the
    dictionary stored under [a], and the default when [a] holds anything
    that is not a dictionary. *)
Theorem config_get_dotted (config : pyval) (a rest : string) (default : pyval) :
  has_char "."%char a = false ->
  config_get config a default
  = match config with
    | VDict d =>
        match d !! a with
        | None | Some VNone => default
        | Some v => v
        end
    | _ => default
    end /\
  config_get config (a ++ "." ++ rest) default
  = match config with
    | VDict d =>
        match d !! a with
        | Some (VDict d') => config_get (VDict d') rest default
        | _ => default
        end
    | _ => default
    end.
Proof.
  intros Ha. unfold config_get. split.
  - rewrite split_single by exact Ha. cbn [get_loop].
    destruct config as [| | | | |d]; reflexivity.
  - change (a ++ "." ++ rest)%string with (a ++ String "."%char rest)%string.
    rewrite split_cons by exact Ha. cbn [get_loop].
    destruct config as [| | | | |d]; try reflexivity.
    destruct (d !! a) as [[| | | | |d']|]; try reflexivity;
      (destruct (split "."%char rest) as [|k ks] eqn:Hs;
       [now apply split_aux_nonempty in Hs | reflexivity]).
Qed.

(** The hyperparameters of the training configuration. *)
Definition demo_config : pyval :=
  VDict (<["training" :=
             VDict (<["hyperparameters" :=
                        VDict (<["n_estimators" := VInt 200]>
                               (<["max_depth" := VNone]> ∅))]> ∅)]>
         (<["model" := VStr "random_forest"]> ∅)).

Lemma config_get_dotted_witness :
  config_get demo_config "training.hyperparameters.n_estimators" (VInt 100) = VInt 200 /\
  config_get demo_config "training.hyperparameters.max_depth" (VInt 10) = VInt 10 /\
  config_get demo_config "model.type" (VStr "none") = VStr "none".
Proof.
  destruct (config_get_dotted demo_config "training" "hyperparameters.n_estimators"
              (VInt 100) eq_refl) as [_ H1].
  destruct (config_get_dotted demo_config "training" "hyperparameters.max_depth"
              (VInt 10) eq_refl) as [_ H2].
  destruct (config_get_dotted demo_config "model" "type" (VStr "none") eq_refl)
    as [_ H3].
  split; [|split]; (etransitivity; [eassumption | vm_compute; reflexivity]).
Defined.

Lemma get_loop_none keys : forall value default,
  get_loop keys value default = VNone ->
  default = VNone \/ (keys = [] /\ value = VNone).
Proof.
  induction keys as [|k keys IH]; intros value default H; cbn [get_loop] in H.
  - right. auto.
  - destruct value as [| | | | |d]; auto.
    destruct (d !! k) as [v|]; auto.
    destruct v; auto; apply IH in H as [?|[_ ?]]; auto; discriminate.
Qed.

(** X16. [get] never returns [None] unless the default is [None]: an entry
    that holds [None] cannot be told from a missing one. *)
Theorem config_get_hides_none (config : pyval) (key : string) (default : pyval) :
  config_get config key default = VNone -> default = VNone.
Proof.
  unfold config_get. intros H.
  apply get_loop_none in H as [?|[Hs _]]; [assumption|].
  now apply split_aux_nonempty in Hs.
Qed.

Lemma config_get_hides_none_witness :
  config_get demo_config "training.hyperparameters.max_depth" VNone = VNone /\
  VNone = VNone.
Proof.
  assert (H : config_get demo_config "training.hyperparameters.max_depth" VNone = VNone)
    by (vm_compute; reflexivity).
  split; [exact H|]. exact (config_get_hides_none _ _ _ H).
Defined.
